(** * Sky1 kernel-config tooling: [manage-config.py] and [reconcile-configs.py]

    A shallow embedding of the two configuration scripts of the Sky1 build
    repository, and the properties of their specification that were checked
    against it.

    Conventions of the embedding.
    - A Python [str] is a [string]; a character is an [ascii], read as the
      code point of the same number (U+0000 .. U+00FF).  [splitlines],
      [strip] and [lower] follow Python on that whole range, [upper] on
      all of it but the three characters whose upper case lies outside.
    - The file system is a finite map from path to content that holds
      regular files only; a script runs in a state made of the file system
      and of what it has printed so far, and may raise an exception.
    - A Python [dict] is an association list with unique keys kept in
      insertion order, since the scripts iterate over their dicts. *)

From Stdlib Require Import Ascii DecimalString.
From stdpp Require Import base option strings list gmap.

(** ** Python [str] built-ins *)

Module py.

Definition LF : ascii := "010"%char.
Definition CR : ascii := "013"%char.
Definition nl : string := String LF EmptyString.

Definition code (c : ascii) : N := N_of_ascii c.

(** Line boundaries of [str.splitlines]: LF, VT, FF, CR, FS, GS, RS, NEL. *)
Definition is_linebreak (c : ascii) : bool :=
  let n := code c in
  ((10 <=? n) && (n <=? 13) || (28 <=? n) && (n <=? 30) || (n =? 133))%N.

(** White space of [str.isspace], which [str.strip] and [str.split] use. *)
Definition is_space (c : ascii) : bool :=
  let n := code c in
  ((9 <=? n) && (n <=? 13) || (28 <=? n) && (n <=? 32)
   || (n =? 133) || (n =? 160))%N.

(** [str.upper] on one character: the letters a-z and the lower-case
    letters of Latin-1, U+00E0 .. U+00FE without the division sign.  The
    upper case of U+00B5, U+00DF and U+00FF is not a character of
    U+0000 .. U+00FF; these three are left as they are. *)
Definition upper_char (c : ascii) : ascii :=
  let n := code c in
  if ((97 <=? n) && (n <=? 122) || (224 <=? n) && (n <=? 246)
      || (248 <=? n) && (n <=? 254))%N
  then ascii_of_N (n - 32) else c.

(** [str.lower] on one character: the letters A-Z and the upper-case
    letters of Latin-1, U+00C0 .. U+00DE without the multiplication sign. *)
Definition lower_char (c : ascii) : ascii :=
  let n := code c in
  if ((65 <=? n) && (n <=? 90) || (192 <=? n) && (n <=? 214)
      || (216 <=? n) && (n <=? 222))%N
  then ascii_of_N (n + 32) else c.

Fixpoint map_chars (f : ascii → ascii) (s : string) : string :=
  match s with
  | EmptyString => EmptyString
  | String c s' => String (f c) (map_chars f s')
  end.

Definition upper : string → string := map_chars upper_char.
Definition lower : string → string := map_chars lower_char.

Definition is_empty (s : string) : bool :=
  match s with EmptyString => true | _ => false end.

(** [s.startswith(p)] *)
Fixpoint startswith (s p : string) : bool :=
  match p, s with
  | EmptyString, _ => true
  | String a p', String b s' => Ascii.eqb a b && startswith s' p'
  | String _ _, EmptyString => false
  end.

(** [sub in s] *)
Fixpoint contains (sub s : string) : bool :=
  startswith s sub ||
  match s with
  | EmptyString => false
  | String _ s' => contains sub s'
  end.

Fixpoint has_char (c : ascii) (s : string) : bool :=
  match s with
  | EmptyString => false
  | String a s' => Ascii.eqb a c || has_char c s'
  end.

Fixpoint drop (n : nat) (s : string) : string :=
  match n, s with
  | O, _ => s
  | S n', String _ s' => drop n' s'
  | S _, EmptyString => EmptyString
  end.

(** [s.endswith(p)] *)
Definition endswith (s p : string) : bool :=
  (String.length p <=? String.length s)%nat
  && String.eqb (drop (String.length s - String.length p) s) p.

(** [s.removeprefix(p)] *)
Definition removeprefix (s p : string) : string :=
  if startswith s p then drop (String.length p) s else s.

Fixpoint lstrip (s : string) : string :=
  match s with
  | EmptyString => EmptyString
  | String c s' => if is_space c then lstrip s' else s
  end.

Fixpoint rstrip (s : string) : string :=
  match s with
  | EmptyString => EmptyString
  | String c s' =>
      let r := rstrip s' in
      if is_empty r && is_space c then EmptyString else String c r
  end.

(** [s.strip()] *)
Definition strip (s : string) : string := rstrip (lstrip s).

(** [s.partition(c)] for a one-character separator: the text before the
    first [c] and the text after it; [None] when [c] does not occur (Python
    then returns the whole string and two empty strings). *)
Fixpoint partition (c : ascii) (s : string) : option (string * string) :=
  match s with
  | EmptyString => None
  | String a s' =>
      if Ascii.eqb a c then Some (EmptyString, s')
      else match partition c s' with
           | Some (h, t) => Some (String a h, t)
           | None => None
           end
  end.

(** [s.partition(c)[0]], which is also [s.split(c)[0]] *)
Definition before (c : ascii) (s : string) : string :=
  match partition c s with Some (h, _) => h | None => s end.

(** [s.partition(c)[2]] *)
Definition after (c : ascii) (s : string) : string :=
  match partition c s with Some (_, t) => t | None => EmptyString end.

(** Puts a character in front of the first piece of a split. *)
Definition cons_head (c : ascii) (ls : list string) : list string :=
  match ls with
  | [] => [String c EmptyString]
  | l :: ls' => String c l :: ls'
  end.

(** [s.split(chr(10))]: the pieces between line feeds, never an empty
    list.  These are the lines that [^] and [$] delimit under
    [re.MULTILINE]. *)
Fixpoint split_nl (s : string) : list string :=
  match s with
  | EmptyString => [EmptyString]
  | String c s' =>
      if Ascii.eqb c LF then EmptyString :: split_nl s'
      else cons_head c (split_nl s')
  end.

(** The pieces between the line boundaries of [splitlines]; CR LF is one
    boundary ([after_cr] tells that the previous character was a CR). *)
Fixpoint segments (after_cr : bool) (s : string) : list string :=
  match s with
  | EmptyString => [EmptyString]
  | String c s' =>
      if after_cr && Ascii.eqb c LF then segments false s'
      else if is_linebreak c then EmptyString :: segments (Ascii.eqb c CR) s'
      else cons_head c (segments false s')
  end.

Fixpoint drop_last_empty (ls : list string) : list string :=
  match ls with
  | [] => []
  | [l] => if is_empty l then [] else [l]
  | l :: ls' => l :: drop_last_empty ls'
  end.

(** [s.splitlines()] *)
Definition splitlines (s : string) : list string :=
  drop_last_empty (segments false s).

(** [sep.join(ls)] *)
Fixpoint join (sep : string) (ls : list string) : string :=
  match ls with
  | [] => EmptyString
  | [l] => l
  | l :: ls' => l +:+ sep +:+ join sep ls'
  end.

(** [chr(10).join(ls) + chr(10)], the way the policy and README editors
    write a list of lines back. *)
Definition unlines (ls : list string) : string := join nl ls +:+ nl.

(** [s.replace(old, new)]: every occurrence, left to right, not
    overlapping.  [skip] counts the characters of an occurrence that are
    still to be passed over. *)
Fixpoint replace_from (old new : string) (skip : nat) (s : string) : string :=
  match s with
  | EmptyString => EmptyString
  | String c s' =>
      match skip with
      | S k => replace_from old new k s'
      | O =>
          if startswith s old
          then new +:+ replace_from old new (String.length old - 1) s'
          else String c (replace_from old new 0 s')
      end
  end.

Fixpoint intersperse (new : string) (s : string) : string :=
  match s with
  | EmptyString => new
  | String c s' => new +:+ String c (intersperse new s')
  end.

Definition replace (old new s : string) : string :=
  if is_empty old then intersperse new s else replace_from old new 0 s.

(** [s.split()]: the words between runs of white space. *)
Fixpoint words_from (cur : option string) (s : string) : list string :=
  match s with
  | EmptyString => option_list (String.rev <$> cur)
  | String c s' =>
      if is_space c then option_list (String.rev <$> cur) ++ words_from None s'
      else words_from (Some (String c (default EmptyString cur))) s'
  end.

Definition split_ws : string → list string := words_from None.

Fixpoint repeat_char (c : ascii) (n : nat) : string :=
  match n with
  | O => EmptyString
  | S n' => String c (repeat_char c n')
  end.

(** The format [{s:Ns}]: left-justified in a field of at least [n]. *)
Definition ljust (n : nat) (s : string) : string :=
  s +:+ repeat_char " "%char (n - String.length s).

(** [str(n)] for a natural number. *)
Definition str_nat (n : nat) : string := NilZero.string_of_uint (Nat.to_uint n).

(** Lexicographic order on code points, as [sorted] uses on [str]. *)
Definition str_le (a b : string) : bool := String.leb a b.

Section Sorted.
Context {A : Type} (key : A → string).

Fixpoint insert_sorted (x : A) (l : list A) : list A :=
  match l with
  | [] => [x]
  | y :: l' =>
      if str_le (key y) (key x) then y :: insert_sorted x l'
      else x :: l
  end.

(** [sorted(l, key=key)]; stable. *)
Definition sorted (l : list A) : list A :=
  foldr insert_sorted [] (rev l).
End Sorted.

(** *** Dictionaries *)

Definition dict (V : Type) : Type := list (string * V).

Fixpoint dict_get {V} (d : dict V) (k : string) : option V :=
  match d with
  | [] => None
  | (k', v) :: d' => if String.eqb k' k then Some v else dict_get d' k
  end.

(** [d[k] = v]: an existing key keeps its place. *)
Fixpoint dict_set {V} (d : dict V) (k : string) (v : V) : dict V :=
  match d with
  | [] => [(k, v)]
  | (k', v') :: d' =>
      if String.eqb k' k then (k', v) :: d' else (k', v') :: dict_set d' k v
  end.

Definition dict_has {V} (d : dict V) (k : string) : bool :=
  match dict_get d k with Some _ => true | None => false end.

Fixpoint dict_pop {V} (d : dict V) (k : string) : dict V :=
  match d with
  | [] => []
  | (k', v) :: d' => if String.eqb k' k then d' else (k', v) :: dict_pop d' k
  end.

End py.

(** ** Exceptions, the file system and standard output *)

Module os.
Import py.

Inductive exn : Type :=
  | FileNotFoundError (path : string)
  | re_error                      (* [re.error], [IndexError] of a template *)
  | DuplicateSectionError (section : string)
  | DuplicateOptionError (section option : string)
  | MissingSectionHeaderError
  | ParsingError
  | InterpolationError.

(** Outcome of a call that may raise. *)
Inductive res (A : Type) : Type :=
  | Ok (a : A)
  | Raise (e : exn).
Arguments Ok {A} a.
Arguments Raise {A} e.

Record world : Type := World {
  files : gmap string string;     (* regular files: path to content *)
  stdout : list string            (* one entry for each [print] *)
}.

(** A script action: runs in a world, ends in a world, returns or raises. *)
Definition M (A : Type) : Type := world → res A * world.

Definition ret {A} (a : A) : M A := λ w, (Ok a, w).

Definition bind {A B} (m : M A) (k : A → M B) : M B :=
  λ w, match m w with
       | (Ok a, w') => k a w'
       | (Raise e, w') => (Raise e, w')
       end.

Definition raise {A} (e : exn) : M A := λ w, (Raise e, w).

Definition lift {A} (r : res A) : M A := λ w, (r, w).

Notation "'let*' x ':=' m 'in' k" := (bind m (λ x, k))
  (at level 10, x pattern, m at level 100, k at level 200).

(** [for x in l: s = body(s, x)] *)
Fixpoint for_each {A S} (l : list A) (body : S → A → M S) (s : S) : M S :=
  match l with
  | [] => ret s
  | x :: l' => let* s' := body s x in for_each l' body s'
  end.

(** Text mode reads with universal newlines: CR LF and CR become LF. *)
Fixpoint universal_newlines (after_cr : bool) (s : string) : string :=
  match s with
  | EmptyString => EmptyString
  | String c s' =>
      if after_cr && Ascii.eqb c LF then universal_newlines false s'
      else if Ascii.eqb c CR then String LF (universal_newlines true s')
      else String c (universal_newlines false s')
  end.

(** [path.exists()] *)
Definition exists_ (path : string) : M bool :=
  λ w, (Ok (bool_decide (is_Some (files w !! path))), w).

(** [path.read_text()] *)
Definition read_text (path : string) : M string :=
  λ w, match files w !! path with
       | Some t => (Ok (universal_newlines false t), w)
       | None => (Raise (FileNotFoundError path), w)
       end.

(** [path.write_text(text)]; the line separator of the platform is LF. *)
Definition write_text (path text : string) : M unit :=
  λ w, (Ok (), {| files := <[path := text]> (files w); stdout := stdout w |}).

(** [print(s)] *)
Definition print (s : string) : M unit :=
  λ w, (Ok (), {| files := files w; stdout := stdout w ++ [s] |}).

(** [path.name]: the last component. *)
Fixpoint name (path : string) : string :=
  match path with
  | EmptyString => EmptyString
  | String c p' => if has_char "/"%char p' then name p' else
                   if Ascii.eqb c "/"%char then p' else path
  end.

(** [sorted(dir.glob(prefix + "*"))]: the files of [dir] whose name
    starts with [prefix], in the order of their paths. *)
Definition glob_prefix (dir prefix : string) : M (list string) :=
  λ w, (Ok (sorted id
              (filter (λ p, startswith p (dir +:+ "/" +:+ prefix)
                            && negb (has_char "/"%char
                                       (drop (String.length dir + 1) p)) = true)
                      (map fst (map_to_list (files w))))), w).

(** [Path.home()]: the embedding fixes one home directory. *)
Definition HOME : string := "/home/sky1".

(** [path.relative_to(Path.home())] when [str(path)] starts with the home
    directory, else [path]; the managed paths all lie under it. *)
Definition relative_to_home (path : string) : string :=
  if startswith path HOME then removeprefix path (HOME +:+ "/") else path.

End os.

(** ** Replacement templates of [re.sub] *)

Module re.
Import py os.

(** A parsed template: literal characters, and references to group 0 (the
    whole match); the patterns of the scripts have no other group. *)
Inductive piece : Type :=
  | Lit (c : ascii)
  | Whole.

Definition is_digit (c : ascii) : bool := ((48 <=? code c) && (code c <=? 57))%N.
Definition is_octal (c : ascii) : bool := ((48 <=? code c) && (code c <=? 55))%N.
Definition is_ascii_letter (c : ascii) : bool :=
  ((65 <=? code c) && (code c <=? 90) || (97 <=? code c) && (code c <=? 122))%N.
Definition digit (c : ascii) : N := code c - 48.

Fixpoint all_zero (s : string) : bool :=
  match s with
  | EmptyString => true
  | String c s' => Ascii.eqb c "0"%char && all_zero s'
  end.

(** The escapes of a template that stand for one character. *)
Definition escape (c : ascii) : option ascii :=
  if Ascii.eqb c "a"%char then Some "007"%char
  else if Ascii.eqb c "b"%char then Some "008"%char
  else if Ascii.eqb c "f"%char then Some "012"%char
  else if Ascii.eqb c "n"%char then Some "010"%char
  else if Ascii.eqb c "r"%char then Some "013"%char
  else if Ascii.eqb c "t"%char then Some "009"%char
  else if Ascii.eqb c "v"%char then Some "011"%char
  else if Ascii.eqb c "\"%char then Some "\"%char
  else None.

(** [re._parser.parse_template] for a pattern without groups; [None] is
    the exception it raises.  [fuel] bounds the number of tokens. *)
Fixpoint parse_template_from (fuel : nat) (s : string) : option (list piece) :=
  match fuel with
  | O => None
  | S f =>
    match s with
    | EmptyString => Some []
    | String c s1 =>
      if negb (Ascii.eqb c "\"%char) then cons (Lit c) <$> parse_template_from f s1
      else
        match s1 with
        | EmptyString => None                       (* bad escape (end of pattern) *)
        | String d s2 =>
          if Ascii.eqb d "g"%char then
            match s2 with
            | String lt s3 =>
                if Ascii.eqb lt "<"%char then
                  match partition ">"%char s3 with
                  | Some (nm, rest) =>
                      if negb (is_empty nm) && all_zero nm
                      then cons Whole <$> parse_template_from f rest
                      else None                     (* no such group *)
                  | None => None                    (* missing > *)
                  end
                else None                           (* missing < *)
            | EmptyString => None
            end
          else if Ascii.eqb d "0"%char then
            match s2 with
            | String e s3 =>
                if is_octal e then
                  match s3 with
                  | String g s4 =>
                      if is_octal g
                      then cons (Lit (ascii_of_N (N.land (8 * digit e + digit g) 255)))
                             <$> parse_template_from f s4
                      else cons (Lit (ascii_of_N (digit e))) <$> parse_template_from f s3
                  | EmptyString => Some [Lit (ascii_of_N (digit e))]
                  end
                else cons (Lit (ascii_of_N 0)) <$> parse_template_from f s2
            | EmptyString => Some [Lit (ascii_of_N 0)]
            end
          else if is_digit d then
            match s2 with
            | String e (String g s4) =>
                if is_octal d && is_octal e && is_octal g then
                  let v := (64 * digit d + 8 * digit e + digit g)%N in
                  if (255 <? v)%N then None         (* octal escape out of range *)
                  else cons (Lit (ascii_of_N v)) <$> parse_template_from f s4
                else None                           (* invalid group reference *)
            | _ => None                             (* invalid group reference *)
            end
          else
            match escape d with
            | Some ch => cons (Lit ch) <$> parse_template_from f s2
            | None =>
                if is_ascii_letter d then None      (* bad escape *)
                else (λ t, Lit c :: Lit d :: t) <$> parse_template_from f s2
            end
        end
    end
  end.

Definition parse_template (repl : string) : res (list piece) :=
  match parse_template_from (S (String.length repl)) repl with
  | Some t => Ok t
  | None => Raise re_error
  end.

(** The text a template stands for at a match. *)
Fixpoint expand (t : list piece) (whole : string) : string :=
  match t with
  | [] => EmptyString
  | Lit c :: t' => String c (expand t' whole)
  | Whole :: t' => whole +:+ expand t' whole
  end.

(** [pattern.search(text)] for a pattern [^...$] compiled with
    [re.MULTILINE] that cannot match a line feed: it matches whole lines,
    those that [is_match] accepts. *)
Definition search (is_match : string → bool) (text : string) : bool :=
  existsb is_match (split_nl text).

(** [pattern.sub(repl, text)] for such a pattern. *)
Definition sub (is_match : string → bool) (repl text : string) : res string :=
  match parse_template repl with
  | Ok t => Ok (join nl (map (λ l, if is_match l then expand t l else l)
                            (split_nl text)))
  | Raise e => Raise e
  end.

End re.

(** ** [scripts/manage-config.py] *)

Module manage_config.
Import py os.

Definition LINUX_SKY1 : string := HOME +:+ "/sky1-linux-distro/linux-sky1".
Definition CONFIG_DIR : string := LINUX_SKY1 +:+ "/config".
Definition POLICY_FILE : string := CONFIG_DIR +:+ "/config-policy.ini".
Definition README_FILE : string := CONFIG_DIR +:+ "/README.md".
Definition MAINLINE : string := HOME +:+ "/mainline-linux".

Definition TRACK_CONFIGS : list string :=
  [ CONFIG_DIR +:+ "/config.sky1";
    CONFIG_DIR +:+ "/config.sky1-latest";
    CONFIG_DIR +:+ "/config.sky1-rc";
    CONFIG_DIR +:+ "/config.sky1-next" ].

Definition normalize_option (name : string) : string :=
  removeprefix name "CONFIG_".

Definition find_dev_configs : M (list string) :=
  glob_prefix MAINLINE "config.sky1".

(** *** Config file operations *)

Definition enabled_prefix (key : string) : string := key +:+ "=".
Definition disabled_line (key : string) : string := "# " +:+ key +:+ " is not set".

Fixpoint config_value_in (key : string) (lines : list string) : option string :=
  match lines with
  | [] => None
  | line :: ls =>
      if startswith line (enabled_prefix key) then Some (after "="%char line)
      else if String.eqb line (disabled_line key) then Some "n"
      else config_value_in key ls
  end.

Definition get_config_value (path opt : string) : M (option string) :=
  let* text := read_text path in
  ret (config_value_in ("CONFIG_" +:+ opt) (splitlines text)).

(** The two patterns of [set_config_line], as tests on a line.  The key
    is escaped in the source, so it is matched literally; an option is
    taken to hold no line feed, as the patterns then match inside one
    line. *)
Definition pattern_enabled (key line : string) : bool :=
  startswith line (enabled_prefix key).
Definition pattern_disabled (key line : string) : bool :=
  String.eqb line (disabled_line key).

Definition set_config_line (text option value : string) : res (string * bool) :=
  let key := "CONFIG_" +:+ option in
  let new_line :=
    if String.eqb value "n" then disabled_line key else key +:+ "=" +:+ value in
  if re.search (pattern_enabled key) text then
    match re.sub (pattern_enabled key) new_line text with
    | Ok new_text => Ok (new_text, negb (String.eqb new_text text))
    | Raise e => Raise e
    end
  else if re.search (pattern_disabled key) text then
    match re.sub (pattern_disabled key) new_line text with
    | Ok new_text => Ok (new_text, negb (String.eqb new_text text))
    | Raise e => Raise e
    end
  else Ok (text, false).

(** *** Policy file operations *)

(** [s[1:-1]] *)
Fixpoint drop_last (s : string) : string :=
  match s with
  | EmptyString => EmptyString
  | String c s' => if is_empty s' then EmptyString else String c (drop_last s')
  end.
Definition inner (s : string) : string := drop_last (drop 1 s).

Fixpoint policy_lookup (bare : string) (section : option string)
    (lines : list string) : option (string * string) :=
  match lines with
  | [] => None
  | line :: ls =>
      let line_stripped := strip line in
      if startswith line_stripped "[" && endswith line_stripped "]" then
        policy_lookup bare (Some (inner line_stripped)) ls
      else if has_char "="%char line_stripped
              && negb (startswith line_stripped "#") then
        if String.eqb (upper (strip (before "="%char line_stripped))) bare then
          Some (match section with
                | Some s => if is_empty s then "unknown" else s
                | None => "unknown"
                end,
                strip (after "="%char line_stripped))
        else policy_lookup bare section ls
      else policy_lookup bare section ls
  end.

Definition get_policy_entry (opt : string) : M (option (string * string)) :=
  let* present := exists_ POLICY_FILE in
  if negb present then ret None
  else
    let* text := read_text POLICY_FILE in
    ret (policy_lookup (upper opt) None (splitlines text)).

(** The test of the policy editors for "this line is the entry of [bare]". *)
Definition is_entry_of (bare line : string) : bool :=
  let stripped := strip line in
  has_char "="%char stripped
  && negb (startswith stripped "#")
  && negb (startswith stripped "[")
  && String.eqb (upper (strip (before "="%char stripped))) bare.

(** [for i, line in enumerate(lines)]: the index of the first line that
    passes [test], counting from [i]. *)
Fixpoint first_index (test : string → bool) (i : nat) (lines : list string)
    : option nat :=
  match lines with
  | [] => None
  | line :: ls => if test line then Some i else first_index test (S i) ls
  end.

(** Index of the first entry of [bare]. *)
Definition find_entry (bare : string) (lines : list string) : option nat :=
  first_index (is_entry_of bare) 0 lines.

(** The second loop of [set_policy_entry]: where to insert in the section. *)
Fixpoint find_insert (section_header : string) (in_section : bool)
    (insert_at : option nat) (i : nat) (lines : list string) : option nat :=
  match lines with
  | [] => insert_at
  | line :: ls =>
      let stripped := strip line in
      if String.eqb stripped section_header then
        find_insert section_header true insert_at (S i) ls
      else if in_section then
        if startswith stripped "[" then Some i
        else if is_empty stripped then Some i
        else find_insert section_header true (Some (S i)) (S i) ls
      else find_insert section_header false insert_at (S i) ls
  end.

(** [lines.insert(i, x)] *)
Definition list_insert_at {A} (i : nat) (x : A) (l : list A) : list A :=
  take i l ++ x :: List.skipn i l.

Definition set_policy_entry (text option value section : string) : string * bool :=
  let bare := upper option in
  let new_entry := bare +:+ "=" +:+ value in
  let lines := splitlines text in
  match find_entry bare lines with
  | Some i =>
      if String.eqb (strip (default EmptyString (lines !! i))) new_entry
      then (text, false)
      else (unlines (<[i := new_entry]> lines), true)
  | None =>
      let section_header := "[" +:+ section +:+ "]" in
      match find_insert section_header false None 0 lines with
      | Some insert_at => (unlines (list_insert_at insert_at new_entry lines), true)
      | None => (unlines (lines ++ [nl +:+ section_header; new_entry]), true)
      end
  end.

Definition remove_policy_entry (text option : string) : string * bool :=
  let bare := upper option in
  let lines := splitlines text in
  (unlines (filter (λ line, is_entry_of bare line = false) lines),
   existsb (is_entry_of bare) lines).

(** *** README operations *)

Definition backticked (option : string) : string := "`" +:+ option +:+ "`".

(** The test of the README functions for "this line is a row of the option". *)
Definition is_row_of (key line : string) : bool :=
  contains key line && startswith line "|".

Fixpoint first_row (key : string) (lines : list string) : option string :=
  match lines with
  | [] => None
  | line :: ls => if is_row_of key line then Some (strip line) else first_row key ls
  end.

Definition get_readme_entry (opt : string) : M (option string) :=
  let* present := exists_ README_FILE in
  if negb present then ret None
  else
    let* text := read_text README_FILE in
    ret (first_row (backticked opt) (splitlines text)).

(** Index of the first row of the option. *)
Definition find_row (key : string) (lines : list string) : option nat :=
  first_index (is_row_of key) 0 lines.

(** The second loop of [add_readme_entry]: the end of the table that
    follows the heading. *)
Fixpoint find_row_slot (heading_pattern : string) (in_section in_table : bool)
    (insert_at : option nat) (i : nat) (lines : list string) : option nat :=
  match lines with
  | [] => insert_at
  | line :: ls =>
      if String.eqb (strip line) heading_pattern then
        find_row_slot heading_pattern true in_table insert_at (S i) ls
      else if in_section then
        if startswith line "|---" || startswith line "| ---" then
          find_row_slot heading_pattern true true insert_at (S i) ls
        else if in_table then
          if startswith line "|" then
            find_row_slot heading_pattern true true (Some (S i)) (S i) ls
          else Some i
        else find_row_slot heading_pattern true false insert_at (S i) ls
      else find_row_slot heading_pattern false in_table insert_at (S i) ls
  end.

Definition insert_row (text heading new_row : string) : string * bool :=
  let lines := splitlines text in
  match find_row_slot ("## " +:+ heading) false false None 0 lines with
  | Some insert_at => (unlines (list_insert_at insert_at new_row lines), true)
  | None => (text, false)
  end.

Definition add_readme_entry (text option heading opt_type desc : string)
    : string * bool :=
  let key := backticked option in
  let new_row := "| `" +:+ option +:+ "` | " +:+ opt_type +:+ " | " +:+ desc +:+ " |" in
  if contains key text then
    let lines := splitlines text in
    match find_row key lines with
    | Some i =>
        if String.eqb (strip (default EmptyString (lines !! i))) new_row
        then (text, false)
        else (unlines (<[i := new_row]> lines), true)
    | None => insert_row text heading new_row
    end
  else insert_row text heading new_row.

Definition remove_readme_entry (text option : string) : string * bool :=
  let key := backticked option in
  let lines := splitlines text in
  (unlines (filter (λ line, is_row_of key line = false) lines),
   existsb (is_row_of key) lines).

(** *** Commands *)

(** A pending write: path, description, full replacement text. *)
Definition change : Type := string * string * string.

Definition display (key : string) (val : option string) : string :=
  match val with
  | Some v =>
      if negb (is_empty v) && negb (String.eqb v "n") then key +:+ "=" +:+ v
      else if String.eqb v "n" then disabled_line key
      else "(not found)"
  | None => "(not found)"
  end.

Definition cmd_show (option : string) : M nat :=
  let option := normalize_option option in
  let key := "CONFIG_" +:+ option in
  let* _ := print ("=== " +:+ key +:+ " ===" +:+ nl) in
  let* _ := for_each TRACK_CONFIGS (λ _ path,
      let* present := exists_ path in
      if present then
        let* val := get_config_value path option in
        print ("  " +:+ ljust 25 (name path) +:+ " " +:+ display key val)
      else ret ()) () in
  let* devs := find_dev_configs in
  let* _ := for_each devs (λ _ path,
      let* val := get_config_value path option in
      print ("  (dev) " +:+ ljust 20 (name path) +:+ " " +:+ display key val)) () in
  let* entry := get_policy_entry option in
  let* _ := match entry with
            | Some (sec, val) =>
                print ("  " +:+ ljust 25 "policy" +:+ " [" +:+ sec +:+ "] "
                       +:+ option +:+ "=" +:+ val)
            | None => print ("  " +:+ ljust 25 "policy" +:+ " (not in policy)")
            end in
  let* row := get_readme_entry option in
  let* _ := match row with
            | Some r => if is_empty r
                        then print ("  " +:+ ljust 25 "README" +:+ " (not documented)")
                        else print ("  " +:+ ljust 25 "README" +:+ " " +:+ r)
            | None => print ("  " +:+ ljust 25 "README" +:+ " (not documented)")
            end in
  let* _ := print EmptyString in
  ret 0.

(** The report and, under [apply], the writes that end [cmd_set] and
    [cmd_remove] once the list of changes is not empty. *)
Definition report_and_apply (changes : list change) (apply : bool) : M nat :=
  let* _ := print ((if apply then "Will apply" else "Dry run") +:+ ": "
                   +:+ str_nat (length changes) +:+ " file(s) to update" +:+ nl) in
  let* _ := for_each changes (λ _ '(path, desc, _),
      print ("  ~/" +:+ relative_to_home path +:+ ": " +:+ desc)) () in
  let* _ :=
    if apply then
      let* _ := print EmptyString in
      let* _ := for_each changes (λ _ '(path, _, new_text),
          let* _ := write_text path new_text in
          print ("  wrote " +:+ name path)) () in
      print (nl +:+ "Done. " +:+ str_nat (length changes) +:+ " file(s) updated.")
    else print (nl +:+ "Pass --apply to write changes.") in
  ret 0.

(** A Python argument that may be [None]; [if arg:] also rejects the
    empty string. *)
Definition truthy (arg : option string) : option string :=
  match arg with
  | Some s => if is_empty s then None else Some s
  | None => None
  end.

(** The four parts of [cmd_set] that plan the changes: the track configs,
    the dev copies, the policy and the README. *)
Definition plan_track (option value : string) (changes : list change)
    (path : string) : M (list change) :=
  let key := "CONFIG_" +:+ option in
  let* present := exists_ path in
  if negb present then ret changes
  else
    let* text := read_text path in
    let* (new_text, changed) := lift (set_config_line text option value) in
    if changed then ret (changes ++ [(path, "set " +:+ key +:+ "=" +:+ value, new_text)])
    else
      let* old_val := get_config_value path option in
      match old_val with
      | None =>
          let* _ := print ("  warn: " +:+ key +:+ " not found in " +:+ name path
                           +:+ " (may not exist in this kernel version)") in
          ret changes
      | Some _ => ret changes
      end.

Definition plan_dev (option value : string) (changes : list change)
    (path : string) : M (list change) :=
  let key := "CONFIG_" +:+ option in
  let* text := read_text path in
  let* (new_text, changed) := lift (set_config_line text option value) in
  if changed then ret (changes ++ [(path, "set " +:+ key +:+ "=" +:+ value, new_text)])
  else ret changes.

Definition plan_policy (opt value : string) (policy_section : option string)
    (changes : list change) : M (list change) :=
  match truthy policy_section with
  | Some section =>
      let* text := read_text POLICY_FILE in
      let '(new_text, changed) := set_policy_entry text opt value section in
      if changed
      then ret (changes ++ [(POLICY_FILE, "add " +:+ opt +:+ "=" +:+ value
                               +:+ " to [" +:+ section +:+ "]", new_text)])
      else ret changes
  | None => ret changes
  end.

Definition plan_readme (opt : string) (doc_heading doc_type doc_desc : option string)
    (changes : list change) : M (list change) :=
  match truthy doc_heading, truthy doc_type, truthy doc_desc with
  | Some heading, Some type, Some desc =>
      let* text := read_text README_FILE in
      let '(new_text, changed) := add_readme_entry text opt heading type desc in
      if changed
      then ret (changes ++ [(README_FILE, "add to '" +:+ heading +:+ "' table",
                             new_text)])
      else ret changes
  | _, _, _ => ret changes
  end.

Definition cmd_set (opt value : string)
    (policy_section doc_heading doc_type doc_desc : option string)
    (apply : bool) : M nat :=
  let option := normalize_option opt in
  let key := "CONFIG_" +:+ option in
  let* changes := for_each TRACK_CONFIGS (plan_track option value) [] in
  let* devs := find_dev_configs in
  let* changes := for_each devs (plan_dev option value) changes in
  let* changes := plan_policy option value policy_section changes in
  let* changes := plan_readme option doc_heading doc_type doc_desc changes in
  (* Report *)
  match changes with
  | [] =>
      let* _ := print ("No changes needed — " +:+ key +:+ "=" +:+ value
                       +:+ " already set everywhere.") in
      ret 0
  | _ => report_and_apply changes apply
  end.

Definition cmd_remove (option : string) (policy doc apply : bool) : M nat :=
  let option := normalize_option option in
  let changes : list change := [] in
  let* policy_present := exists_ POLICY_FILE in
  let* changes :=
    if policy && policy_present then
      let* text := read_text POLICY_FILE in
      let '(new_text, changed) := remove_policy_entry text option in
      if changed
      then ret (changes ++ [(POLICY_FILE, "remove " +:+ option +:+ " from policy",
                             new_text)])
      else ret changes
    else ret changes in
  let* readme_present := exists_ README_FILE in
  let* changes :=
    if doc && readme_present then
      let* text := read_text README_FILE in
      let '(new_text, changed) := remove_readme_entry text option in
      if changed
      then ret (changes ++ [(README_FILE, "remove " +:+ option +:+ " from README",
                             new_text)])
      else ret changes
    else ret changes in
  match changes with
  | [] =>
      let* _ := print ("Nothing to remove for " +:+ option +:+ ".") in
      ret 0
  | _ => report_and_apply changes apply
  end.

End manage_config.

(** ** Python's [configparser], as [reconcile-configs.py] uses it

    [ConfigParser()] with its defaults: delimiters [=] and [:], comment
    prefixes [#] and [;] for whole lines, strict (a section or an option
    given twice is an error), values that continue on more indented lines
    and may hold empty lines, option names in lower case, the section
    [DEFAULT] lending its options to every section, and basic
    interpolation of [%(name)s]. *)

Module configparser.
Import py os.

(** While reading, the value of an option is the list of its lines. *)
Record reader : Type := Reader {
  sections : dict (dict (list string));   (* without [DEFAULT] *)
  defaults : dict (list string);
  cursect : option string;                (* [Some "DEFAULT"] is [defaults] *)
  optname : option string;
  indent_level : nat;
  errors : bool                           (* a line that could not be parsed *)
}.

Definition start : reader := Reader [] [] None None 0 false.

Definition DEFAULT : string := "DEFAULT".

Definition section_of (r : reader) (sect : string) : dict (list string) :=
  if String.eqb sect DEFAULT then defaults r
  else default [] (dict_get (sections r) sect).

Definition with_section (r : reader) (sect : string) (d : dict (list string))
    (name : option string) (err : bool) : reader :=
  if String.eqb sect DEFAULT
  then Reader (sections r) d (cursect r) name (indent_level r) err
  else Reader (dict_set (sections r) sect d) (defaults r) (cursect r) name
         (indent_level r) err.

(** [cursect[optname].append(v)] when an option is open. *)
Definition append_value (r : reader) (v : string) : reader :=
  match cursect r, optname r with
  | Some sect, Some name =>
      if is_empty name then r
      else
        let d := section_of r sect in
        with_section r sect (dict_set d name (default [] (dict_get d name) ++ [v]))
          (optname r) (errors r)
  | _, _ => r
  end.

Definition continues (r : reader) (cur_indent : nat) : bool :=
  match cursect r, optname r with
  | Some _, Some name => negb (is_empty name) && (indent_level r <? cur_indent)%nat
  | _, _ => false
  end.

(** Index of the first character that is not white space; 0 without one. *)
Fixpoint first_nonspace (s : string) : nat :=
  match s with
  | EmptyString => 0
  | String c s' =>
      if is_space c then (if is_empty (lstrip s') then 0 else S (first_nonspace s'))
      else 0
  end.

(** The text before the last [c]. *)
Fixpoint before_last (c : ascii) (s : string) : option string :=
  match s with
  | EmptyString => None
  | String a s' =>
      match before_last c s' with
      | Some h => Some (String a h)
      | None => if Ascii.eqb a c then Some EmptyString else None
      end
  end.

(** The name in a section header, a line that starts with a bracket
    and holds a closing bracket after at least one character. *)
Definition section_header (value : string) : option string :=
  if startswith value "[" then
    match before_last "]"%char (drop 1 value) with
    | Some h => if is_empty h then None else Some h
    | None => None
    end
  else None.

Fixpoint partition_by (p : ascii → bool) (s : string) : option (string * string) :=
  match s with
  | EmptyString => None
  | String a s' =>
      if p a then Some (EmptyString, s')
      else match partition_by p s' with
           | Some (h, t) => Some (String a h, t)
           | None => None
           end
  end.

Definition is_delimiter (c : ascii) : bool :=
  Ascii.eqb c "="%char || Ascii.eqb c ":"%char.

(** An option line: the name before the first delimiter, the value after. *)
Definition option_line (value : string) : option (string * string) :=
  match partition_by is_delimiter value with
  | Some (h, t) => Some (rstrip h, strip t)
  | None => None
  end.

Definition with_indent (r : reader) (n : nat) : reader :=
  Reader (sections r) (defaults r) (cursect r) (optname r) n (errors r).

Definition read_line (r : reader) (line : string) : res reader :=
  let value := strip line in
  if startswith value "#" || startswith value ";" then Ok r
  else if is_empty value then Ok (append_value r EmptyString)
  else
    let cur_indent := first_nonspace line in
    if continues r cur_indent then Ok (append_value r value)
    else
      let r := with_indent r cur_indent in
      match section_header value with
      | Some sectname =>
          if dict_has (sections r) sectname then Raise (DuplicateSectionError sectname)
          else if String.eqb sectname DEFAULT then
            Ok (Reader (sections r) (defaults r) (Some DEFAULT) None
                  (indent_level r) (errors r))
          else
            Ok (Reader (dict_set (sections r) sectname []) (defaults r)
                  (Some sectname) None (indent_level r) (errors r))
      | None =>
          match cursect r with
          | None => Raise MissingSectionHeaderError
          | Some sect =>
              match option_line value with
              | None =>
                  Ok (Reader (sections r) (defaults r) (cursect r) (optname r)
                        (indent_level r) true)
              | Some (raw_name, optval) =>
                  let name := lower (rstrip raw_name) in
                  let d := section_of r sect in
                  if dict_has d name then Raise (DuplicateOptionError sect name)
                  else
                    Ok (with_section r sect (dict_set d name [optval]) (Some name)
                          (errors r || is_empty raw_name))
              end
          end
      end.

Fixpoint read_lines (r : reader) (lines : list string) : res reader :=
  match lines with
  | [] => Ok r
  | line :: ls =>
      match read_line r line with
      | Ok r' => read_lines r' ls
      | Raise e => Raise e
      end
  end.

(** A parsed file: the sections in the order of the file, and [DEFAULT]. *)
Record parser : Type := Parser {
  parsed_sections : dict (dict string);
  parsed_defaults : dict string
}.

Definition join_value (ls : list string) : string := rstrip (join nl ls).

Definition join_values (d : dict (list string)) : dict string :=
  map (λ '(k, v), (k, join_value v)) d.

(** [cp.read(path)] on the text of the file. *)
Definition read (text : string) : res parser :=
  match read_lines start (drop_last_empty (split_nl text)) with
  | Ok r =>
      if errors r then Raise ParsingError
      else Ok (Parser (map (λ '(s, d), (s, join_values d)) (sections r))
                 (join_values (defaults r)))
  | Raise e => Raise e
  end.

(** *** Basic interpolation *)

Inductive token : Type :=
  | TLit (c : ascii)
  | TRef (name : string).

(** A value cut into characters and references; [%%] is a percent sign.
    [None] is a syntax error.  [fuel] bounds the number of tokens. *)
Fixpoint tokens_from (fuel : nat) (s : string) : option (list token) :=
  match fuel with
  | O => None
  | S f =>
      match s with
      | EmptyString => Some []
      | String c s1 =>
          if negb (Ascii.eqb c "%"%char) then cons (TLit c) <$> tokens_from f s1
          else
            match s1 with
            | String d s2 =>
                if Ascii.eqb d "%"%char then cons (TLit d) <$> tokens_from f s2
                else if Ascii.eqb d "("%char then
                  match partition ")"%char s2 with
                  | Some (nm, String e rest) =>
                      if negb (is_empty nm) && Ascii.eqb e "s"%char
                      then cons (TRef nm) <$> tokens_from f rest
                      else None
                  | _ => None
                  end
                else None
            | EmptyString => None
            end
      end
  end.

Definition tokens (s : string) : option (list token) :=
  tokens_from (S (String.length s)) s.

Definition MAX_INTERPOLATION_DEPTH : nat := 10.

Section Interpolate.
Variable d : dict string.

Fixpoint interpolate_some (depth : nat) (rest : string) : res string :=
  match depth with
  | O => Raise InterpolationError
  | S depth' =>
      match tokens rest with
      | None => Raise InterpolationError
      | Some ts =>
          foldr (λ t acc,
                   match acc with
                   | Raise e => Raise e
                   | Ok tail =>
                       match t with
                       | TLit c => Ok (String c tail)
                       | TRef nm =>
                           match dict_get d (lower nm) with
                           | None => Raise InterpolationError
                           | Some v =>
                               if has_char "%"%char v then
                                 match interpolate_some depth' v with
                                 | Ok v' => Ok (v' +:+ tail)
                                 | Raise e => Raise e
                                 end
                               else Ok (v +:+ tail)
                           end
                       end
                   end) (Ok EmptyString) ts
      end
  end.
End Interpolate.

Fixpoint all_ok {A} (l : list (res A)) : res (list A) :=
  match l with
  | [] => Ok []
  | Ok a :: l' => match all_ok l' with Ok t => Ok (a :: t) | Raise e => Raise e end
  | Raise e :: _ => Raise e
  end.

(** [cp.items(section)]: the options of [DEFAULT], then those of the
    section, the section's value winning; every value interpolated. *)
Definition items (cp : parser) (section : string) : res (list (string * string)) :=
  let d := foldl (λ d '(k, v), dict_set d k v) (parsed_defaults cp)
             (default [] (dict_get (parsed_sections cp) section)) in
  all_ok (map (λ '(k, v),
                 match interpolate_some d MAX_INTERPOLATION_DEPTH v with
                 | Ok v' => Ok (k, v')
                 | Raise e => Raise e
                 end) d).

(** [cp.sections()] *)
Definition section_names (cp : parser) : list string := map fst (parsed_sections cp).

End configparser.

(** ** [scripts/reconcile-configs.py] *)

Module reconcile_configs.
Import py os.

Definition LINUX_SKY1 : string := HOME +:+ "/sky1-linux-distro/linux-sky1".
Definition CONFIG_DIR : string := LINUX_SKY1 +:+ "/config".
Definition POLICY_FILE : string := CONFIG_DIR +:+ "/config-policy.ini".

Definition TRACKS : dict string :=
  [ ("LTS", "config.sky1");
    ("Latest", "config.sky1-latest");
    ("RC", "config.sky1-rc");
    ("Next", "config.sky1-next") ].

(** [TRACKS[label]] *)
Definition track_file (label : string) : string :=
  default EmptyString (dict_get TRACKS label).

(** Each pattern of the source is [^] and a literal text, matched at the
    start of a line; the list holds the literal texts. *)
Definition IGNORE_PATTERNS : list string :=
  [ "CONFIG_CC_VERSION_TEXT=";
    "CONFIG_GCC_VERSION=";
    "CONFIG_LD_VERSION=";
    "CONFIG_CLANG_VERSION=";
    "CONFIG_AS_VERSION=";
    "CONFIG_PAHOLE_VERSION=";
    "CONFIG_RUSTC_VERSION=";
    "CONFIG_BINDGEN_VERSION=";
    "CONFIG_KERNEL_VERSION_GENERATION=" ].

Definition SUBSYSTEM_PREFIXES : list (string * string) :=
  [ ("DRM_", "Display/GPU");
    ("SND_", "Audio");
    ("NET_", "Network");
    ("NFT_", "Network/Netfilter");
    ("NF_", "Network/Netfilter");
    ("CRYPTO_", "Crypto");
    ("SECURITY_", "Security");
    ("USB_", "USB");
    ("PHY_", "PHY");
    ("PCI_", "PCI");
    ("ARM64_", "ARM64");
    ("ARCH_", "Architecture");
    ("CIX_", "Sky1");
    ("SKY1_", "Sky1");
    ("LINLON", "Sky1");
    ("TRILIN", "Sky1");
    ("PANTHOR", "Sky1");
    ("ARMCHINA", "Sky1");
    ("CDNSP_SKY1", "Sky1") ].

Fixpoint parse_config_lines (opts : dict string) (lines : list string) : dict string :=
  match lines with
  | [] => opts
  | line :: ls =>
      if startswith line "CONFIG_" then
        parse_config_lines
          (dict_set opts (before "="%char line) (after "="%char line)) ls
      else if startswith line "# CONFIG_" && endswith line " is not set" then
        parse_config_lines
          (dict_set opts (default EmptyString (split_ws line !! 1)) "n") ls
      else parse_config_lines opts ls
  end.

Definition parse_config (path : string) : M (dict string) :=
  let* text := read_text path in
  ret (parse_config_lines [] (splitlines text)).

(** The two loops of [parse_policy] over a parsed file. *)
Definition policy_of (cp : configparser.parser) : res (dict string) :=
  foldl (λ acc section,
           match acc with
           | Raise e => Raise e
           | Ok policy =>
               match configparser.items cp section with
               | Ok kvs =>
                   Ok (foldl (λ policy '(key, val),
                                dict_set policy ("CONFIG_" +:+ upper key) val)
                         policy kvs)
               | Raise e => Raise e
               end
           end)
        (Ok []) (configparser.section_names cp).

Definition parse_policy : M (dict string) :=
  let* present := exists_ POLICY_FILE in
  if negb present then
    let* _ := print ("Warning: policy file not found: " +:+ POLICY_FILE) in
    ret []
  else
    let* text := read_text POLICY_FILE in
    let* cp := lift (configparser.read text) in
    lift (policy_of cp).

Definition is_ignored (line : string) : bool :=
  existsb (startswith line) IGNORE_PATTERNS.

Fixpoint first_category (name : string) (table : list (string * string)) : string :=
  match table with
  | [] => "Other"
  | (prefix, category) :: table' =>
      if startswith name prefix then category else first_category name table'
  end.

Definition categorize_option (opt : string) : string :=
  first_category (removeprefix opt "CONFIG_") SUBSYSTEM_PREFIXES.

Definition sky1_markers : list string :=
  [ "CIX"; "SKY1"; "LINLON"; "TRILIN"; "PANTHOR"; "ARMCHINA"; "CDNSP_SKY1" ].

Definition is_sky1_option (opt : string) : bool :=
  let name := removeprefix opt "CONFIG_" in
  existsb (λ m, contains m name) sky1_markers.

(** [sum(1 for v in cfg.values() if v != "n")] *)
Definition enabled_count (cfg : dict string) : nat :=
  length (filter (λ kv, String.eqb kv.2 "n" = false) cfg).

(** The violations of one policy entry, track by track. *)
Definition violations_of (configs : dict (dict string)) (entry : string * string)
    : list string :=
  let '(opt, required_val) := entry in
  flat_map (λ '(label, cfg),
      match dict_get cfg opt with
      | None =>
          [ "  " +:+ ljust 25 (track_file label) +:+ " " +:+ opt
            +:+ "  MISSING  (policy: " +:+ required_val +:+ ")" ]
      | Some actual =>
          if negb (String.eqb actual required_val) then
            [ "  " +:+ ljust 25 (track_file label) +:+ " " +:+ opt +:+ "=" +:+ actual
              +:+ "  (policy: " +:+ required_val +:+ ")" ]
          else []
      end) configs.

(** The body of the fix loops, for one policy entry and one track. *)
Definition fix_violation (opt required_val label : string) (cfg : dict string)
    (fixed : nat) : M nat :=
  match dict_get cfg opt with
  | Some actual =>
      if negb (String.eqb actual required_val) then
        let path := CONFIG_DIR +:+ "/" +:+ track_file label in
        let* text := read_text path in
        let old := opt +:+ "=" +:+ actual in
        let new := opt +:+ "=" +:+ required_val in
        if contains old text then
          let* _ := write_text path (replace old new text) in
          let* _ := print ("  Fixed: " +:+ track_file label +:+ ": " +:+ old
                           +:+ " -> " +:+ new) in
          ret (S fixed)
        else ret fixed
      else ret fixed
  | None => ret fixed
  end.

Definition fix_all (policy : dict string) (configs : dict (dict string)) : M nat :=
  for_each (sorted fst policy) (λ fixed '(opt, required_val),
      for_each configs (λ fixed '(label, cfg),
          fix_violation opt required_val label cfg fixed) fixed) 0.

(** The line of one Sky1 option in the comparison, when it is shown. *)
Definition divergence_line (configs : dict (dict string)) (verbose : bool)
    (opt : string) : list string :=
  let vals := map (λ '(label, cfg), (label, default "-" (dict_get cfg opt))) configs in
  let unique := remove_dups (map snd vals) in
  if (1 <? length unique)%nat || verbose then
    let parts := join "  " (map (λ '(l, v), l +:+ "=" +:+ v) vals) in
    let marker := if (1 <? length unique)%nat then " ***" else EmptyString in
    [ "  " +:+ ljust 45 opt +:+ " " +:+ parts +:+ marker ]
  else [].

(** The loop of [cmd_reconcile] that loads the track configs. *)
Definition load_config (configs : dict (dict string)) (track : string * string)
    : M (dict (dict string)) :=
  let '(label, filename) := track in
  let path := CONFIG_DIR +:+ "/" +:+ filename in
  let* present := exists_ path in
  if present then
    let* cfg := parse_config path in
    let* _ := print ("  " +:+ ljust 8 label +:+ " " +:+ ljust 25 filename +:+ " ("
                     +:+ str_nat (enabled_count cfg) +:+ " enabled options)") in
    ret (dict_set configs label cfg)
  else
    let* _ := print ("  " +:+ ljust 8 label +:+ " " +:+ ljust 25 filename
                     +:+ " (not found, skipping)") in
    ret configs.

Definition load_configs : M (dict (dict string)) := for_each TRACKS load_config [].

(** The policy check of [cmd_reconcile], once the violations are known.
    [fix] is a keyword of Rocq, so the flag is [fix_mode]. *)
Definition check_policy (fix_mode : bool) (policy : dict string)
    (configs : dict (dict string)) (violations : list string) : M unit :=
  match policy with
  | [] => ret ()
  | _ =>
      let* _ := print "--- Policy Check ---" in
      match violations with
      | [] => print ("  All options match policy." +:+ nl)
      | _ =>
          let* _ := for_each violations (λ _ v, print v) () in
          let* _ := print EmptyString in
          if fix_mode then
            let* fixed := fix_all policy configs in
            match fixed with
            | O => ret ()
            | _ => print (nl +:+ "  " +:+ str_nat fixed +:+ " violation(s) fixed." +:+ nl)
            end
          else ret ()
      end
  end.

(** The comparison of the Sky1 options across the tracks, and the summary. *)
Definition compare_tracks (verbose : bool) (configs : dict (dict string))
    (violations : list string) : M unit :=
  let sky1_opts :=
    remove_dups (flat_map (λ '(_, cfg), filter (λ k, is_sky1_option k = true)
                                          (map fst cfg)) configs) in
  let divergent := flat_map (divergence_line configs verbose) (sorted id sky1_opts) in
  let header := if verbose then "Sky1-Specific Options (all)"
                else "Sky1-Specific Divergence" in
  let* _ := print ("--- " +:+ header +:+ " ---") in
  let* _ :=
    match divergent with
    | [] => print "  All Sky1-specific options are consistent across tracks."
    | _ => for_each divergent (λ _ d, print d) ()
    end in
  let* _ := print EmptyString in
  (* Summary *)
  let div_count := length (filter (λ d, contains "***" d = true) divergent) in
  let* _ := print "--- Summary ---" in
  let* _ := print ("  " +:+ str_nat (length violations) +:+ " policy violation(s)") in
  let* _ := print ("  " +:+ str_nat div_count +:+ " divergent Sky1-specific option(s)") in
  print ("  " +:+ str_nat (length sky1_opts) +:+ " total Sky1-specific options checked").

Definition cmd_reconcile (fix_mode verbose : bool) : M nat :=
  let* _ := print ("=== Sky1 Config Reconciliation ===" +:+ nl) in
  let* configs := load_configs in
  if (length configs <? 2)%nat then
    let* _ := print (nl +:+ "Need at least 2 configs to compare.") in
    ret 0
  else
    let* _ := print EmptyString in
    let* policy := parse_policy in
    let violations := flat_map (violations_of configs) (sorted fst policy) in
    let* _ := check_policy fix_mode policy configs violations in
    let* _ := compare_tracks verbose configs violations in
    ret (match violations with
         | [] => 0
         | _ => if negb fix_mode then 1 else 0
         end).

(** *** Review *)

Definition added_options (old new : dict string) : dict string :=
  filter (λ '(k, v), negb (dict_has old k) && negb (is_ignored (k +:+ "=" +:+ v)) = true)
         new.

Definition removed_options (old new : dict string) : dict string :=
  filter (λ '(k, v), negb (dict_has new k) && negb (is_ignored (k +:+ "=" +:+ v)) = true)
         old.

Definition changed_options (old new : dict string) : dict (string * string) :=
  flat_map (λ '(k, v),
      match dict_get new k with
      | Some v' =>
          if negb (String.eqb v v') && negb (is_ignored (k +:+ "=" +:+ v))
          then [(k, (v, v'))] else []
      | None => []
      end) old.

(** [by_category], filled from the added options in the order of their
    names. *)
Definition categorize (added : dict string) : dict (list (string * string)) :=
  foldl (λ by_category '(opt, val),
           let cat := categorize_option opt in
           dict_set by_category cat
             (default [] (dict_get by_category cat) ++ [(opt, val)]))
        [] (sorted fst added).

Definition PRIORITY : list string :=
  [ "Sky1"; "Display/GPU"; "Audio"; "USB"; "PCI"; "PHY"; "Network" ].

Definition print_option (kv : string * string) : M unit :=
  print ("    " +:+ kv.1 +:+ "=" +:+ kv.2).

Definition print_new_options (added : dict string) : M unit :=
  let by_category := categorize added in
  let* _ := print ("--- NEW options (" +:+ str_nat (length added) +:+ ") ---") in
  (* Show Sky1-relevant first *)
  let* by_category := for_each PRIORITY (λ by_category cat,
      match dict_get by_category cat with
      | Some its =>
          let* _ := print (nl +:+ "  [" +:+ cat +:+ "]") in
          let* _ := for_each its (λ _ kv, print_option kv) () in
          ret (dict_pop by_category cat)
      | None => ret by_category
      end) by_category in
  (* Then other categories *)
  let* _ := for_each (sorted fst by_category) (λ _ '(cat, its),
      if (length its <=? 10)%nat then
        let* _ := print (nl +:+ "  [" +:+ cat +:+ "]") in
        for_each its (λ _ kv, print_option kv) ()
      else
        let* _ := print (nl +:+ "  [" +:+ cat +:+ "] (" +:+ str_nat (length its)
                         +:+ " options, showing first 5)") in
        let* _ := for_each (take 5 its) (λ _ kv, print_option kv) () in
        print ("    ... (" +:+ str_nat (length its - 5) +:+ " more)")) () in
  print EmptyString.

Definition print_removed_options (removed : dict string) : M unit :=
  let was_enabled :=
    filter (λ kv, String.eqb kv.2 "y" || String.eqb kv.2 "m" = true) removed in
  let was_disabled := filter (λ kv, String.eqb kv.2 "n" = true) removed in
  let* _ := print ("--- REMOVED options (" +:+ str_nat (length removed) +:+ ") ---") in
  let* _ :=
    match was_enabled with
    | [] => ret ()
    | _ =>
        let* _ := print (nl +:+ "  Previously ENABLED (review!):") in
        for_each (sorted fst was_enabled) (λ _ '(opt, val),
            print ("    " +:+ opt +:+ " (was: " +:+ val +:+ ")")) ()
    end in
  let* _ :=
    match was_disabled with
    | [] => ret ()
    | _ => print (nl +:+ "  Previously disabled (" +:+ str_nat (length was_disabled)
                  +:+ " options, no action needed)")
    end in
  print EmptyString.

Definition print_changed_options (changed : dict (string * string)) : M unit :=
  let* _ := print ("--- CHANGED values (" +:+ str_nat (length changed) +:+ ") ---") in
  let* _ := for_each (sorted fst changed) (λ _ '(opt, (old_val, new_val)),
      let sky1_flag := if is_sky1_option opt then " [Sky1]" else EmptyString in
      print ("  " +:+ opt +:+ ": " +:+ old_val +:+ " -> " +:+ new_val +:+ sky1_flag)) () in
  print EmptyString.

(** [timestamp] is the clock reading [datetime.now()], already formatted. *)
Definition cmd_review (old_path new_path timestamp : string) : M nat :=
  let* old_present := exists_ old_path in
  if negb old_present then
    let* _ := print ("Error: " +:+ old_path +:+ " not found") in ret 1
  else
  let* new_present := exists_ new_path in
  if negb new_present then
    let* _ := print ("Error: " +:+ new_path +:+ " not found") in ret 1
  else
    let* old := parse_config old_path in
    let* new := parse_config new_path in
    let* _ := print ("=== Config Review: " +:+ name old_path +:+ " -> "
                     +:+ name new_path +:+ " ===" +:+ nl) in
    let* _ := print ("  Old: " +:+ str_nat (enabled_count old) +:+ " enabled options") in
    let* _ := print ("  New: " +:+ str_nat (enabled_count new) +:+ " enabled options") in
    let* _ := print EmptyString in
    let added := added_options old new in
    let removed := removed_options old new in
    let changed := changed_options old new in
    let* _ := match added with [] => ret () | _ => print_new_options added end in
    let* _ := match removed with [] => ret () | _ => print_removed_options removed end in
    let* _ := match changed with [] => ret () | _ => print_changed_options changed end in
    let* _ := print "--- Summary ---" in
    let* _ := print ("  " +:+ str_nat (length added) +:+ " new options") in
    let* _ := print ("  " +:+ str_nat (length removed) +:+ " removed options") in
    let* _ := print ("  " +:+ str_nat (length changed) +:+ " changed values") in
    let review_file := HOME +:+ "/docs/config-review-" +:+ timestamp +:+ ".txt" in
    let* _ :=
      match added, removed, changed with
      | [], [], [] => ret ()
      | _, _, _ => print (nl +:+ "  Review saved to: " +:+ review_file)
      end in
    ret 0.

End reconcile_configs.

(** * Vocabulary of the statements *)

Module spec.
Import py os.

(** An action that leaves every file as it is, whatever it returns or
    raises. *)
Definition read_only {A} (m : M A) : Prop := ∀ w, files (m w).2 = files w.

(** Whether the config of a track is on disk. *)
Definition track_exists (w : world) (filename : string) : bool :=
  bool_decide (is_Some (files w !! (reconcile_configs.CONFIG_DIR +:+ "/" +:+ filename))).

(** A text given by its lines, each ended by a line feed. *)
Fixpoint text (ls : list string) : string :=
  match ls with
  | [] => EmptyString
  | l :: ls' => l +:+ nl +:+ text ls'
  end.

Definition track (filename : string) : string :=
  reconcile_configs.CONFIG_DIR +:+ "/" +:+ filename.

(** Only the RC track is on disk, and it violates the policy. *)
Definition w_one_track : world :=
  World {[ track "config.sky1-rc" := text ["CONFIG_NET_FOO=n"];
           reconcile_configs.POLICY_FILE := text ["[net]"; "NET_FOO=y"] ]} [].

(** No file at all. *)
Definition w_empty : world := World ∅ [].

(** The policy requires NET_FOO=y; the LTS track lacks the option and the
    RC track has it as [=n]. *)
Definition w_scenario : world :=
  World {[ track "config.sky1" := text ["CONFIG_NET=y"];
           track "config.sky1-rc" := text ["CONFIG_NET=y"; "CONFIG_NET_FOO=n"];
           reconcile_configs.POLICY_FILE := text ["[net]"; "NET_FOO=y"] ]} [].

(** The same policy; the RC track has the option in the not-set form. *)
Definition w_notset : world :=
  World {[ track "config.sky1" := text ["CONFIG_NET=y"; "CONFIG_NET_FOO=y"];
           track "config.sky1-rc" := text ["CONFIG_NET=y"; "# CONFIG_NET_FOO is not set"];
           reconcile_configs.POLICY_FILE := text ["[net]"; "NET_FOO=y"] ]} [].

(** A policy with the option FOO under two sections. *)
Definition w_dup : world :=
  World {[ reconcile_configs.POLICY_FILE := text ["[a]"; "FOO=y"; "[b]"; "FOO=n"] ]} [].

(** Whether a track config disagrees with the policy on the value of an
    option that it has: a MISMATCH, as opposed to a MISSING option. *)
Definition has_mismatch (policy cfg : dict string) : bool :=
  existsb (λ '(opt, required_val),
             match dict_get cfg opt with
             | Some actual => negb (String.eqb actual required_val)
             | None => false
             end) policy.

(** No loaded track that is stored at [path] has a MISMATCH. *)
Definition no_mismatch_at (path : string) (policy : dict string)
    (configs : dict (dict string)) : bool :=
  forallb (λ '(label, cfg),
             negb (String.eqb (track (reconcile_configs.track_file label)) path
                   && has_mismatch policy cfg)) configs.

(** The options that the review has put under a category. *)
Definition bucket (by_category : dict (list (string * string))) (cat : string)
    : list (string * string) :=
  default [] (dict_get by_category cat).

(** The body of the loop that fills [by_category]. *)
Definition categorize_step (by_category : dict (list (string * string)))
    (kv : string * string) : dict (list (string * string)) :=
  dict_set by_category (reconcile_configs.categorize_option kv.1)
    (default [] (dict_get by_category (reconcile_configs.categorize_option kv.1)) ++ [kv]).

(** The old config is empty; the new one enables the Panthor driver. *)
Definition w_review : world :=
  World {[ "/tmp/config.old" := text [];
           "/tmp/config.new" := text ["CONFIG_DRM_PANTHOR=y"] ]} [].

(** A string without any line boundary of [splitlines]. *)
Fixpoint single_line (s : string) : bool :=
  match s with
  | EmptyString => true
  | String c s' => negb (is_linebreak c) && single_line s'
  end.

(** A text whose only line boundary is the line feed. *)
Fixpoint lf_only (s : string) : bool :=
  match s with
  | EmptyString => true
  | String c s' => (negb (is_linebreak c) || Ascii.eqb c LF) && lf_only s'
  end.

(** The frame of an edit: the lines of [before] that are not lines of the
    edited option (those that [target] accepts) are all in [after], byte
    for byte and in the same order.  A line is what lies between two line
    feeds. *)
Definition kept (target : string → bool) (before after : string) : Prop :=
  filter (λ l, target l = false) (split_nl before) `sublist_of` split_nl after.

(** The lines of a kernel config that set or unset the option of [key]. *)
Definition is_config_line_of (key line : string) : bool :=
  manage_config.pattern_enabled key line || manage_config.pattern_disabled key line.

(** A line that holds a form feed and nothing else. *)
Definition ff : string := String "012"%char EmptyString.

(** The template that stands for a text without backslash. *)
Fixpoint lits (s : string) : list re.piece :=
  match s with
  | EmptyString => []
  | String c s' => re.Lit c :: lits s'
  end.

(** What [re.sub] does to a line when the replacement is the plain text
    [r]. *)
Definition put (P : string → bool) (r : string) (l : string) : string :=
  if P l then r else l.

(** An option name that the editors write and find again as it is: one
    line, no backslash, no white space at its ends, no equals sign, and
    not starting as a comment or a section header. *)
Definition plain_name (s : string) : bool :=
  negb (has_char "\"%char s) && single_line s && String.eqb (strip s) s
  && negb (has_char "="%char s)
  && negb (startswith s "#") && negb (startswith s "[").

(** A value that the editors write and find again as it is: one line, no
    backslash, no white space at its end. *)
Definition plain_value (s : string) : bool :=
  negb (has_char "\"%char s) && single_line s && String.eqb (rstrip s) s.

(** An edit of a text: the new text and whether it differs, or an
    exception. *)
Definition edit : Type := string → res (string * bool).

Definition change_path (c : manage_config.change) : string := c.1.1.
Definition change_text (c : manage_config.change) : string := c.2.

(** The file system after the writes of a list of changes. *)
Definition apply_changes (changes : list manage_config.change)
    (fs : gmap string string) : gmap string string :=
  foldl (λ fs c, <[change_path c := change_text c]> fs) fs changes.

(** A change that comes from an edit of the file as it is read. *)
Definition from_edit (fs : gmap string string) (e : edit)
    (c : manage_config.change) : Prop :=
  ∃ raw, fs !! change_path c = Some raw
         ∧ e (universal_newlines false raw) = Ok (change_text c, true).

(** An edit whose changed output, written and read again, it leaves as
    it is. *)
Definition settles (e : edit) : Prop :=
  ∀ raw t, e (universal_newlines false raw) = Ok (t, true) →
           e (universal_newlines false t) = Ok (t, false).

(** What the run of an edit on a file that is on disk found. *)
Definition edited (fs : gmap string string) (e : edit) (changes : list manage_config.change)
    (path : string) : Prop :=
  ∃ raw t ch, fs !! path = Some raw
              ∧ e (universal_newlines false raw) = Ok (t, ch)
              ∧ (ch = true → ∃ desc, (path, desc, t) ∈ changes).

(** A file on which the edit changes nothing. *)
Definition settled (fs : gmap string string) (e : edit) (path : string) : Prop :=
  ∃ raw t, fs !! path = Some raw ∧ e (universal_newlines false raw) = Ok (t, false).

(** An argument of the command line that, when given, is one line. *)
Definition one_line (arg : option string) : bool :=
  match arg with
  | Some s => single_line s
  | None => true
  end.

(** The three edits that [cmd_set] plans: of a config file, of the policy
    file and of the README, the last two only with their arguments given. *)
Definition edit_config (option value : string) : edit :=
  λ text, manage_config.set_config_line text option value.

Definition edit_policy (opt value : string) (policy_section : option string) : edit :=
  λ text, match manage_config.truthy policy_section with
          | Some section => Ok (manage_config.set_policy_entry text opt value section)
          | None => Ok (text, false)
          end.

Definition edit_readme (opt : string) (doc_heading doc_type doc_desc : option string)
    : edit :=
  λ text, match manage_config.truthy doc_heading, manage_config.truthy doc_type,
                manage_config.truthy doc_desc with
          | Some heading, Some type, Some desc =>
              Ok (manage_config.add_readme_entry text opt heading type desc)
          | _, _, _ => Ok (text, false)
          end.

(** A path in which [cmd_set] looks for a config: a track config, or a
    dev copy in the mainline tree. *)
Definition is_dev_config (p : string) : bool :=
  startswith p (manage_config.MAINLINE +:+ "/" +:+ "config.sky1")
  && negb (has_char "/"%char (drop (String.length manage_config.MAINLINE + 1) p)).

(** A tree for [cmd_set]: the LTS track config, a dev copy, the policy
    and the README. *)
Definition w_set : world :=
  World {[ track "config.sky1" := text ["CONFIG_USB=y"; "# CONFIG_USB_UAS is not set"];
           manage_config.MAINLINE +:+ "/config.sky1-dev" := text ["CONFIG_USB_UAS=y"];
           manage_config.POLICY_FILE := text ["[usb]"; "USB_STORAGE=y"];
           manage_config.README_FILE :=
             text ["## USB Support"; EmptyString;
                   "| Option | Type | Description |"; "|---|---|---|";
                   "| `USB_STORAGE` | builtin | USB mass storage |"] ]} [].

(** Two tracks on disk and no policy file. *)
Definition w_no_policy : world :=
  World {[ track "config.sky1" := text ["CONFIG_NET=y"];
           track "config.sky1-rc" := text ["CONFIG_NET=y"; "CONFIG_NET_FOO=n"] ]} [].

(** Two tracks on disk, and a policy file whose first entry comes before
    any section header. *)
Definition w_no_header : world :=
  World {[ track "config.sky1" := text ["CONFIG_NET=y"];
           track "config.sky1-rc" := text ["CONFIG_NET=y"; "CONFIG_NET_FOO=n"];
           reconcile_configs.POLICY_FILE := text ["NET_FOO=y"; "[net]"; "NET_BAR=m"] ]} [].

(** Whether a string holds white space. *)
Fixpoint has_space (s : string) : bool :=
  match s with
  | EmptyString => false
  | String c s' => is_space c || has_space s'
  end.

(** The option that [parse_config] reads from a line of a config, if it
    reads one: the text before the first equals sign of an assignment, the
    second word of a line that says that an option is not set. *)
Definition parsed_key (line : string) : option string :=
  if startswith line "CONFIG_" then Some (before "="%char line)
  else if startswith line "# CONFIG_" && endswith line " is not set"
       then Some (default EmptyString (split_ws line !! 1))
       else None.

(** The policy requires NET_BAR=y and gives NET_FOO a value that goes on
    in a continuation line; the RC track has NET_FOO as [=n] and lacks
    NET_BAR. *)
Definition w_continued : world :=
  World {[ track "config.sky1" := text ["CONFIG_NET=y"];
           track "config.sky1-rc" := text ["CONFIG_NET=y"; "CONFIG_NET_FOO=n"];
           reconcile_configs.POLICY_FILE :=
             text ["[net]"; "NET_BAR=y"; "NET_FOO=y"; "  CONFIG_NET_BAR=y"] ]} [].

(** The old config has the Panthor driver as a module, the new one has it
    built in. *)
Definition w_review_changed : world :=
  World {[ "/tmp/config.old" := text ["CONFIG_DRM_PANTHOR=m"];
           "/tmp/config.new" := text ["CONFIG_DRM_PANTHOR=y"] ]} [].

(** The number of occurrences of a character in a string. *)
Fixpoint count_char (c : ascii) (s : string) : nat :=
  match s with
  | EmptyString => 0
  | String a s' => (if Ascii.eqb a c then 1 else 0) + count_char c s'
  end.

(** The number of line feeds of a file as it is read. *)
Definition line_feeds (raw : string) : nat :=
  count_char LF (universal_newlines false raw).

(** A table row of the README that documents the option: a line that
    starts with a bar and whose first cell is the name in backticks. *)
Definition row_of (option line : string) : bool :=
  startswith line "|"
  && String.eqb (strip (before "|"%char (drop 1 line))) (manage_config.backticked option).

(** An action that, when it returns, returns a value in [P]. *)
Definition returns_in {A} (P : A → Prop) (m : M A) : Prop :=
  ∀ w a w', m w = (Ok a, w') → P a.

(** An action that never raises. *)
Definition total {A} (m : M A) : Prop := ∀ w, ∃ a w', m w = (Ok a, w').

End spec.

(** * Proofs *)

Import py os spec.

(** ** Running an action *)

Lemma bind_ok {A B} (m : M A) (k : A → M B) w a w' :
  m w = (Ok a, w') → bind m k w = k a w'.
Proof. intros H. unfold bind. by rewrite H. Qed.

Lemma bind_raise {A B} (m : M A) (k : A → M B) w e w' :
  m w = (Raise e, w') → bind m k w = (Raise e, w').
Proof. intros H. unfold bind. by rewrite H. Qed.

(** ** Actions that write no file *)

Lemma read_only_ret {A} (a : A) : read_only (ret a).
Proof. by intros w. Qed.

Lemma read_only_raise {A} e : read_only (@raise A e).
Proof. by intros w. Qed.

Lemma read_only_lift {A} (r : res A) : read_only (lift r).
Proof. by intros w. Qed.

Lemma read_only_bind {A B} (m : M A) (k : A → M B) :
  read_only m → (∀ a, read_only (k a)) → read_only (bind m k).
Proof.
  intros Hm Hk w. unfold bind. specialize (Hm w).
  destruct (m w) as [[a|e] w1]; simpl in *; [|done].
  by rewrite Hk.
Qed.

Lemma read_only_exists path : read_only (exists_ path).
Proof. by intros w. Qed.

Lemma read_only_read_text path : read_only (read_text path).
Proof. intros w. unfold read_text. by destruct (files w !! path). Qed.

Lemma read_only_print s : read_only (print s).
Proof. by intros w. Qed.

Lemma read_only_glob dir prefix : read_only (glob_prefix dir prefix).
Proof. by intros w. Qed.

Lemma read_only_for_each {A S} (l : list A) (body : S → A → M S) s :
  (∀ s x, read_only (body s x)) → read_only (for_each l body s).
Proof.
  intros Hb. revert s. induction l as [|x l IH]; intros s; simpl.
  - apply read_only_ret.
  - apply read_only_bind; [apply Hb | apply IH].
Qed.

Ltac read_only_step :=
  lazymatch goal with
  | |- read_only (bind _ _) => apply read_only_bind; [|intros ?]
  | |- read_only (ret _) => apply read_only_ret
  | |- read_only (raise _) => apply read_only_raise
  | |- read_only (lift _) => apply read_only_lift
  | |- read_only (exists_ _) => apply read_only_exists
  | |- read_only (read_text _) => apply read_only_read_text
  | |- read_only (print _) => apply read_only_print
  | |- read_only (glob_prefix _ _) => apply read_only_glob
  | |- read_only (for_each _ _ _) => apply read_only_for_each; intros ? ?
  | |- read_only (match ?x with _ => _ end) => destruct x
  end.

Ltac read_only := repeat read_only_step.

Lemma read_only_get_config_value path opt :
  read_only (manage_config.get_config_value path opt).
Proof. unfold manage_config.get_config_value. read_only. Qed.

Lemma read_only_report changes :
  read_only (manage_config.report_and_apply changes false).
Proof. unfold manage_config.report_and_apply. read_only. Qed.

(** C1.  A dry run writes no file: after [cmd_set] or [cmd_remove] without
    the apply flag, the file system is the one before the call, whatever
    the arguments, the files on disk and the number of planned changes,
    and also when the command stops on an exception. *)
Theorem dry_run_writes_no_file :
  (∀ opt value policy_section doc_heading doc_type doc_desc w,
     files (manage_config.cmd_set opt value policy_section doc_heading doc_type
              doc_desc false w).2
     = files w)
  ∧ (∀ opt policy doc w,
       files (manage_config.cmd_remove opt policy doc false w).2 = files w).
Proof.
  split.
  - intros opt value ps dh dt dd.
    change (read_only (manage_config.cmd_set opt value ps dh dt dd false)).
    unfold manage_config.cmd_set, manage_config.find_dev_configs,
      manage_config.plan_track, manage_config.plan_dev, manage_config.plan_policy,
      manage_config.plan_readme.
    read_only; try apply read_only_get_config_value; try apply read_only_report.
  - intros opt policy doc.
    change (read_only (manage_config.cmd_remove opt policy doc false)).
    unfold manage_config.cmd_remove. read_only; apply read_only_report.
Qed.

(** ** Dictionaries *)

Lemma dict_set_length {V} (d : dict V) k v :
  dict_has d k = false → length (dict_set d k v) = S (length d).
Proof.
  unfold dict_has. induction d as [|[k' v'] d IH]; simpl; [done|].
  destruct (String.eqb k' k); [done|]. intros H. simpl. by rewrite IH.
Qed.

Lemma dict_has_set_ne {V} (d : dict V) k k' v :
  k ≠ k' → dict_has (dict_set d k v) k' = dict_has d k'.
Proof.
  intros Hne. unfold dict_has. induction d as [|[k0 v0] d IH]; simpl.
  - destruct (String.eqb_spec k k'); [done|done].
  - destruct (String.eqb_spec k0 k) as [->|]; simpl.
    + destruct (String.eqb_spec k k'); [done|done].
    + destruct (String.eqb_spec k0 k'); [done|]. apply IH.
Qed.

(** ** Loading the tracks *)

Section Load.
Import reconcile_configs.

Lemma load_config_run configs label filename w :
  ∃ cfg line,
    load_config configs (label, filename) w =
      (Ok (if track_exists w filename then dict_set configs label cfg else configs),
       World (files w) (stdout w ++ [line])).
Proof.
  unfold load_config, track_exists, exists_, parse_config, read_text, print, ret, bind.
  cbv beta iota. destruct (files w !! _) as [t|] eqn:E.
  - rewrite bool_decide_eq_true_2 by eauto. cbv beta iota. rewrite E.
    cbn [files stdout]. do 2 eexists; reflexivity.
  - rewrite bool_decide_eq_false_2 by (by intros [? ?]). cbv beta iota.
    exists []. eexists. reflexivity.
Qed.

Lemma load_configs_from (l : list (string * string)) configs w :
  NoDup (map fst l) →
  (∀ t, t ∈ l → dict_has configs t.1 = false) →
  ∃ configs' listing,
    for_each l load_config configs w
      = (Ok configs', World (files w) (stdout w ++ listing))
    ∧ length listing = length l
    ∧ length configs'
      = length configs + length (filter (λ t, track_exists w t.2 = true) l).
Proof.
  revert configs w. induction l as [|[label filename] l IH]; intros configs w Hnd Hfresh.
  - exists configs, []. simpl. rewrite app_nil_r. destruct w. split; [done|]. split; [done|lia].
  - simpl in Hnd. apply NoDup_cons in Hnd as [Hnotin Hnd].
    destruct (load_config_run configs label filename w) as (cfg & line & Hrun).
    cbn [for_each]. rewrite (bind_ok _ _ _ _ _ Hrun).
    set (w1 := World (files w) (stdout w ++ [line])).
    assert (Hex : ∀ f, track_exists w1 f = track_exists w f) by done.
    destruct (IH (if track_exists w filename then dict_set configs label cfg else configs)
                w1 Hnd)
      as (configs' & listing & Heq & Hlen & Hcnt).
    { intros t Ht. destruct (track_exists w filename).
      - rewrite dict_has_set_ne.
        + apply Hfresh. by right.
        + intros ->. apply Hnotin. apply list_elem_of_fmap. by exists t.
      - apply Hfresh. by right. }
    exists configs', (line :: listing). rewrite Heq. cbn [length].
    split; [subst w1; cbn [files stdout]; by rewrite <- app_assoc|].
    split; [by rewrite Hlen|].
    rewrite Hcnt. rewrite filter_cons. simpl.
    rewrite (list_filter_iff _ (λ t, track_exists w t.2 = true))
      by (intros ?; by rewrite Hex).
    destruct (track_exists w filename) eqn:E.
    + rewrite decide_True by done. rewrite dict_set_length; [simpl; lia|].
      apply (Hfresh (label, filename)). by left.
    + rewrite decide_False by done. lia.
Qed.

End Load.

(** C10.  With fewer than two track configs on disk, [cmd_reconcile] prints
    its title, one line for each of the four tracks and the notice that two
    configs are needed, returns 0 and leaves every file as it is; this holds
    with and without the fix flag and whatever the policy file holds, so
    neither the policy nor the divergence is checked. *)
Theorem reconcile_needs_two_tracks fix_mode verbose w :
  (length (filter (λ t, track_exists w t.2 = true) reconcile_configs.TRACKS) < 2)%nat →
  ∃ listing,
    length listing = 4
    ∧ reconcile_configs.cmd_reconcile fix_mode verbose w
      = (Ok 0,
         World (files w)
           (stdout w ++ ["=== Sky1 Config Reconciliation ===" +:+ nl] ++ listing
            ++ [nl +:+ "Need at least 2 configs to compare."])).
Proof.
  intros Hlt.
  set (w0 := World (files w) (stdout w ++ ["=== Sky1 Config Reconciliation ===" +:+ nl])).
  destruct (load_configs_from reconcile_configs.TRACKS [] w0)
    as (configs & listing & Heq & Hlen & Hcnt).
  { by apply (bool_decide_unpack _). }
  { done. }
  exists listing. split; [done|].
  unfold reconcile_configs.cmd_reconcile.
  rewrite (bind_ok _ _ w () w0) by reflexivity.
  rewrite (bind_ok _ _ w0 configs _ Heq).
  assert ((length configs <? 2)%nat = true) as ->.
  { apply Nat.ltb_lt. rewrite Hcnt. exact Hlt. }
  unfold bind, print, ret. cbn [files stdout]. subst w0. cbn [files stdout].
  by rewrite <- !app_assoc.
Qed.

Lemma reconcile_needs_two_tracks_witness :
  ∃ listing,
    length listing = 4
    ∧ reconcile_configs.cmd_reconcile true false w_one_track
      = (Ok 0,
         World (files w_one_track)
           (stdout w_one_track ++ ["=== Sky1 Config Reconciliation ===" +:+ nl]
            ++ listing ++ [nl +:+ "Need at least 2 configs to compare."])).
Proof.
  apply (reconcile_needs_two_tracks true false w_one_track). vm_compute. lia.
Defined.

(** ** Return values and actions that never raise *)

Lemma returns_in_ret {A} (P : A → Prop) a : P a → returns_in P (ret a).
Proof. intros H w a' w' [= <- <-]. done. Qed.

Lemma returns_in_bind {A B} (P : B → Prop) (m : M A) (k : A → M B) :
  (∀ a, returns_in P (k a)) → returns_in P (bind m k).
Proof.
  intros Hk w b w'. unfold bind. destruct (m w) as [[a|e] w1]; [|done].
  apply Hk.
Qed.

Lemma total_ret {A} (a : A) : total (ret a).
Proof. intros w. by exists a, w. Qed.

Lemma total_print s : total (print s).
Proof. intros w. by eexists _, _. Qed.

Lemma total_bind {A B} (m : M A) (k : A → M B) :
  total m → (∀ a, total (k a)) → total (bind m k).
Proof.
  intros Hm Hk w. destruct (Hm w) as (a & w1 & E).
  rewrite (bind_ok _ _ _ _ _ E). apply Hk.
Qed.

Lemma total_for_each {A S} (l : list A) (body : S → A → M S) s :
  (∀ s x, total (body s x)) → total (for_each l body s).
Proof.
  intros Hb. revert s. induction l as [|x l IH]; intros s; simpl.
  - apply total_ret.
  - apply total_bind; [apply Hb | apply IH].
Qed.

Ltac total_step :=
  lazymatch goal with
  | |- total (bind _ _) => apply total_bind; [|intros ?]
  | |- total (ret _) => apply total_ret
  | |- total (print _) => apply total_print
  | |- total (for_each _ _ _) => apply total_for_each; intros ? ?
  | |- total (match ?x with _ => _ end) => destruct x
  end.

Ltac total := repeat total_step.

(** A loop that keeps an invariant of the world and does not raise. *)
Lemma for_each_total {A S} (I : world → Prop) (l : list A) (body : S → A → M S) :
  (∀ s x w, x ∈ l → I w → ∃ s' w', body s x w = (Ok s', w') ∧ I w') →
  ∀ s w, I w → ∃ s' w', for_each l body s w = (Ok s', w') ∧ I w'.
Proof.
  induction l as [|x l IH]; intros Hb s w Hw; simpl.
  - by exists s, w.
  - destruct (Hb s x w) as (s1 & w1 & E & Hw1); [by left|done|].
    rewrite (bind_ok _ _ _ _ _ E). apply IH; [|done].
    intros s0 y w0 Hy. apply Hb. by right.
Qed.

Lemma elem_of_dict_set {V} (d : dict V) k v kv :
  kv ∈ dict_set d k v → kv ∈ d ∨ kv = (k, v).
Proof.
  induction d as [|[k0 v0] d IH]; simpl.
  - intros ->%list_elem_of_singleton. by right.
  - destruct (String.eqb_spec k0 k) as [->|].
    + intros [->|H]%elem_of_cons; [by right|left; by right].
    + intros [->|H]%elem_of_cons; [left; by left|].
      destruct (IH H) as [?|?]; [left; by right|by right].
Qed.

(** ** The exit status of [cmd_reconcile] *)

Section ExitStatus.
Import reconcile_configs.

Lemma load_configs_labels (l : list (string * string)) configs w configs' w' :
  for_each l load_config configs w = (Ok configs', w') →
  files w' = files w
  ∧ ∀ label cfg, (label, cfg) ∈ configs' →
      (label, cfg) ∈ configs
      ∨ ∃ filename, (label, filename) ∈ l ∧ track_exists w filename = true.
Proof.
  revert configs w. induction l as [|[label0 filename] l IH]; intros configs w.
  - simpl. intros [= <- <-]. split; [done|]. by left.
  - cbn [for_each].
    destruct (load_config_run configs label0 filename w) as (cfg0 & line & Hrun).
    rewrite (bind_ok _ _ _ _ _ Hrun). intros Heq.
    destruct (IH _ _ Heq) as [Hfiles Hlab]. split; [done|].
    intros label cfg Hin.
    destruct (Hlab label cfg Hin) as [Hc|(f & Hf & Hex)].
    + destruct (track_exists w filename) eqn:E.
      * apply elem_of_dict_set in Hc as [?|[= -> ->]]; [by left|].
        right. exists filename. split; [by left|done].
      * by left.
    + right. exists f. split; [by right|done].
Qed.

Lemma fix_violation_total opt required_val label cfg fixed w :
  is_Some (files w !! track (track_file label)) →
  ∃ fixed' w',
    fix_violation opt required_val label cfg fixed w = (Ok fixed', w')
    ∧ ∀ p, is_Some (files w !! p) → is_Some (files w' !! p).
Proof.
  intros [t Ht]. unfold fix_violation.
  destruct (dict_get cfg opt) as [actual|]; [|by exists fixed, w].
  destruct (negb _); [|by exists fixed, w].
  unfold read_text, bind. fold (track (track_file label)). rewrite Ht.
  destruct (contains _ _); [|by exists fixed, w].
  eexists _, _. split; [reflexivity|].
  intros p Hp. cbn [files write_text print].
  destruct (decide (track (track_file label) = p)) as [<-|Hne].
  - rewrite lookup_insert_eq. eauto.
  - by rewrite lookup_insert_ne.
Qed.

Lemma fix_all_total policy configs w :
  (∀ label cfg, (label, cfg) ∈ configs → is_Some (files w !! track (track_file label))) →
  ∃ fixed w', fix_all policy configs w = (Ok fixed, w').
Proof.
  intros Hex. unfold fix_all.
  destruct (for_each_total
              (λ w', ∀ p, is_Some (files w !! p) → is_Some (files w' !! p))
              (sorted fst policy)
              (λ fixed '(opt, required_val),
                 for_each configs (λ fixed '(label, cfg),
                   fix_violation opt required_val label cfg fixed) fixed))
    with (s := 0) (w := w) as (n & w' & E & _); [|done|by eauto].
  intros s [opt req] w0 _ Hw0.
  apply (for_each_total (λ w', ∀ p, is_Some (files w !! p) → is_Some (files w' !! p)));
    [|done].
  intros s1 [label cfg] w1 Hin Hw1.
  destruct (fix_violation_total opt req label cfg s1 w1) as (f & w2 & E & Hdom).
  { apply Hw1. by apply (Hex label cfg). }
  exists f, w2. split; [done|]. intros p Hp. by apply Hdom, Hw1.
Qed.

Lemma read_only_parse_policy : read_only parse_policy.
Proof. unfold parse_policy. read_only. Qed.

Lemma total_compare_tracks verbose configs violations :
  total (compare_tracks verbose configs violations).
Proof. unfold compare_tracks. total. Qed.

Lemma total_check_policy policy configs violations :
  total (check_policy false policy configs violations).
Proof. unfold check_policy. total. Qed.

Lemma check_policy_fix_total policy configs violations w :
  (∀ label cfg, (label, cfg) ∈ configs → is_Some (files w !! track (track_file label))) →
  ∃ w', check_policy true policy configs violations w = (Ok (), w').
Proof.
  intros Hex. unfold check_policy.
  destruct policy as [|entry policy]; [by eexists|].
  erewrite (bind_ok (print _)) by reflexivity.
  destruct violations as [|v violations]; [by eexists|].
  set (w1 := World _ _).
  destruct (total_for_each (v :: violations) (λ (_ : ()) v, print v) ()) with (w := w1)
    as ([] & w2 & E); [intros; apply total_print|].
  assert (Hfiles : files w2 = files w).
  { pose proof (read_only_for_each (v :: violations) (λ (_ : ()) v, print v) ()
                  (λ _ _, read_only_print _) w1) as H.
    rewrite E in H. exact H. }
  rewrite (bind_ok _ _ _ _ _ E).
  erewrite (bind_ok (print _)) by reflexivity.
  destruct (fix_all_total (entry :: policy) configs (World (files w2) (stdout w2 ++ [EmptyString])))
    as (fixed & w3 & E3).
  { intros label cfg Hin. cbn [files]. rewrite Hfiles. by apply (Hex label cfg). }
  rewrite (bind_ok _ _ _ _ _ E3). destruct fixed; by eexists.
Qed.

Lemma track_file_of_tracks label filename :
  (label, filename) ∈ TRACKS → track_file label = filename.
Proof.
  unfold TRACKS. rewrite !elem_of_cons, elem_of_nil.
  intros [[= -> ->]|[[= -> ->]|[[= -> ->]|[[= -> ->]|[]]]]]; reflexivity.
Qed.

End ExitStatus.

(** C4, as amended.  Once at least two tracks are loaded and the policy is
    parsed, [cmd_reconcile] returns: without the fix flag its status is 1
    when the policy check found a violation and 0 when it found none; with
    the fix flag its status is 0, whether or not the violations found were
    fixed. *)
Theorem reconcile_exit_status verbose w configs w1 policy w2 :
  reconcile_configs.load_configs
    (World (files w) (stdout w ++ ["=== Sky1 Config Reconciliation ===" +:+ nl]))
    = (Ok configs, w1) →
  (2 <= length configs)%nat →
  reconcile_configs.parse_policy (World (files w1) (stdout w1 ++ [EmptyString]))
    = (Ok policy, w2) →
  (∃ w', reconcile_configs.cmd_reconcile false verbose w
         = (Ok (match flat_map (reconcile_configs.violations_of configs)
                        (sorted fst policy) with
                | [] => 0
                | _ => 1
                end), w'))
  ∧ (∃ w', reconcile_configs.cmd_reconcile true verbose w = (Ok 0, w')).
Proof.
  intros Hload Hlen Hpol.
  assert (Hfix : ∀ fix_mode,
    (∃ w3, reconcile_configs.check_policy fix_mode policy configs
             (flat_map (reconcile_configs.violations_of configs) (sorted fst policy)) w2
           = (Ok (), w3)) →
    ∃ w', reconcile_configs.cmd_reconcile fix_mode verbose w
          = (Ok (match flat_map (reconcile_configs.violations_of configs)
                         (sorted fst policy) with
                 | [] => 0
                 | _ => if negb fix_mode then 1 else 0
                 end), w')).
  { intros fix_mode (w3 & E3). unfold reconcile_configs.cmd_reconcile.
    erewrite (bind_ok (print _)) by reflexivity.
    rewrite (bind_ok _ _ _ _ _ Hload).
    assert ((length configs <? 2)%nat = false) as -> by (apply Nat.ltb_ge; lia).
    erewrite (bind_ok (print _)) by reflexivity.
    rewrite (bind_ok _ _ _ _ _ Hpol). cbv zeta.
    rewrite (bind_ok _ _ _ _ _ E3).
    destruct (total_compare_tracks verbose configs
                (flat_map (reconcile_configs.violations_of configs) (sorted fst policy)) w3)
      as ([] & w4 & E4).
    rewrite (bind_ok _ _ _ _ _ E4). by eexists. }
  split.
  - apply (Hfix false).
    destruct (total_check_policy policy configs
                (flat_map (reconcile_configs.violations_of configs) (sorted fst policy)) w2)
      as ([] & w3 & E3).
    by exists w3.
  - destruct (Hfix true) as (w' & E).
    + apply check_policy_fix_total. intros label cfg Hin.
      apply load_configs_labels in Hload as [Hfiles Hlab].
      pose proof (read_only_parse_policy (World (files w1) (stdout w1 ++ [EmptyString]))) as Hro.
      rewrite Hpol in Hro. cbn [snd files] in Hro. rewrite Hro, Hfiles. cbn [files].
      destruct (Hlab label cfg Hin) as [Hnil|(f & Hf & Hex)]; [by apply elem_of_nil in Hnil|].
      rewrite (track_file_of_tracks label f Hf).
      unfold track_exists in Hex. by apply bool_decide_eq_true_1 in Hex.
    + exists w'. rewrite E. by destruct (flat_map _ _).
Qed.

Lemma reconcile_exit_status_witness :
  (∃ w', reconcile_configs.cmd_reconcile false false w_scenario = (Ok 1, w'))
  ∧ (∃ w', reconcile_configs.cmd_reconcile true false w_scenario = (Ok 0, w')).
Proof.
  destruct (reconcile_configs.load_configs
              (World (files w_scenario)
                 (stdout w_scenario ++ ["=== Sky1 Config Reconciliation ===" +:+ nl])))
    as [[configs|e] w1] eqn:H1; [|by vm_compute in H1].
  pose proof H1 as H1'. vm_compute in H1'. injection H1' as <- <-.
  match type of H1 with
  | _ = (_, ?w1) =>
      destruct (reconcile_configs.parse_policy
                  (World (files w1) (stdout w1 ++ [EmptyString])))
        as [[policy|e] w2] eqn:H2; [|by vm_compute in H2]
  end.
  pose proof H2 as H2'. vm_compute in H2'. injection H2' as <- <-.
  refine (reconcile_exit_status false w_scenario _ _ _ _ H1 _ H2).
  vm_compute. lia.
Defined.

(** C4, the claim as stated fails.  In the scenario the fix run repairs the
    RC track and leaves the LTS track without the option; it returns 0, and
    a plain run on the files it left still reports the violation and
    returns 1. *)
Lemma reconcile_fix_exits_0_with_violation_left :
  ∃ w', reconcile_configs.cmd_reconcile true false w_scenario = (Ok 0, w')
        ∧ (reconcile_configs.cmd_reconcile false false (World (files w') [])).1 = Ok 1
        ∧ "  config.sky1               CONFIG_NET_FOO  MISSING  (policy: y)"
          ∈ stdout (reconcile_configs.cmd_reconcile false false (World (files w') [])).2.
Proof.
  eexists. split; [vm_compute; reflexivity|]. split; [vm_compute; reflexivity|].
  vm_compute. repeat constructor.
Qed.

(** ** Sorting *)

Lemma elem_of_insert_sorted {A} (key : A → string) x y l :
  y ∈ insert_sorted key x l ↔ y = x ∨ y ∈ l.
Proof.
  induction l as [|z l IH]; simpl.
  - rewrite list_elem_of_singleton, elem_of_nil. tauto.
  - destruct (str_le _ _).
    + rewrite !elem_of_cons, IH. tauto.
    + rewrite !elem_of_cons. tauto.
Qed.

Lemma elem_of_sorted {A} (key : A → string) x l : x ∈ sorted key l ↔ x ∈ l.
Proof.
  assert (H : ∀ (l0 : list A) x, x ∈ foldr (insert_sorted key) [] l0 ↔ x ∈ l0).
  { induction l0 as [|y l0 IH]; intros z; simpl; [done|].
    rewrite elem_of_insert_sorted, elem_of_cons, IH. tauto. }
  unfold sorted. rewrite H, !list_elem_of_In. symmetry. apply in_rev.
Qed.

(** ** The fix pass of [cmd_reconcile] *)

Lemma for_each_inv {A S} (I : world → Prop) (l : list A) (body : S → A → M S) :
  (∀ s x w, x ∈ l → I w → I (body s x w).2) →
  ∀ s w, I w → I (for_each l body s w).2.
Proof.
  induction l as [|x l IH]; intros Hb s w Hw; simpl; [done|].
  unfold bind. assert (H1 : I (body s x w).2) by (apply Hb; [by left|done]).
  destruct (body s x w) as [[s1|e] w1]; simpl in *; [|done].
  apply IH; [|done]. intros s0 y w0 Hy. apply Hb. by right.
Qed.

Section FixPass.
Import reconcile_configs.

Lemma fix_violation_keeps opt required_val label cfg fixed p w :
  (track (track_file label) ≠ p
   ∨ match dict_get cfg opt with
     | Some actual => actual = required_val
     | None => True
     end) →
  files (fix_violation opt required_val label cfg fixed w).2 !! p = files w !! p.
Proof.
  intros H. unfold fix_violation.
  destruct (dict_get cfg opt) as [actual|]; [|done].
  destruct (String.eqb_spec actual required_val) as [->|Hne]; [done|]. cbn [negb].
  destruct H as [Hp|Hv]; [|by destruct Hne].
  unfold read_text, bind. fold (track (track_file label)).
  destruct (files w !! track (track_file label)); [|done].
  destruct (contains _ _); [|done].
  cbn. by rewrite lookup_insert_ne.
Qed.

Lemma no_mismatch_at_spec p policy configs :
  no_mismatch_at p policy configs = true →
  ∀ label cfg opt required_val,
    (label, cfg) ∈ configs → (opt, required_val) ∈ policy →
    track (track_file label) ≠ p
    ∨ match dict_get cfg opt with
      | Some actual => actual = required_val
      | None => True
      end.
Proof.
  unfold no_mismatch_at. rewrite forallb_forall.
  intros H label cfg opt req Hc Hp.
  specialize (H (label, cfg)). rewrite <- list_elem_of_In in H. specialize (H Hc).
  cbv beta iota in H. apply negb_true_iff, andb_false_iff in H as [H|H].
  - left. intros E. rewrite E, String.eqb_refl in H. done.
  - right. destruct (dict_get cfg opt) as [actual|] eqn:E; [|done].
    destruct (String.eqb_spec actual req) as [|Hne]; [done|].
    exfalso. apply not_true_iff_false in H. apply H.
    unfold has_mismatch. apply existsb_exists. exists (opt, req).
    split; [by apply list_elem_of_In|]. rewrite E.
    apply negb_true_iff. by apply String.eqb_neq.
Qed.

Lemma fix_all_keeps policy configs p w :
  no_mismatch_at p policy configs = true →
  files (fix_all policy configs w).2 !! p = files w !! p.
Proof.
  intros H. pose proof (no_mismatch_at_spec _ _ _ H) as Hs.
  unfold fix_all.
  apply (for_each_inv (λ w', files w' !! p = files w !! p)); [|done].
  intros s [opt req] w0 Hin Hw0. apply elem_of_sorted in Hin.
  apply (for_each_inv (λ w', files w' !! p = files w !! p)); [|done].
  intros s1 [label cfg] w1 Hc Hw1.
  rewrite fix_violation_keeps; [done|]. by apply Hs.
Qed.

Lemma fix_violation_mismatch opt required_val label cfg fixed w actual text :
  dict_get cfg opt = Some actual →
  actual ≠ required_val →
  read_text (track (track_file label)) w = (Ok text, w) →
  fix_violation opt required_val label cfg fixed w
  = if contains (opt +:+ "=" +:+ actual) text
    then (Ok (S fixed),
          World (<[track (track_file label) :=
                     replace (opt +:+ "=" +:+ actual) (opt +:+ "=" +:+ required_val) text]>
                   (files w))
            (stdout w ++ ["  Fixed: " +:+ track_file label +:+ ": "
                          +:+ (opt +:+ "=" +:+ actual) +:+ " -> "
                          +:+ (opt +:+ "=" +:+ required_val)]))
    else (Ok fixed, w).
Proof.
  intros Hget Hne Hread. unfold fix_violation. rewrite Hget.
  apply String.eqb_neq in Hne. rewrite Hne. cbn [negb].
  fold (track (track_file label)). rewrite (bind_ok _ _ _ _ _ Hread).
  by destruct (contains _ _).
Qed.

End FixPass.

(** ** Missing files *)

(** C8.  With no file on disk, [cmd_set] with a policy section raises
    [FileNotFoundError] on the policy file, and [cmd_set] with the three
    documentation arguments raises it on the README: both are read without
    the test for existence that [cmd_show] and [cmd_remove] make, which
    return 0 in the same world. *)
Theorem set_raises_on_missing_policy_or_readme :
  (manage_config.cmd_set "USB_UAS" "m" (Some "usb") None None None false w_empty).1
    = Raise (FileNotFoundError manage_config.POLICY_FILE)
  ∧ (manage_config.cmd_set "USB_UAS" "m" None (Some "USB Support") (Some "module")
       (Some "USB Attached SCSI") false w_empty).1
    = Raise (FileNotFoundError manage_config.README_FILE)
  ∧ (manage_config.cmd_remove "USB_UAS" true true false w_empty).1 = Ok 0
  ∧ (manage_config.cmd_show "USB_UAS" w_empty).1 = Ok 0.
Proof. repeat split; vm_compute; reflexivity. Qed.

(** ** Policy entries *)

(** C6.  A policy file that holds the header of the section [usb] and
    nothing under it: setting USB_UAS=m in that section appends a second
    section [usb] with the entry, in place of inserting the entry under the
    header; [configparser], with which [reconcile-configs.py] reads the
    policy, then rejects the file for its duplicate section. *)
Theorem set_policy_entry_in_empty_last_section :
  manage_config.set_policy_entry (text ["[usb]"]) "USB_UAS" "m" "usb"
    = (text ["[usb]"; EmptyString; "[usb]"; "USB_UAS=m"], true)
  ∧ configparser.read (text ["[usb]"; EmptyString; "[usb]"; "USB_UAS=m"])
    = Raise (DuplicateSectionError "usb").
Proof. split; vm_compute; reflexivity. Qed.

(** C7.  The option FOO under the sections [a] (value y) and [b] (value
    n): [get_policy_entry], which [show] uses, returns the first
    occurrence; [parse_policy], whose map [reconcile] enforces, holds the
    last one.  Neither raises. *)
Theorem duplicate_policy_key_resolution :
  (manage_config.get_policy_entry "FOO" w_dup).1 = Ok (Some ("a", "y"))
  ∧ (reconcile_configs.parse_policy w_dup).1 = Ok [("CONFIG_FOO", "n")].
Proof. split; vm_compute; reflexivity. Qed.

(** ** The categories of the review *)

Lemma dict_get_set_eq {V} (d : dict V) k v : dict_get (dict_set d k v) k = Some v.
Proof.
  induction d as [|[k0 v0] d IH]; simpl.
  - by rewrite String.eqb_refl.
  - destruct (String.eqb k0 k) eqn:E; simpl; rewrite E; [done|apply IH].
Qed.

Lemma dict_get_set_ne {V} (d : dict V) k k' v :
  k ≠ k' → dict_get (dict_set d k v) k' = dict_get d k'.
Proof.
  intros Hne. induction d as [|[k0 v0] d IH]; simpl.
  - by destruct (String.eqb_spec k k').
  - destruct (String.eqb_spec k0 k) as [->|]; simpl.
    + by destruct (String.eqb_spec k k').
    + by rewrite IH.
Qed.

Section Categories.
Import reconcile_configs.

Lemma categorize_unfold added :
  categorize added = foldl categorize_step [] (sorted fst added).
Proof.
  unfold categorize. generalize (@nil (string * list (string * string))).
  induction (sorted fst added) as [|[opt val] l IH]; intros acc; simpl; [done|].
  apply IH.
Qed.

Lemma bucket_step acc kv cat :
  bucket (categorize_step acc kv) cat
  = if String.eqb (categorize_option kv.1) cat then bucket acc cat ++ [kv]
    else bucket acc cat.
Proof.
  unfold bucket, categorize_step.
  destruct (String.eqb_spec (categorize_option kv.1) cat) as [<-|Hne].
  - by rewrite dict_get_set_eq.
  - by rewrite dict_get_set_ne.
Qed.

Lemma bucket_foldl l acc kv cat :
  kv ∈ bucket (foldl categorize_step acc l) cat
  ↔ kv ∈ bucket acc cat ∨ (kv ∈ l ∧ categorize_option kv.1 = cat).
Proof.
  revert acc. induction l as [|x l IH]; intros acc; simpl.
  - rewrite elem_of_nil. tauto.
  - rewrite IH, bucket_step, elem_of_cons.
    destruct (String.eqb_spec (categorize_option x.1) cat) as [E|Hne].
    + rewrite elem_of_app, list_elem_of_singleton.
      split; intros H.
      * destruct H as [[? | ->] | [? ?]]; auto.
      * destruct H as [? | [[-> | ?] ?]]; auto.
    + split; intros H.
      * destruct H as [?|[? ?]]; auto.
      * destruct H as [? | [[-> | ?] HC]]; auto. by destruct Hne.
Qed.

Lemma bucket_categorize added kv cat :
  kv ∈ bucket (categorize added) cat ↔ kv ∈ added ∧ categorize_option kv.1 = cat.
Proof.
  rewrite categorize_unfold, bucket_foldl, elem_of_sorted.
  unfold bucket at 1. simpl. rewrite elem_of_nil. tauto.
Qed.

End Categories.

(** Whatever else the review has found, a new option CONFIG_DRM_PANTHOR
    is under the category [Display/GPU] and not under [Sky1]: the new
    options are grouped by [categorize_option] alone, and the first prefix
    of its table that the name starts with is [DRM_]. *)
Lemma new_drm_panthor_is_display_gpu added val :
  ("CONFIG_DRM_PANTHOR", val) ∈ added →
  ("CONFIG_DRM_PANTHOR", val) ∈ bucket (reconcile_configs.categorize added) "Display/GPU"
  ∧ ("CONFIG_DRM_PANTHOR", val) ∉ bucket (reconcile_configs.categorize added) "Sky1".
Proof.
  intros Hin. rewrite !bucket_categorize. split.
  - split; [done|reflexivity].
  - intros [_ H]. vm_compute in H. discriminate.
Qed.

(** C9.  The table of [categorize_option] files the prefix PANTHOR under
    [Sky1], and the marker test [is_sky1_option] holds for
    CONFIG_DRM_PANTHOR; yet the name starts with DRM_, an earlier entry of
    the table, so that the review of a new config that adds
    CONFIG_DRM_PANTHOR=y prints the option under the header of
    [Display/GPU] and prints no header of [Sky1].  The section of the
    changed values flags the same option [Sky1]. *)
Theorem review_puts_drm_panthor_under_display_gpu :
  dict_get reconcile_configs.SUBSYSTEM_PREFIXES "PANTHOR" = Some "Sky1"
  ∧ reconcile_configs.is_sky1_option "CONFIG_DRM_PANTHOR" = true
  ∧ reconcile_configs.categorize_option "CONFIG_DRM_PANTHOR" = "Display/GPU"
  ∧ reconcile_configs.cmd_review "/tmp/config.old" "/tmp/config.new" "20260101-120000"
      w_review
    = (Ok 0,
       World (files w_review)
         [ "=== Config Review: config.old -> config.new ===" +:+ nl;
           "  Old: 0 enabled options";
           "  New: 1 enabled options";
           EmptyString;
           "--- NEW options (1) ---";
           nl +:+ "  [Display/GPU]";
           "    CONFIG_DRM_PANTHOR=y";
           EmptyString;
           "--- Summary ---";
           "  1 new options";
           "  0 removed options";
           "  0 changed values";
           nl +:+ "  Review saved to: /home/sky1/docs/config-review-20260101-120000.txt" ])
  ∧ reconcile_configs.cmd_review "/tmp/config.old" "/tmp/config.new" "20260101-120000"
      w_review_changed
    = (Ok 0,
       World (files w_review_changed)
         [ "=== Config Review: config.old -> config.new ===" +:+ nl;
           "  Old: 1 enabled options";
           "  New: 1 enabled options";
           EmptyString;
           "--- CHANGED values (1) ---";
           "  CONFIG_DRM_PANTHOR: m -> y [Sky1]";
           EmptyString;
           "--- Summary ---";
           "  0 new options";
           "  0 removed options";
           "  1 changed values";
           nl +:+ "  Review saved to: /home/sky1/docs/config-review-20260101-120000.txt" ]).
Proof. repeat split; vm_compute; reflexivity. Qed.

(** ** Strings *)

Lemma app_nil_l_s (s : string) : EmptyString +:+ s = s.
Proof. reflexivity. Qed.

Lemma app_cons_s c (s t : string) : String c s +:+ t = String c (s +:+ t).
Proof. reflexivity. Qed.

Lemma app_nil_r_s (s : string) : s +:+ EmptyString = s.
Proof. induction s as [|c s IH]; [done|]. by rewrite app_cons_s, IH. Qed.

Lemma app_assoc_s (s t u : string) : (s +:+ t) +:+ u = s +:+ t +:+ u.
Proof. induction s as [|c s IH]; [done|]. by rewrite !app_cons_s, IH. Qed.

Lemma ascii_eqb_spec (a b : ascii) : Ascii.eqb a b = bool_decide (a = b).
Proof.
  destruct (Ascii.eqb_spec a b);
    [by rewrite bool_decide_eq_true_2|by rewrite bool_decide_eq_false_2].
Qed.

Lemma has_char_app c (s t : string) : has_char c (s +:+ t) = has_char c s || has_char c t.
Proof.
  induction s as [|a s IH]; [done|]. rewrite app_cons_s. simpl. rewrite IH.
  by rewrite orb_assoc.
Qed.

Lemma single_line_app (s t : string) :
  single_line (s +:+ t) = single_line s && single_line t.
Proof.
  induction s as [|a s IH]; [done|]. rewrite app_cons_s. simpl. rewrite IH.
  by rewrite andb_assoc.
Qed.

Lemma single_line_no_lf s : single_line s = true → has_char LF s = false.
Proof.
  induction s as [|a s IH]; [done|]. simpl. intros [Ha Hs]%andb_true_iff.
  rewrite IH by done. rewrite orb_false_r.
  destruct (Ascii.eqb_spec a LF) as [->|]; [done|done].
Qed.

(** *** Lines between line feeds *)

Lemma split_nl_cons_head c s :
  Ascii.eqb c LF = false → split_nl (String c s) = cons_head c (split_nl s).
Proof. intros H. simpl. by rewrite H. Qed.

Lemma split_nl_nonempty s : split_nl s ≠ [].
Proof.
  induction s as [|c s IH]; [done|]. simpl. destruct (Ascii.eqb c LF); [done|].
  by destruct (split_nl s).
Qed.

Lemma split_nl_app_line l s :
  has_char LF l = false → split_nl (l +:+ nl +:+ s) = l :: split_nl s.
Proof.
  induction l as [|c l IH]; intros H.
  - reflexivity.
  - simpl in H. apply orb_false_iff in H as [Hc Hl].
    rewrite app_cons_s. simpl. rewrite Hc, IH by done. reflexivity.
Qed.

Lemma split_nl_line l : has_char LF l = false → split_nl l = [l].
Proof.
  induction l as [|c l IH]; intros H; [done|].
  simpl in H. apply orb_false_iff in H as [Hc Hl].
  simpl. rewrite Hc, IH by done. reflexivity.
Qed.

Lemma split_nl_app l s :
  split_nl (l +:+ nl +:+ s) = split_nl l ++ split_nl s.
Proof.
  induction l as [|c l IH]; [done|].
  rewrite app_cons_s. simpl. destruct (Ascii.eqb c LF).
  - by rewrite IH.
  - rewrite IH. pose proof (split_nl_nonempty l). by destruct (split_nl l).
Qed.

Lemma split_nl_join ls :
  ls ≠ [] → split_nl (join nl ls) = flat_map split_nl ls.
Proof.
  induction ls as [|l ls IH]; [done|]. intros _.
  destruct ls as [|l2 ls].
  - simpl. by rewrite app_nil_r.
  - change (join nl (l :: l2 :: ls)) with (l +:+ nl +:+ join nl (l2 :: ls)).
    rewrite split_nl_app, IH by done. reflexivity.
Qed.

Lemma split_nl_no_lf s : Forall (λ l, has_char LF l = false) (split_nl s).
Proof.
  induction s as [|c s IH]; simpl.
  - by constructor.
  - destruct (Ascii.eqb c LF) eqn:E.
    + by constructor.
    + destruct (split_nl s) as [|l ls]; [by repeat constructor; simpl; rewrite E|].
      apply Forall_cons in IH as [Hl Hls]. constructor; [|done].
      simpl. by rewrite E, Hl.
Qed.

Lemma join_split_nl s : join nl (split_nl s) = s.
Proof.
  induction s as [|c s IH]; [done|]. simpl.
  destruct (Ascii.eqb_spec c LF) as [->|Hne].
  - pose proof (split_nl_nonempty s).
    destruct (split_nl s) as [|l ls] eqn:E; [done|].
    change (join nl (EmptyString :: l :: ls)) with (EmptyString +:+ nl +:+ join nl (l :: ls)).
    by rewrite IH.
  - pose proof (split_nl_nonempty s).
    destruct (split_nl s) as [|l ls] eqn:E; [done|].
    destruct ls as [|l2 ls]; simpl in *; [by rewrite IH|].
    rewrite app_cons_s. by rewrite IH.
Qed.

Lemma flat_map_split_nl_lines ls :
  Forall (λ l, has_char LF l = false) ls → flat_map split_nl ls = ls.
Proof.
  induction 1 as [|l ls Hl _ IH]; [done|]. simpl. by rewrite split_nl_line, IH.
Qed.

Lemma split_nl_unlines ls :
  flat_map split_nl ls ++ [EmptyString] `sublist_of` split_nl (unlines ls).
Proof.
  unfold unlines. destruct ls as [|l ls].
  - simpl. by apply sublist_cons.
  - replace (join nl (l :: ls) +:+ nl) with (join nl (l :: ls) +:+ nl +:+ EmptyString)
      by by rewrite app_nil_r_s.
    rewrite split_nl_app, split_nl_join by done. reflexivity.
Qed.

(** *** Lines of [splitlines] *)

Lemma is_linebreak_LF : is_linebreak LF = true.
Proof. reflexivity. Qed.

Lemma segments_lf_only s : lf_only s = true → segments false s = split_nl s.
Proof.
  induction s as [|c s IH]; [done|]. simpl. intros [Hc Hs]%andb_true_iff.
  destruct (Ascii.eqb_spec c LF) as [->|Hne].
  - simpl. by rewrite IH.
  - rewrite orb_false_r in Hc. apply negb_true_iff in Hc. rewrite Hc. by rewrite IH.
Qed.

Lemma drop_last_empty_sublist ls : ls `sublist_of` drop_last_empty ls ++ [EmptyString].
Proof.
  induction ls as [|l ls IH]; [by apply sublist_nil_l|].
  destruct ls as [|l2 ls].
  - simpl. destruct l; simpl; [done|]. by apply sublist_skip, sublist_nil_l.
  - change (drop_last_empty (l :: l2 :: ls)) with (l :: drop_last_empty (l2 :: ls)).
    simpl. by apply sublist_skip.
Qed.

Lemma segments_nonempty b s : segments b s ≠ [].
Proof.
  revert b. induction s as [|c s IH]; intros b; [done|]. simpl.
  destruct (b && _); [apply IH|]. destruct (is_linebreak c); [done|].
  specialize (IH false). by destruct (segments false s).
Qed.

Lemma segments_single_line b s : Forall (λ l, single_line l = true) (segments b s).
Proof.
  revert b. induction s as [|c s IH]; intros b; simpl.
  - by constructor.
  - destruct (b && _); [apply IH|].
    destruct (is_linebreak c) eqn:E; [by constructor|].
    specialize (IH false). destruct (segments false s) as [|l ls].
    + repeat constructor. simpl. by rewrite E.
    + apply Forall_cons in IH as [Hl Hls]. constructor; [|done]. simpl. by rewrite E, Hl.
Qed.

Lemma drop_last_empty_Forall (P : string → Prop) ls :
  Forall P ls → Forall P (drop_last_empty ls).
Proof.
  induction 1 as [|l ls Hl Hls IH]; [done|].
  destruct ls as [|l2 ls].
  - simpl. destruct (is_empty l); by repeat constructor.
  - change (drop_last_empty (l :: l2 :: ls)) with (l :: drop_last_empty (l2 :: ls)).
    by constructor.
Qed.

Lemma splitlines_single_line s : Forall (λ l, single_line l = true) (splitlines s).
Proof. apply drop_last_empty_Forall, segments_single_line. Qed.

Lemma segments_app_line l s :
  single_line l = true → segments false (l +:+ nl +:+ s) = l :: segments false s.
Proof.
  induction l as [|c l IH]; intros H.
  - reflexivity.
  - simpl in H. apply andb_true_iff in H as [Hc Hl]. apply negb_true_iff in Hc.
    rewrite app_cons_s. simpl. rewrite Hc, IH by done. reflexivity.
Qed.

Lemma splitlines_unlines ls :
  Forall (λ l, single_line l = true) ls → ls ≠ [] → splitlines (unlines ls) = ls.
Proof.
  unfold splitlines, unlines. induction 1 as [|l ls Hl Hls IH]; [done|]. intros _.
  destruct ls as [|l2 ls].
  - simpl join. replace (l +:+ nl) with (l +:+ nl +:+ EmptyString) by by rewrite app_nil_r_s.
    rewrite segments_app_line by done. reflexivity.
  - change (join nl (l :: l2 :: ls)) with (l +:+ nl +:+ join nl (l2 :: ls)).
    rewrite !app_assoc_s, segments_app_line by done.
    specialize (IH ltac:(done)).
    pose proof (segments_nonempty false (join nl (l2 :: ls) +:+ nl)) as Hne.
    destruct (segments false (join nl (l2 :: ls) +:+ nl)) as [|x xs] eqn:E; [done|].
    change (drop_last_empty (l :: x :: xs)) with (l :: drop_last_empty (x :: xs)).
    by rewrite IH.
Qed.

(** *** The frame of an edit *)

Lemma sublist_flat_map_split_nl (ms ls : list string) :
  Forall (λ l, has_char LF l = false) ms →
  ms `sublist_of` ls → ms `sublist_of` flat_map split_nl ls.
Proof.
  intros Hms Hsub. induction Hsub as [|x ms ls Hsub IH|x ms ls Hsub IH].
  - done.
  - apply Forall_cons in Hms as [Hx Hms]. simpl. rewrite split_nl_line by done.
    simpl. apply sublist_skip. by apply IH.
  - simpl. apply sublist_inserts_l. by apply IH.
Qed.

Lemma Forall_single_line_no_lf ls :
  Forall (λ l, single_line l = true) ls → Forall (λ l, has_char LF l = false) ls.
Proof. intros H. eapply Forall_impl; [exact H|]. intros l. apply single_line_no_lf. Qed.

Lemma sublist_filter_mono {A} (P : A → Prop) `{!∀ x, Decision (P x)} (l1 l2 : list A) :
  l1 `sublist_of` l2 → filter P l1 `sublist_of` filter P l2.
Proof.
  induction 1 as [|x l1 l2 _ IH|x l1 l2 _ IH]; [done| |].
  - rewrite !filter_cons. destruct (decide (P x)); [by apply sublist_skip|done].
  - rewrite filter_cons. destruct (decide (P x)); [by apply sublist_cons|done].
Qed.

Lemma kept_refl target s : kept target s s.
Proof. unfold kept. apply sublist_filter. Qed.

(** An edit that writes back the lines [ls'] keeps the frame when the
    lines of the text that are not of the option are all among [ls']. *)
Lemma kept_unlines target s ls' :
  lf_only s = true →
  filter (λ l, target l = false) (splitlines s) `sublist_of` ls' →
  kept target s (unlines ls').
Proof.
  intros Hlf Hsub. unfold kept.
  etrans; [|apply split_nl_unlines].
  etrans.
  { apply sublist_filter_mono. rewrite <- (segments_lf_only s Hlf).
    apply drop_last_empty_sublist. }
  fold (splitlines s). rewrite filter_app. apply sublist_app.
  - apply sublist_flat_map_split_nl; [|done].
    apply Forall_forall. intros l [_ Hl]%list_elem_of_filter.
    apply single_line_no_lf.
    pose proof (splitlines_single_line s) as Hs. rewrite Forall_forall in Hs. by apply Hs.
  - rewrite filter_cons, filter_nil. by destruct (decide _); [|apply sublist_nil_l].
Qed.

Lemma filter_sublist_insert {A} (P : A → Prop) `{!∀ x, Decision (P x)} (l : list A) i x y :
  l !! i = Some x → ¬ P x → filter P l `sublist_of` <[i := y]> l.
Proof.
  intros Hi Hx. rewrite <- (take_drop_middle l i x Hi) at 1.
  rewrite insert_take_drop by (by eapply lookup_lt_Some).
  rewrite filter_app, filter_cons, decide_False by done.
  apply sublist_app; [apply sublist_filter|]. apply sublist_cons, sublist_filter.
Qed.

Lemma sublist_list_insert_at {A} (l : list A) i x :
  l `sublist_of` manage_config.list_insert_at i x l.
Proof.
  unfold manage_config.list_insert_at. rewrite <- (take_drop i l) at 1.
  apply sublist_app; [done|]. by apply sublist_cons.
Qed.

(** ** Frame of the edits *)

Section Frame.
Import manage_config.

Lemma first_index_Some test i0 lines i :
  first_index test i0 lines = Some i →
  ∃ j l, i = i0 + j ∧ lines !! j = Some l ∧ test l = true
         ∧ Forall (λ l', test l' = false) (take j lines).
Proof.
  revert i0. induction lines as [|x lines IH]; intros i0; simpl; [done|].
  destruct (test x) eqn:E.
  - intros [= <-]. exists 0, x. split; [lia|]. by repeat split.
  - intros H. destruct (IH _ H) as (j & l & -> & Hl & Ht & Hbefore).
    exists (S j), l. split; [lia|]. repeat split; [done..|]. simpl. by constructor.
Qed.

Lemma first_index_None test i0 lines :
  first_index test i0 lines = None → Forall (λ l, test l = false) lines.
Proof.
  revert i0. induction lines as [|x lines IH]; intros i0; simpl; [done|].
  destruct (test x) eqn:E; [done|]. intros H. constructor; [done|by eapply IH].
Qed.

Lemma kept_sub target (P : string → bool) (r : string → string) text :
  (∀ l, P l = true → target l = true) →
  kept target text (join nl (map (λ l, if P l then r l else l) (split_nl text))).
Proof.
  intros HP. unfold kept.
  rewrite split_nl_join
    by (pose proof (split_nl_nonempty text); by destruct (split_nl text)).
  pose proof (split_nl_no_lf text) as Hlf.
  induction Hlf as [|l ls Hl _ IH]; [done|].
  rewrite filter_cons. simpl. destruct (P l) eqn:E.
  - rewrite decide_False by (by rewrite (HP l E)). by apply sublist_inserts_l.
  - rewrite split_nl_line by done. simpl.
    destruct (decide _); [by apply sublist_skip|by apply sublist_cons].
Qed.

Lemma set_config_line_kept text option value text' changed :
  set_config_line text option value = Ok (text', changed) →
  kept (is_config_line_of ("CONFIG_" +:+ option)) text text'.
Proof.
  unfold set_config_line, re.sub.
  destruct (re.search (pattern_enabled _) text).
  { destruct (re.parse_template _) as [t|e]; [|done]. intros [= <- _].
    apply kept_sub. intros l Hl. unfold is_config_line_of. by rewrite Hl. }
  destruct (re.search (pattern_disabled _) text).
  { destruct (re.parse_template _) as [t|e]; [|done]. intros [= <- _].
    apply kept_sub. intros l Hl. unfold is_config_line_of. by rewrite Hl, orb_true_r. }
  intros [= <- _]. apply kept_refl.
Qed.

(** Replacing the first line of the option, or inserting a line. *)
Lemma kept_update test text new_line i :
  lf_only text = true →
  first_index test 0 (splitlines text) = Some i →
  kept test text (unlines (<[i := new_line]> (splitlines text))).
Proof.
  intros Hlf Hi. apply kept_unlines; [done|].
  apply first_index_Some in Hi as (j & l & -> & Hl & Ht & _). simpl.
  eapply filter_sublist_insert; [done|]. by rewrite Ht.
Qed.

Lemma kept_insert test text new_line i :
  lf_only text = true →
  kept test text (unlines (list_insert_at i new_line (splitlines text))).
Proof.
  intros Hlf. apply kept_unlines; [done|].
  etrans; [apply sublist_filter|apply sublist_list_insert_at].
Qed.

Lemma set_policy_entry_kept text option value section :
  lf_only text = true →
  kept (is_entry_of (upper option)) text (set_policy_entry text option value section).1.
Proof.
  intros Hlf. unfold set_policy_entry, find_entry.
  destruct (first_index _ 0 _) as [i|] eqn:Hi.
  - destruct (String.eqb _ _); simpl; [apply kept_refl|by apply kept_update].
  - destruct (find_insert _ _ _ _ _) as [k|]; simpl; [by apply kept_insert|].
    apply kept_unlines; [done|].
    etrans; [apply sublist_filter|by apply sublist_inserts_r].
Qed.

Lemma kept_remove test text :
  lf_only text = true →
  kept test text (unlines (filter (λ line, test line = false) (splitlines text))).
Proof. intros Hlf. by apply kept_unlines. Qed.

Lemma insert_row_kept test text heading new_row :
  lf_only text = true → kept test text (insert_row text heading new_row).1.
Proof.
  intros Hlf. unfold insert_row.
  destruct (find_row_slot _ _ _ _ _ _) as [k|]; simpl; [by apply kept_insert|apply kept_refl].
Qed.

Lemma add_readme_entry_kept text option heading opt_type desc :
  lf_only text = true →
  kept (is_row_of (backticked option)) text
    (add_readme_entry text option heading opt_type desc).1.
Proof.
  intros Hlf. unfold add_readme_entry, find_row.
  destruct (contains _ text); [|by apply insert_row_kept].
  destruct (first_index _ 0 _) as [i|] eqn:Hi; [|by apply insert_row_kept].
  destruct (String.eqb _ _); simpl; [apply kept_refl|by apply kept_update].
Qed.

End Frame.

(** Lines that a weaker test keeps. *)
Lemma sublist_filter_impl {A} (P Q : A → Prop) `{!∀ x, Decision (P x)}
    `{!∀ x, Decision (Q x)} (l : list A) :
  Forall (λ x, Q x → P x) l → filter Q l `sublist_of` filter P l.
Proof.
  induction 1 as [|x l Hx _ IH]; [done|]. rewrite !filter_cons.
  destruct (decide (Q x)) as [Hq|Hq].
  - rewrite decide_True by auto. by apply sublist_skip.
  - destruct (decide (P x)); [by apply sublist_cons|done].
Qed.

Lemma kept_weaken (P Q : string → bool) before after :
  Forall (λ l, P l = true → Q l = true) (split_nl before) →
  kept P before after → kept Q before after.
Proof.
  unfold kept. intros H Hk. etrans; [|exact Hk].
  apply sublist_filter_impl. eapply Forall_impl; [exact H|].
  intros l Hl Hq. cbv beta in Hl. destruct (P l); [|done].
  specialize (Hl eq_refl). congruence.
Qed.

(** C3, as amended.  For a text whose only line boundary is the line feed
    and an option name without line feed, every edit keeps the lines that
    its own test does not take for lines of the edited option: they are all
    in the result, byte for byte and in the same order.  For
    [set_config_line] these are the lines other than the assignment and
    the not-set comment of the option, so that the line of an option B and
    the other lines stay; for [set_policy_entry] and [remove_policy_entry]
    the lines other than the entries of the option; for [add_readme_entry]
    and [remove_readme_entry] the lines other than the table rows that
    hold the name in backticks.  When every such row is a row of the
    option itself, its first cell being the name, the README editors keep
    every line that is not a row of the option. *)
Theorem edits_keep_other_lines text option :
  lf_only text = true →
  has_char LF option = false →
  (∀ value text' changed,
     manage_config.set_config_line text option value = Ok (text', changed) →
     kept (is_config_line_of ("CONFIG_" +:+ option)) text text')
  ∧ (∀ value section,
       kept (manage_config.is_entry_of (upper option)) text
         (manage_config.set_policy_entry text option value section).1)
  ∧ kept (manage_config.is_entry_of (upper option)) text
      (manage_config.remove_policy_entry text option).1
  ∧ (∀ heading opt_type desc,
       kept (manage_config.is_row_of (manage_config.backticked option)) text
         (manage_config.add_readme_entry text option heading opt_type desc).1)
  ∧ kept (manage_config.is_row_of (manage_config.backticked option)) text
      (manage_config.remove_readme_entry text option).1
  ∧ (forallb (λ l, implb (manage_config.is_row_of (manage_config.backticked option) l)
                     (row_of option l)) (split_nl text) = true →
     (∀ heading opt_type desc,
        kept (row_of option) text
          (manage_config.add_readme_entry text option heading opt_type desc).1)
     ∧ kept (row_of option) text (manage_config.remove_readme_entry text option).1).
Proof.
  intros Hlf _. split; [intros value text' changed; apply set_config_line_kept|].
  split; [intros; by apply set_policy_entry_kept|].
  split; [by apply kept_remove|].
  split; [intros; by apply add_readme_entry_kept|].
  split; [by apply kept_remove|].
  intros Hrows.
  assert (Forall (λ l, manage_config.is_row_of (manage_config.backticked option) l = true
                       → row_of option l = true) (split_nl text)) as Hall.
  { apply Forall_forall. intros l Hl%list_elem_of_In Hrow.
    rewrite forallb_forall in Hrows. specialize (Hrows l Hl). by rewrite Hrow in Hrows. }
  split.
  - intros heading opt_type desc.
    apply (kept_weaken _ _ _ _ Hall). by apply add_readme_entry_kept.
  - apply (kept_weaken _ _ _ _ Hall). by apply kept_remove.
Qed.

Lemma edits_keep_other_lines_witness :
  kept (is_config_line_of "CONFIG_A") (text ["CONFIG_A=y"; "CONFIG_B=n"])
    (text ["CONFIG_A=m"; "CONFIG_B=n"])
  ∧ kept (manage_config.is_entry_of "A") (text ["[s]"; "A=y"; "B=n"])
      (manage_config.set_policy_entry (text ["[s]"; "A=y"; "B=n"]) "A" "m" "s").1
  ∧ kept (row_of "A") (text ["| `A` | builtin | first |"; "| `B` | module | second |"])
      (manage_config.remove_readme_entry
         (text ["| `A` | builtin | first |"; "| `B` | module | second |"]) "A").1.
Proof.
  split; [|split].
  - destruct (edits_keep_other_lines (text ["CONFIG_A=y"; "CONFIG_B=n"]) "A")
      as (H & _); [reflexivity..|].
    apply (H "m" _ true). vm_compute. reflexivity.
  - destruct (edits_keep_other_lines (text ["[s]"; "A=y"; "B=n"]) "A")
      as (_ & H & _); [reflexivity..|].
    apply (H "m" "s").
  - destruct (edits_keep_other_lines
                (text ["| `A` | builtin | first |"; "| `B` | module | second |"]) "A")
      as (_ & _ & _ & _ & _ & H); [reflexivity..|].
    apply H. reflexivity.
Defined.

(** C3, the claim as stated fails.  A policy text with a line that holds a
    form feed, which [splitlines] takes for a line boundary: setting
    USB_UAS=m rewrites that line, which is not a line of the option, into
    two empty lines. *)
Lemma set_policy_entry_drops_form_feed_line :
  manage_config.set_policy_entry
    (text ["[usb]"; "USB_UAS=y"; ff; "[net]"; "NET_FOO=y"]) "USB_UAS" "m" "usb"
  = (text ["[usb]"; "USB_UAS=m"; EmptyString; EmptyString; "[net]"; "NET_FOO=y"], true)
  ∧ ¬ kept (manage_config.is_entry_of "USB_UAS")
        (text ["[usb]"; "USB_UAS=y"; ff; "[net]"; "NET_FOO=y"])
        (manage_config.set_policy_entry
           (text ["[usb]"; "USB_UAS=y"; ff; "[net]"; "NET_FOO=y"]) "USB_UAS" "m" "usb").1.
Proof.
  split; [vm_compute; reflexivity|].
  intros H. apply (elem_of_sublist _ _ ff) in H.
  - apply list_elem_of_In in H. vm_compute in H. intuition discriminate.
  - apply list_elem_of_In. vm_compute. tauto.
Qed.

(** ** Idempotence of the edits *)

Lemma startswith_app (p s : string) : startswith (p +:+ s) p = true.
Proof.
  induction p as [|c p IH]; [by destruct s|].
  rewrite app_cons_s. simpl. by rewrite Ascii.eqb_refl, IH.
Qed.

Section Template.
Import re.

Lemma expand_lits s whole : expand (lits s) whole = s.
Proof. induction s as [|c s IH]; [done|]. simpl. by rewrite IH. Qed.

Lemma parse_template_from_plain fuel s :
  (String.length s < fuel)%nat → has_char "\"%char s = false →
  parse_template_from fuel s = Some (lits s).
Proof.
  revert s. induction fuel as [|fuel IH]; intros s Hlen Hs; [lia|].
  destruct s as [|c s]; [done|]. simpl in *.
  apply orb_false_iff in Hs as [Hc Hs]. rewrite Hc. simpl.
  rewrite IH by (done || lia). done.
Qed.

Lemma sub_plain is_match repl text :
  has_char "\"%char repl = false →
  sub is_match repl text
  = Ok (join nl (map (λ l, if is_match l then repl else l) (split_nl text))).
Proof.
  intros H. unfold sub, parse_template.
  rewrite parse_template_from_plain by (done || lia).
  f_equal. f_equal. apply map_ext. intros l. by rewrite expand_lits.
Qed.

End Template.

Section ConfigIdempotent.
Import manage_config.

Lemma split_nl_join_put P r text :
  has_char LF r = false →
  split_nl (join nl (map (put P r) (split_nl text))) = map (put P r) (split_nl text).
Proof.
  intros Hr. rewrite split_nl_join
    by (pose proof (split_nl_nonempty text); by destruct (split_nl text)).
  apply flat_map_split_nl_lines. apply Forall_fmap.
  eapply Forall_impl; [apply split_nl_no_lf|]. intros l Hl. unfold put. simpl.
  by destruct (P l).
Qed.

Lemma existsb_put P Q r ls :
  existsb P ls = true → Q r = true → existsb Q (map (put P r) ls) = true.
Proof.
  intros [l [Hin HP]]%existsb_exists HQ. apply existsb_exists.
  exists r. split; [|done]. apply in_map_iff. exists l. unfold put. by rewrite HP.
Qed.

Lemma existsb_put_false P r ls :
  P r = false → existsb P (map (put P r) ls) = false.
Proof.
  intros Hr. induction ls as [|l ls IH]; [done|]. simpl. rewrite IH, orb_false_r.
  unfold put. destruct (P l) eqn:E; done.
Qed.

Lemma map_put_id P r (ls : list string) :
  (∀ l, l ∈ ls → P l = true → l = r) → map (put P r) ls = ls.
Proof.
  intros H. induction ls as [|l ls IH]; [done|]. simpl. rewrite IH.
  - unfold put. destruct (P l) eqn:E; [|done]. f_equal. symmetry. apply H; [by left|done].
  - intros l' Hl'. apply H. by right.
Qed.

Lemma existsb_false_Forall {A} (P : A → bool) ls :
  existsb P ls = false → ∀ l, l ∈ ls → P l = false.
Proof.
  intros H l Hl. destruct (P l) eqn:E; [|done].
  assert (existsb P ls = true); [|congruence].
  apply existsb_exists. exists l. split; [by apply list_elem_of_In|done].
Qed.

Lemma set_config_line_run text option value :
  has_char "\"%char option = false → has_char "\"%char value = false →
  let key := "CONFIG_" +:+ option in
  let new_line := if String.eqb value "n" then disabled_line key
                  else key +:+ "=" +:+ value in
  set_config_line text option value
  = if re.search (pattern_enabled key) text then
      let new_text := join nl (map (put (pattern_enabled key) new_line) (split_nl text)) in
      Ok (new_text, negb (String.eqb new_text text))
    else if re.search (pattern_disabled key) text then
      let new_text := join nl (map (put (pattern_disabled key) new_line) (split_nl text)) in
      Ok (new_text, negb (String.eqb new_text text))
    else Ok (text, false).
Proof.
  intros Ho Hv key new_line. unfold set_config_line. fold key. fold new_line.
  assert (Hn : has_char "\"%char new_line = false).
  { subst new_line key. unfold disabled_line.
    destruct (String.eqb value "n"); rewrite !has_char_app, Ho, ?Hv; reflexivity. }
  rewrite !sub_plain by done. reflexivity.
Qed.

Lemma set_config_line_idempotent text option value text' changed :
  has_char "\"%char option = false → has_char LF option = false →
  has_char "\"%char value = false → has_char LF value = false →
  set_config_line text option value = Ok (text', changed) →
  set_config_line text' option value = Ok (text', false).
Proof.
  intros Ho Ho' Hv Hv'. rewrite !set_config_line_run by done. cbv zeta.
  set (key := "CONFIG_" +:+ option).
  set (new_line := if String.eqb value "n" then disabled_line key else key +:+ "=" +:+ value).
  assert (Hlf : has_char LF new_line = false).
  { subst new_line key. unfold disabled_line.
    destruct (String.eqb value "n"); rewrite !has_char_app, Ho', ?Hv'; reflexivity. }
  assert (Hcase : (pattern_enabled key new_line = false
                   ∧ pattern_disabled key new_line = true ∧ new_line = disabled_line key)
                  ∨ pattern_enabled key new_line = true).
  { subst new_line. destruct (String.eqb value "n").
    - left. split; [reflexivity|]. split; [apply String.eqb_refl|done].
    - right. unfold pattern_enabled, enabled_prefix. rewrite <- app_assoc_s.
      apply startswith_app. }
  assert (Hdis : ∀ l, pattern_disabled key l = true → l = disabled_line key).
  { intros l. unfold pattern_disabled. by intros ?%String.eqb_eq. }
  unfold re.search.
  destruct (existsb (pattern_enabled key) (split_nl text)) eqn:E1.
  - intros [= <- _]. rewrite split_nl_join_put by done.
    destruct Hcase as [(He & Hd & Heq)|He].
    + rewrite existsb_put_false by done.
      rewrite (existsb_put _ _ _ _ E1 Hd).
      rewrite (map_put_id (pattern_disabled key)), String.eqb_refl; [done|].
      intros l _ Hl. rewrite Heq. by apply Hdis.
    + rewrite (existsb_put _ _ _ _ E1 He).
      rewrite (map_put_id (pattern_enabled key)), String.eqb_refl; [done|].
      intros l [l0 [-> _]]%list_elem_of_fmap Hl. unfold put in *.
      destruct (pattern_enabled key l0) eqn:E0; [done|congruence].
  - destruct (existsb (pattern_disabled key) (split_nl text)) eqn:E2.
    + intros [= <- _]. rewrite split_nl_join_put by done.
      destruct Hcase as [(He & Hd & Heq)|He].
      * rewrite (map_put_id (pattern_disabled key) new_line (split_nl text))
          by (intros l _ Hl; rewrite Heq; by apply Hdis).
        rewrite join_split_nl, E1, E2.
        rewrite (map_put_id (pattern_disabled key) new_line (split_nl text))
          by (intros l _ Hl; rewrite Heq; by apply Hdis).
        by rewrite join_split_nl, String.eqb_refl.
      * rewrite (existsb_put _ _ _ _ E2 He).
        rewrite (map_put_id (pattern_enabled key)), String.eqb_refl; [done|].
        intros l [l0 [-> Hl0]]%list_elem_of_fmap Hl. unfold put in *.
        destruct (pattern_disabled key l0) eqn:E0; [done|].
        by rewrite (existsb_false_Forall _ _ E1 l0 Hl0) in Hl.
    + intros [= <- _]. by rewrite E1, E2.
Qed.

End ConfigIdempotent.

(** *** White space and case *)

Lemma length_lstrip s : (String.length (lstrip s) <= String.length s)%nat.
Proof. induction s as [|c s IH]; simpl; [lia|]. destruct (is_space c); simpl; lia. Qed.

Lemma length_rstrip s : (String.length (rstrip s) <= String.length s)%nat.
Proof.
  induction s as [|c s IH]; simpl; [lia|].
  destruct (is_empty (rstrip s) && is_space c); simpl; lia.
Qed.

Lemma lstrip_cons c s : is_space c = false → lstrip (String c s) = String c s.
Proof. intros H. simpl. by rewrite H. Qed.

Lemma rstrip_cons c s : is_space c = false → rstrip (String c s) = String c (rstrip s).
Proof. intros H. simpl. by rewrite H, andb_false_r. Qed.

Lemma rstrip_app s t : rstrip t ≠ EmptyString → rstrip (s +:+ t) = s +:+ rstrip t.
Proof.
  intros Ht. induction s as [|c s IH]; [done|].
  rewrite !app_cons_s. simpl. rewrite IH.
  destruct (s +:+ rstrip t) eqn:E; [|done].
  destruct s; [|done]. by rewrite app_nil_l_s in E.
Qed.

Lemma strip_fixed s :
  strip s = s → lstrip s = s ∧ rstrip s = s.
Proof.
  intros H. assert (Hl : lstrip s = s).
  { destruct s as [|c s]; [done|]. simpl. destruct (is_space c) eqn:E; [|done].
    exfalso. assert (Hlen : String.length (strip (String c s)) = S (String.length s))
      by by rewrite H.
    unfold strip in Hlen. simpl in Hlen. rewrite E in Hlen.
    pose proof (length_rstrip (lstrip s)). pose proof (length_lstrip s). lia. }
  split; [done|]. unfold strip in H. by rewrite Hl in H.
Qed.

Lemma lstrip_fixed_app s t :
  lstrip s = s → s ≠ EmptyString → lstrip (s +:+ t) = s +:+ t.
Proof.
  destruct s as [|c s]; [done|]. intros H _. rewrite app_cons_s.
  simpl in *. destruct (is_space c) eqn:E; [|done].
  exfalso. assert (Hlen : String.length (lstrip s) = S (String.length s)) by by rewrite H.
  pose proof (length_lstrip s). lia.
Qed.

Lemma upper_char_idem c : upper_char (upper_char c) = upper_char c.
Proof. by destruct c as [[] [] [] [] [] [] [] []]. Qed.

Lemma upper_idem s : upper (upper s) = upper s.
Proof.
  unfold upper. induction s as [|c s IH]; [done|]. simpl. by rewrite upper_char_idem, IH.
Qed.

Lemma is_space_upper_char c : is_space (upper_char c) = is_space c.
Proof. by destruct c as [[] [] [] [] [] [] [] []]. Qed.

Lemma is_linebreak_upper_char c : is_linebreak (upper_char c) = is_linebreak c.
Proof. by destruct c as [[] [] [] [] [] [] [] []]. Qed.

Lemma upper_char_eqb c d :
  upper_char d = d → (d = "="%char ∨ d = "#"%char ∨ d = "["%char) →
  Ascii.eqb (upper_char c) d = Ascii.eqb c d.
Proof.
  intros _ [->|[->| ->]]; by destruct c as [[] [] [] [] [] [] [] []].
Qed.

Lemma single_line_upper s : single_line (upper s) = single_line s.
Proof.
  unfold upper. induction s as [|c s IH]; [done|]. simpl.
  by rewrite is_linebreak_upper_char, IH.
Qed.

Lemma lstrip_upper s : lstrip (upper s) = upper (lstrip s).
Proof.
  unfold upper. induction s as [|c s IH]; [done|]. simpl.
  rewrite is_space_upper_char. by destruct (is_space c).
Qed.

Lemma is_empty_upper s : is_empty (upper s) = is_empty s.
Proof. by destruct s. Qed.

Lemma rstrip_upper s : rstrip (upper s) = upper (rstrip s).
Proof.
  unfold upper. induction s as [|c s IH]; [done|]. simpl.
  rewrite IH, is_space_upper_char. fold (upper (rstrip s)). rewrite is_empty_upper.
  by destruct (is_empty (rstrip s) && is_space c).
Qed.

Lemma strip_upper s : strip (upper s) = upper (strip s).
Proof. unfold strip. by rewrite lstrip_upper, rstrip_upper. Qed.

Lemma has_char_upper s d :
  (d = "="%char ∨ d = "#"%char ∨ d = "["%char) → has_char d (upper s) = has_char d s.
Proof.
  intros Hd. unfold upper. induction s as [|c s IH]; [done|]. simpl. rewrite IH.
  f_equal. apply upper_char_eqb; [|done]. by destruct Hd as [->|[->| ->]].
Qed.

Lemma startswith_nil s : startswith s EmptyString = true.
Proof. by destruct s. Qed.

Lemma startswith_char_upper s d :
  (d = "="%char ∨ d = "#"%char ∨ d = "["%char) →
  startswith (upper s) (String d EmptyString) = startswith s (String d EmptyString).
Proof.
  intros Hd. destruct s as [|c s]; [done|]. simpl. rewrite !startswith_nil, !andb_true_r.
  rewrite !(Ascii.eqb_sym d).
  apply upper_char_eqb; [|done]. by destruct Hd as [->|[->| ->]].
Qed.

(** *** Parts of a string *)

Lemma partition_app c a b :
  has_char c a = false → partition c (a +:+ String c b) = Some (a, b).
Proof.
  induction a as [|x a IH]; intros H.
  - rewrite app_nil_l_s. simpl. by rewrite Ascii.eqb_refl.
  - simpl in H. apply orb_false_iff in H as [Hx Ha].
    rewrite app_cons_s. simpl. rewrite Hx, IH by done. done.
Qed.

Lemma startswith_app_l s t p : startswith s p = true → startswith (s +:+ t) p = true.
Proof.
  revert s. induction p as [|c p IH]; intros s; [intros _; apply startswith_nil|].
  destruct s as [|d s]; [done|]. rewrite app_cons_s. simpl.
  intros [-> H]%andb_true_iff. simpl. by apply IH.
Qed.

Lemma startswith_nonempty_app s t c :
  s ≠ EmptyString →
  startswith (s +:+ t) (String c EmptyString) = startswith s (String c EmptyString).
Proof.
  destruct s as [|a s]; [done|]. intros _. rewrite app_cons_s. simpl.
  by rewrite !startswith_nil.
Qed.

Lemma contains_app_l k s t : contains k s = true → contains k (s +:+ t) = true.
Proof.
  induction s as [|c s IH].
  - simpl. rewrite orb_false_r. destruct k; [|done]. intros _.
    rewrite app_nil_l_s. destruct t; simpl; by rewrite ?startswith_nil.
  - rewrite app_cons_s. cbn [contains]. intros [H|H]%orb_true_iff.
    + change (String c (s +:+ t)) with (String c s +:+ t).
      by rewrite (startswith_app_l _ _ _ H).
    + by rewrite (IH H), orb_true_r.
Qed.

Lemma contains_app_r k s t : contains k t = true → contains k (s +:+ t) = true.
Proof.
  intros H. induction s as [|c s IH]; [done|].
  rewrite app_cons_s. cbn [contains]. by rewrite IH, orb_true_r.
Qed.

Lemma contains_startswith k s : startswith s k = true → contains k s = true.
Proof. destruct s; simpl; by intros ->. Qed.

Lemma contains_self_app k t : contains k (k +:+ t) = true.
Proof. apply contains_startswith, startswith_app. Qed.

Lemma contains_join k l ls :
  l ∈ ls → contains k l = true → contains k (join nl ls) = true.
Proof.
  intros Hin Hk. induction ls as [|x ls IH]; [by apply elem_of_nil in Hin|].
  destruct ls as [|y ls].
  - apply list_elem_of_singleton in Hin as ->. done.
  - change (join nl (x :: y :: ls)) with (x +:+ nl +:+ join nl (y :: ls)).
    apply elem_of_cons in Hin as [->|Hin].
    + by apply contains_app_l.
    + apply contains_app_r, contains_app_r. by apply IH.
Qed.

Lemma contains_unlines k l ls :
  l ∈ ls → contains k l = true → contains k (unlines ls) = true.
Proof. intros. unfold unlines. apply contains_app_l. by eapply contains_join. Qed.

(** Every piece of [splitlines] is a part of the text. *)
Lemma segments_head b s x xs :
  segments b s = x :: xs → ∃ pre post, s = pre +:+ x +:+ post ∧ (b = false → pre = EmptyString).
Proof.
  revert b x xs. induction s as [|c s IH]; intros b x xs; simpl.
  - intros [= <- <-]. by exists EmptyString, EmptyString.
  - destruct (b && _) eqn:Eb.
    { intros (pre & post & -> & Hpre)%IH. rewrite (Hpre eq_refl).
      exists (String c EmptyString), post. split; [done|].
      intros ->. done. }
    destruct (is_linebreak c).
    + intros [= <- <-]. by exists EmptyString, (String c s).
    + pose proof (segments_nonempty false s) as Hne.
      destruct (segments false s) as [|y ys] eqn:E; [done|]. simpl.
      intros [= <- <-]. destruct (IH false y ys E) as (pre & post & -> & Hpre).
      rewrite (Hpre eq_refl). by exists EmptyString, post.
Qed.

Lemma segments_part b s l :
  l ∈ segments b s → ∃ pre post, s = pre +:+ l +:+ post.
Proof.
  revert b l. induction s as [|c s IH]; intros b l; simpl.
  - intros ->%list_elem_of_singleton. by exists EmptyString, EmptyString.
  - destruct (b && _).
    { intros (pre & post & ->)%IH. by exists (String c pre), post. }
    destruct (is_linebreak c).
    + intros [->|H]%elem_of_cons.
      * by exists EmptyString, (String c s).
      * apply IH in H as (pre & post & ->). by exists (String c pre), post.
    + pose proof (segments_nonempty false s) as Hne.
      destruct (segments false s) as [|x xs] eqn:E; [done|]. simpl.
      intros [->|H]%elem_of_cons.
      * destruct (segments_head false s x xs E) as (pre & post & -> & Hpre).
        rewrite (Hpre eq_refl). by exists EmptyString, post.
      * destruct (IH false l) as (pre & post & ->); [rewrite E; by right|].
        by exists (String c pre), post.
Qed.

Lemma elem_of_drop_last_empty l ls : l ∈ drop_last_empty ls → l ∈ ls.
Proof.
  induction ls as [|x ls IH]; [done|]. destruct ls as [|y ls].
  - simpl. destruct (is_empty x); [by intros ?%elem_of_nil|done].
  - change (drop_last_empty (x :: y :: ls)) with (x :: drop_last_empty (y :: ls)).
    intros [->|H]%elem_of_cons; [by left|right; by apply IH].
Qed.

Lemma contains_splitlines k s l :
  l ∈ splitlines s → contains k l = true → contains k s = true.
Proof.
  intros (pre & post & ->)%elem_of_drop_last_empty%segments_part Hk.
  by apply contains_app_r, contains_app_l.
Qed.

(** *** Writing lines back *)

Lemma unlines_text ls : ls ≠ [] → unlines ls = text ls.
Proof.
  unfold unlines. induction ls as [|l ls IH]; [done|]. intros _.
  destruct ls as [|l2 ls].
  - simpl. by rewrite app_nil_r_s.
  - change (join nl (l :: l2 :: ls)) with (l +:+ nl +:+ join nl (l2 :: ls)).
    rewrite !app_assoc_s, IH by done. reflexivity.
Qed.

Lemma text_app ls ms : text (ls ++ ms) = text ls +:+ text ms.
Proof.
  induction ls as [|l ls IH]; [done|]. simpl. by rewrite IH, !app_assoc_s.
Qed.

Lemma unlines_new_section ls header entry :
  unlines (ls ++ [nl +:+ header; entry]) = unlines (ls ++ [EmptyString; header; entry]).
Proof.
  rewrite !unlines_text by (by destruct ls). rewrite !text_app. by f_equal.
Qed.

Section WriteBack.
Import manage_config.

Lemma first_index_app test i0 pre x post :
  Forall (λ l, test l = false) pre → test x = true →
  first_index test i0 (pre ++ x :: post) = Some (i0 + length pre).
Proof.
  intros Hpre Hx. revert i0. induction Hpre as [|l pre Hl _ IH]; intros i0; simpl.
  - rewrite Hx. f_equal. lia.
  - rewrite Hl, IH. f_equal. lia.
Qed.

Lemma strip_cons c s : is_space c = false → strip (String c s) = String c (rstrip s).
Proof. intros H. unfold strip. by rewrite lstrip_cons, rstrip_cons. Qed.

(** **** The policy entry *)

Section Policy.
Variables (option value section : string).
Hypothesis Hname : plain_name option = true.
Hypothesis Hvalue : plain_value value = true.
Hypothesis Hsection : single_line section = true.

Let bare := upper option.
Let new_entry := bare +:+ "=" +:+ value.

Local Lemma name_facts :
  single_line bare = true ∧ strip bare = bare ∧ has_char "="%char bare = false
  ∧ startswith bare "#" = false ∧ startswith bare "[" = false.
Proof.
  unfold plain_name in Hname.
  repeat (apply andb_true_iff in Hname as [Hname ?]).
  subst bare. rewrite single_line_upper, strip_upper, has_char_upper by eauto.
  rewrite !startswith_char_upper by eauto.
  repeat split; try by apply negb_true_iff.
  - done.
  - f_equal. by apply String.eqb_eq.
Qed.

Local Lemma value_facts : single_line value = true ∧ rstrip value = value.
Proof.
  unfold plain_value in Hvalue.
  repeat (apply andb_true_iff in Hvalue as [Hvalue ?]).
  split; [done|]. by apply String.eqb_eq.
Qed.

Local Lemma new_entry_single_line : single_line new_entry = true.
Proof.
  destruct name_facts as (H1 & _). destruct value_facts as (H2 & _).
  subst new_entry. by rewrite !single_line_app, H1, H2.
Qed.

Local Lemma new_entry_stripped : strip new_entry = new_entry.
Proof.
  destruct name_facts as (_ & [Hl Hr]%strip_fixed & _).
  destruct value_facts as (_ & Hv).
  subst new_entry. unfold strip.
  assert (lstrip (bare +:+ "=" +:+ value) = bare +:+ "=" +:+ value) as ->.
  { destruct (decide (bare = EmptyString)) as [->|Hne]; [done|].
    by apply lstrip_fixed_app. }
  change (bare +:+ "=" +:+ value) with (bare +:+ String "="%char value).
  assert (rstrip (String "="%char value) = String "="%char value) as Hr'
    by (by rewrite rstrip_cons, Hv).
  rewrite rstrip_app; by rewrite Hr'.
Qed.

Local Lemma new_entry_is_entry : is_entry_of bare new_entry = true.
Proof.
  destruct name_facts as (_ & Hs & He & Hc & Hb).
  unfold is_entry_of. rewrite new_entry_stripped. subst new_entry.
  change (bare +:+ "=" +:+ value) with (bare +:+ String "="%char value).
  rewrite has_char_app. cbn [has_char]. rewrite Ascii.eqb_refl, orb_true_r.
  assert (∀ c, startswith bare (String c EmptyString) = false →
               Ascii.eqb c "="%char = false →
               startswith (bare +:+ String "="%char value) (String c EmptyString) = false)
    as Hst.
  { intros c Hc' Hne. destruct (decide (bare = EmptyString)) as [E|Hn].
    - rewrite E, app_nil_l_s. simpl. by rewrite Hne.
    - by rewrite startswith_nonempty_app. }
  rewrite !Hst by done. simpl.
  unfold before. rewrite partition_app by done. rewrite Hs. subst bare.
  rewrite upper_idem. apply String.eqb_refl.
Qed.

Local Lemma rerun_policy pre post :
  Forall (λ l, single_line l = true) (pre ++ new_entry :: post) →
  Forall (λ l, is_entry_of bare l = false) pre →
  set_policy_entry (unlines (pre ++ new_entry :: post)) option value section
  = (unlines (pre ++ new_entry :: post), false).
Proof.
  intros Hsl Hpre. unfold set_policy_entry, find_entry. fold bare. fold new_entry.
  rewrite splitlines_unlines by (done || by destruct pre).
  rewrite first_index_app by (done || apply new_entry_is_entry).
  simpl. rewrite list_lookup_middle by done. simpl.
  by rewrite new_entry_stripped, String.eqb_refl.
Qed.

Lemma set_policy_entry_idempotent text :
  set_policy_entry (set_policy_entry text option value section).1 option value section
  = ((set_policy_entry text option value section).1, false).
Proof.
  pose proof (splitlines_single_line text) as Hlines.
  unfold set_policy_entry at 2 3. unfold find_entry. fold bare. fold new_entry.
  destruct (first_index (is_entry_of bare) 0 (splitlines text)) as [i|] eqn:Hi.
  - destruct (String.eqb _ new_entry) eqn:Heq; cbn [fst].
    + unfold set_policy_entry, find_entry. fold bare. fold new_entry.
      by rewrite Hi, Heq.
    + apply first_index_Some in Hi as (j & l & -> & Hl & _ & Hbefore). simpl.
      rewrite insert_take_drop by (by eapply lookup_lt_Some).
      apply rerun_policy; [|done].
      apply Forall_app. split; [by apply Forall_take|].
      constructor; [apply new_entry_single_line|by apply Forall_drop].
  - apply first_index_None in Hi.
    destruct (find_insert _ _ _ _ _) as [k|]; cbn [fst].
    + unfold list_insert_at. apply rerun_policy; [|by apply Forall_take].
      apply Forall_app. split; [by apply Forall_take|].
      constructor; [apply new_entry_single_line|by apply Forall_drop].
    + rewrite unlines_new_section.
      change (splitlines text ++ [EmptyString; "[" +:+ section +:+ "]"; new_entry])
        with (splitlines text ++ [EmptyString; "[" +:+ section +:+ "]"] ++ new_entry :: []).
      rewrite app_assoc. apply rerun_policy.
      * rewrite <- app_assoc. apply Forall_app. split; [done|].
        repeat constructor; [|apply new_entry_single_line].
        by rewrite !single_line_app, Hsection.
      * apply Forall_app. split; [done|]. repeat constructor.
        unfold is_entry_of. change ("[" +:+ section +:+ "]")
          with (String "["%char (section +:+ "]")).
        rewrite strip_cons by done. simpl. by rewrite startswith_nil, !andb_false_r.
Qed.
End Policy.

(** **** The README row *)

Section Readme.
Variables (option heading opt_type desc : string).
Hypothesis Hoption : single_line option = true.
Hypothesis Htype : single_line opt_type = true.
Hypothesis Hdesc : single_line desc = true.

Let key := backticked option.
Let new_row := "| `" +:+ option +:+ "` | " +:+ opt_type +:+ " | " +:+ desc +:+ " |".

Local Lemma new_row_single_line : single_line new_row = true.
Proof. subst new_row. by rewrite !single_line_app, Hoption, Htype, Hdesc. Qed.

Local Lemma new_row_stripped : strip new_row = new_row.
Proof.
  subst new_row.
  change ("| `" +:+ option +:+ "` | " +:+ opt_type +:+ " | " +:+ desc +:+ " |")
    with (String "|"%char (" `" +:+ option +:+ "` | " +:+ opt_type +:+ " | " +:+ desc +:+ " |")).
  rewrite strip_cons by done. f_equal.
  rewrite <- !app_assoc_s. by rewrite rstrip_app.
Qed.

Local Lemma new_row_has_key : contains key new_row = true.
Proof.
  subst new_row key. unfold backticked.
  change ("| `" +:+ option +:+ "` | " +:+ opt_type +:+ " | " +:+ desc +:+ " |")
    with ("| " +:+ "`" +:+ option +:+ "`" +:+ " | " +:+ opt_type +:+ " | " +:+ desc +:+ " |").
  apply contains_app_r.
  set (rest := " | " +:+ opt_type +:+ " | " +:+ desc +:+ " |").
  replace ("`" +:+ option +:+ "`" +:+ rest) with (("`" +:+ option +:+ "`") +:+ rest)
    by (by rewrite !app_assoc_s).
  apply contains_self_app.
Qed.

Local Lemma new_row_is_row : is_row_of key new_row = true.
Proof. unfold is_row_of. by rewrite new_row_has_key. Qed.

Local Lemma rerun_readme pre post :
  Forall (λ l, single_line l = true) (pre ++ new_row :: post) →
  Forall (λ l, is_row_of key l = false) pre →
  add_readme_entry (unlines (pre ++ new_row :: post)) option heading opt_type desc
  = (unlines (pre ++ new_row :: post), false).
Proof.
  intros Hsl Hpre. unfold add_readme_entry, find_row. fold key. fold new_row.
  rewrite (contains_unlines key new_row)
    by (apply new_row_has_key || (apply elem_of_app; right; by left)).
  rewrite splitlines_unlines by (done || by destruct pre).
  rewrite first_index_app by (done || apply new_row_is_row).
  simpl. rewrite list_lookup_middle by done. simpl.
  by rewrite new_row_stripped, String.eqb_refl.
Qed.

Local Lemma rerun_insert_row text :
  Forall (λ l, is_row_of key l = false) (splitlines text) →
  add_readme_entry text option heading opt_type desc = insert_row text heading new_row →
  add_readme_entry (insert_row text heading new_row).1 option heading opt_type desc
  = ((insert_row text heading new_row).1, false).
Proof.
  intros Hrows Hsame. pose proof (splitlines_single_line text) as Hlines.
  unfold insert_row at 1 2.
  destruct (find_row_slot _ _ _ _ _ _) as [k|] eqn:Hk; cbn [fst].
  - unfold list_insert_at. apply rerun_readme; [|by apply Forall_take].
    apply Forall_app. split; [by apply Forall_take|].
    constructor; [apply new_row_single_line|by apply Forall_drop].
  - rewrite Hsame. unfold insert_row. by rewrite Hk.
Qed.

Lemma add_readme_entry_idempotent text :
  add_readme_entry (add_readme_entry text option heading opt_type desc).1
    option heading opt_type desc
  = ((add_readme_entry text option heading opt_type desc).1, false).
Proof.
  pose proof (splitlines_single_line text) as Hlines.
  destruct (contains key text) eqn:Hc.
  - destruct (find_row key (splitlines text)) as [i|] eqn:Hi.
    + destruct (String.eqb (strip (default EmptyString (splitlines text !! i))) new_row)
        eqn:Heq.
      * assert (add_readme_entry text option heading opt_type desc = (text, false)) as Hrun.
        { unfold add_readme_entry. fold key. fold new_row. by rewrite Hc, Hi, Heq. }
        by rewrite !Hrun.
      * assert (add_readme_entry text option heading opt_type desc
                = (unlines (<[i := new_row]> (splitlines text)), true)) as Hrun.
        { unfold add_readme_entry. fold key. fold new_row. by rewrite Hc, Hi, Heq. }
        rewrite !Hrun. cbn [fst].
        unfold find_row in Hi.
        apply first_index_Some in Hi as (j & l & -> & Hl & _ & Hbefore). simpl.
        rewrite insert_take_drop by (by eapply lookup_lt_Some).
        apply rerun_readme; [|done].
        apply Forall_app. split; [by apply Forall_take|].
        constructor; [apply new_row_single_line|by apply Forall_drop].
    + assert (add_readme_entry text option heading opt_type desc
              = insert_row text heading new_row) as Hrun.
      { unfold add_readme_entry. fold key. fold new_row. by rewrite Hc, Hi. }
      rewrite !Hrun. apply rerun_insert_row; [|done].
      by apply first_index_None in Hi.
  - assert (add_readme_entry text option heading opt_type desc
            = insert_row text heading new_row) as Hrun.
    { unfold add_readme_entry. fold key. fold new_row. by rewrite Hc. }
    rewrite !Hrun. apply rerun_insert_row; [|done].
    apply Forall_forall. intros l Hl. unfold is_row_of.
    destruct (contains key l) eqn:E; [|done].
    by rewrite (contains_splitlines key text l Hl E) in Hc.
Qed.
End Readme.

End WriteBack.

(** ** Setting twice *)

Lemma bind_Ok_inv {A B} (m : M A) (k : A → M B) w b w' :
  bind m k w = (Ok b, w') → ∃ a w0, m w = (Ok a, w0) ∧ k a w0 = (Ok b, w').
Proof.
  unfold bind. destruct (m w) as [[a|e] w0]; [|done]. intros H. by exists a, w0.
Qed.

(** *** Universal newlines *)

Lemma universal_newlines_no_cr b s : has_char CR (universal_newlines b s) = false.
Proof.
  revert b. induction s as [|c s IH]; intros b; [done|]. simpl.
  destruct (b && _); [apply IH|].
  destruct (Ascii.eqb c CR) eqn:E; simpl; [apply IH|]. by rewrite E, IH.
Qed.

Lemma universal_newlines_id s :
  has_char CR s = false → universal_newlines false s = s.
Proof.
  induction s as [|c s IH]; [done|]. simpl. intros [Hc Hs]%orb_false_iff.
  by rewrite Hc, IH.
Qed.

Lemma single_line_no_cr s : single_line s = true → has_char CR s = false.
Proof.
  induction s as [|a s IH]; [done|]. simpl. intros [Ha Hs]%andb_true_iff.
  rewrite IH by done. rewrite orb_false_r.
  destruct (Ascii.eqb_spec a CR) as [->|]; [done|done].
Qed.

Lemma has_char_join c ls :
  has_char c nl = false → Forall (λ l, has_char c l = false) ls →
  has_char c (join nl ls) = false.
Proof.
  intros Hnl. induction 1 as [|l ls Hl Hls IH]; [done|].
  destruct ls as [|l2 ls]; [done|].
  change (join nl (l :: l2 :: ls)) with (l +:+ nl +:+ join nl (l2 :: ls)).
  by rewrite !has_char_app, Hl, Hnl, IH.
Qed.

Lemma has_char_unlines c ls :
  has_char c nl = false → Forall (λ l, has_char c l = false) ls →
  has_char c (unlines ls) = false.
Proof.
  intros Hnl Hls. unfold unlines. by rewrite has_char_app, has_char_join, Hnl.
Qed.

Lemma split_nl_no_char c s :
  has_char c s = false → Forall (λ l, has_char c l = false) (split_nl s).
Proof.
  induction s as [|a s IH]; [by repeat constructor|]. simpl.
  intros [Ha Hs]%orb_false_iff. specialize (IH Hs).
  destruct (Ascii.eqb a LF); [by constructor|].
  destruct (split_nl s) as [|l ls]; [repeat constructor; simpl; by rewrite Ha|].
  apply Forall_cons in IH as [Hl Hls]. constructor; [|done]. simpl. by rewrite Ha, Hl.
Qed.

(** *** The writes of a plan *)

Lemma apply_changes_lookup changes fs p t :
  (∀ c, c ∈ changes → change_path c = p → change_text c = t) →
  apply_changes changes fs !! p
  = if existsb (λ c, String.eqb (change_path c) p) changes then Some t else fs !! p.
Proof.
  unfold apply_changes. revert fs. induction changes as [|c changes IH]; intros fs H; [done|].
  simpl. rewrite IH by (intros c' Hc'; apply H; by right).
  destruct (existsb _ changes); [by rewrite orb_true_r|]. rewrite orb_false_r.
  destruct (String.eqb_spec (change_path c) p) as [<-|Hne].
  - rewrite lookup_insert_eq. f_equal. apply H; [by left|done].
  - by rewrite lookup_insert_ne.
Qed.

Lemma existsb_path changes p :
  existsb (λ c, String.eqb (change_path c) p) changes = true
  ↔ ∃ c, c ∈ changes ∧ change_path c = p.
Proof.
  rewrite existsb_exists. split.
  - intros (c & Hc & ?%String.eqb_eq). exists c. by rewrite list_elem_of_In.
  - intros (c & Hc & <-). exists c. rewrite <- list_elem_of_In. split; [done|].
    apply String.eqb_refl.
Qed.

(** A file that the first run edited holds, after the writes, a text on
    which the edit changes nothing. *)
Lemma settled_after (e : edit) changes fs p :
  settles e →
  (∀ c, c ∈ changes → change_path c = p → from_edit fs e c) →
  edited fs e changes p →
  settled (apply_changes changes fs) e p.
Proof.
  intros Hsettles Hfrom (raw & t & ch & Hraw & He & Hch).
  assert (Hsame : ∀ c, c ∈ changes → change_path c = p → change_text c = t ∧ ch = true).
  { intros c Hc Hp. destruct (Hfrom c Hc Hp) as (raw' & Hraw' & He').
    rewrite Hp, Hraw in Hraw'. injection Hraw' as <-. rewrite He in He'.
    by injection He' as -> ->. }
  unfold settled. rewrite (apply_changes_lookup changes fs p t)
    by (intros c Hc Hp; by apply Hsame).
  destruct (existsb _ changes) eqn:Ex.
  - apply existsb_path in Ex as (c & Hc & Hp). destruct (Hsame c Hc Hp) as [_ ->].
    exists t, t. split; [done|]. by eapply Hsettles.
  - exists raw, t. split; [done|]. destruct ch; [|done].
    destruct (Hch eq_refl) as (desc & Hin).
    assert (existsb (λ c, String.eqb (change_path c) p) changes = true); [|congruence].
    apply existsb_path. by exists (p, desc, t).
Qed.

Lemma apply_changes_dom changes fs p :
  (∀ c, c ∈ changes → is_Some (fs !! change_path c)) →
  is_Some (apply_changes changes fs !! p) ↔ is_Some (fs !! p).
Proof.
  unfold apply_changes. revert fs. induction changes as [|c changes IH]; intros fs H; [done|].
  simpl. rewrite IH.
  - destruct (decide (change_path c = p)) as [<-|Hne].
    + rewrite lookup_insert_eq. split; [intros _; apply H; by left|eauto].
    + by rewrite lookup_insert_ne.
  - intros c' Hc'. destruct (decide (change_path c = change_path c')) as [<-|Hne].
    + rewrite lookup_insert_eq. eauto.
    + rewrite lookup_insert_ne by done. apply H. by right.
Qed.

(** *** The loops of the plan *)

Lemma edited_mono fs e changes changes' p :
  edited fs e changes p → (∀ c, c ∈ changes → c ∈ changes') → edited fs e changes' p.
Proof.
  intros (raw & t & ch & Hraw & He & Hch) Hsub. exists raw, t, ch.
  split; [done|]. split; [done|]. intros Ht. destruct (Hch Ht) as (d & Hd). eauto.
Qed.

(** The first run of a loop: what it appends comes from the edit, and it
    records what the edit found in each file. *)
Lemma plan_loop_first (e : edit) (may_miss : bool)
    (body : list manage_config.change → string → M (list manage_config.change)) paths :
  (∀ changes p w changes' w',
     body changes p w = (Ok changes', w') →
     files w' = files w
     ∧ ∃ extra, changes' = changes ++ extra
         ∧ (∀ c, c ∈ extra → change_path c = p ∧ from_edit (files w) e c)
         ∧ ((may_miss = true ∧ files w !! p = None) ∨ edited (files w) e extra p)) →
  ∀ changes w changes' w',
    for_each paths body changes w = (Ok changes', w') →
    files w' = files w
    ∧ ∃ extra, changes' = changes ++ extra
        ∧ (∀ c, c ∈ extra → change_path c ∈ paths ∧ from_edit (files w) e c)
        ∧ (∀ p, p ∈ paths →
             (may_miss = true ∧ files w !! p = None) ∨ edited (files w) e extra p).
Proof.
  intros Hbody. induction paths as [|p paths IH]; intros changes w changes' w'; simpl.
  - intros [= <- <-]. split; [done|]. exists []. rewrite app_nil_r.
    split; [done|]. split; intros ? H; by apply elem_of_nil in H.
  - intros (c1 & w1 & H1 & H2)%bind_Ok_inv.
    apply Hbody in H1 as (Hf1 & extra1 & -> & Hfrom1 & Hed1).
    apply IH in H2 as (Hf2 & extra2 & -> & Hfrom2 & Hed2).
    rewrite Hf1 in *. split; [done|]. exists (extra1 ++ extra2).
    split; [by rewrite app_assoc|]. split.
    + intros c [Hc|Hc]%elem_of_app.
      * destruct (Hfrom1 c Hc) as [<- ?]. split; [by left|done].
      * destruct (Hfrom2 c Hc) as [? ?]. split; [by right|done].
    + intros q [->|Hq]%elem_of_cons.
      * destruct Hed1 as [?|Hed1]; [by left|right].
        eapply edited_mono; [done|]. intros c Hc. apply elem_of_app. by left.
      * destruct (Hed2 q Hq) as [?|Hed]; [by left|right].
        eapply edited_mono; [done|]. intros c Hc. apply elem_of_app. by right.
Qed.

(** The second run of a loop: nothing is appended when every file is
    settled. *)
Lemma plan_loop_second (e : edit) (may_miss : bool)
    (body : list manage_config.change → string → M (list manage_config.change)) paths :
  (∀ changes p w,
     (may_miss = true ∧ files w !! p = None) ∨ settled (files w) e p →
     ∃ out, body changes p w = (Ok changes, World (files w) (stdout w ++ out))) →
  ∀ changes w,
    (∀ p, p ∈ paths → (may_miss = true ∧ files w !! p = None) ∨ settled (files w) e p) →
    ∃ out, for_each paths body changes w
           = (Ok changes, World (files w) (stdout w ++ out)).
Proof.
  intros Hbody. induction paths as [|p paths IH]; intros changes w Hall; simpl.
  - exists []. rewrite app_nil_r. by destruct w.
  - destruct (Hbody changes p w) as (out1 & H1); [apply Hall; by left|].
    rewrite (bind_ok _ _ _ _ _ H1).
    destruct (IH changes (World (files w) (stdout w ++ out1))) as (out2 & H2).
    { intros q Hq. apply Hall. by right. }
    exists (out1 ++ out2). rewrite H2. simpl. by rewrite app_assoc.
Qed.

Section Plan.
Import manage_config.
Variables (option value : string).

Lemma plan_dev_first changes p w changes' w' :
  plan_dev option value changes p w = (Ok changes', w') →
  files w' = files w
  ∧ ∃ extra, changes' = changes ++ extra
      ∧ (∀ c, c ∈ extra → change_path c = p ∧ from_edit (files w) (edit_config option value) c)
      ∧ ((false = true ∧ files w !! p = None) ∨ edited (files w) (edit_config option value) extra p).
Proof.
  unfold plan_dev, read_text, lift, bind, ret.
  destruct (files w !! p) as [raw|] eqn:Hraw; [|done].
  destruct (set_config_line _ option value) as [[t ch]|] eqn:He; [|done].
  destruct ch; intros [= <- <-]; (split; [done|]).
  - eexists [_]. split; [done|]. split.
    + intros c ->%list_elem_of_singleton. split; [done|]. by exists raw.
    + right. exists raw, t, true. repeat split; [done..|]. intros _. eexists. by left.
  - exists []. rewrite app_nil_r. split; [done|]. split.
    + intros c Hc. by apply elem_of_nil in Hc.
    + right. exists raw, t, false. by repeat split.
Qed.

Lemma plan_dev_second changes p w :
  (false = true ∧ files w !! p = None) ∨ settled (files w) (edit_config option value) p →
  ∃ out, plan_dev option value changes p w = (Ok changes, World (files w) (stdout w ++ out)).
Proof.
  intros [[? _]|(raw & t & Hraw & He)]; [done|].
  exists []. unfold plan_dev, read_text, lift, bind, ret. rewrite Hraw.
  unfold edit_config in He. rewrite He. rewrite app_nil_r. by destruct w.
Qed.

Lemma plan_track_first changes p w changes' w' :
  plan_track option value changes p w = (Ok changes', w') →
  files w' = files w
  ∧ ∃ extra, changes' = changes ++ extra
      ∧ (∀ c, c ∈ extra → change_path c = p ∧ from_edit (files w) (edit_config option value) c)
      ∧ ((true = true ∧ files w !! p = None) ∨ edited (files w) (edit_config option value) extra p).
Proof.
  unfold plan_track, exists_, get_config_value, read_text, lift, bind, ret, print.
  destruct (files w !! p) as [raw|] eqn:Hraw.
  - rewrite bool_decide_eq_true_2 by eauto. cbn [negb]. rewrite Hraw.
    destruct (set_config_line _ option value) as [[t ch]|] eqn:He; [|done].
    destruct ch.
    + intros [= <- <-]. split; [done|].
      eexists [_]. split; [done|]. split.
      * intros c ->%list_elem_of_singleton. split; [done|]. by exists raw.
      * right. exists raw, t, true. repeat split; [done..|]. intros _. eexists. by left.
    + rewrite Hraw. intros H.
      assert (changes' = changes ∧ files w' = files w) as [-> ->].
      { by destruct (config_value_in _ _); injection H as <- <-. }
      split; [done|]. exists []. rewrite app_nil_r. split; [done|]. split.
      * intros c Hc. by apply elem_of_nil in Hc.
      * right. exists raw, t, false. by repeat split.
  - rewrite bool_decide_eq_false_2 by (by intros [? ?]). cbn [negb].
    intros [= <- <-]. split; [done|]. exists []. rewrite app_nil_r.
    split; [done|]. split; [|by left]. intros c Hc. by apply elem_of_nil in Hc.
Qed.

Lemma plan_track_second changes p w :
  (true = true ∧ files w !! p = None) ∨ settled (files w) (edit_config option value) p →
  ∃ out, plan_track option value changes p w
         = (Ok changes, World (files w) (stdout w ++ out)).
Proof.
  unfold plan_track, exists_, get_config_value, read_text, lift, bind, ret, print.
  intros [[_ Hraw]|(raw & t & Hraw & He)]; rewrite Hraw.
  - rewrite bool_decide_eq_false_2 by (by intros [? ?]). cbn [negb].
    exists []. rewrite app_nil_r. by destruct w.
  - rewrite bool_decide_eq_true_2 by eauto. cbn [negb].
    unfold edit_config in He.
    repeat (first [rewrite Hraw | rewrite He]; cbv beta iota).
    destruct (config_value_in _ _).
    + exists []. rewrite app_nil_r. by destruct w.
    + by eexists [_].
Qed.

Variables (policy_section doc_heading doc_type doc_desc : Datatypes.option string).

Lemma plan_policy_first changes w changes' w' :
  plan_policy option value policy_section changes w = (Ok changes', w') →
  files w' = files w
  ∧ ∃ extra, changes' = changes ++ extra
      ∧ (∀ c, c ∈ extra → change_path c = POLICY_FILE
                           ∧ from_edit (files w) (edit_policy option value policy_section) c)
      ∧ (truthy policy_section = None
         ∨ edited (files w) (edit_policy option value policy_section) extra POLICY_FILE).
Proof.
  unfold plan_policy, edit_policy, read_text, bind, ret.
  destruct (truthy policy_section) as [section|] eqn:Hs.
  - destruct (files w !! POLICY_FILE) as [raw|] eqn:Hraw; [|done].
    destruct (set_policy_entry _ option value section) as [t ch] eqn:He.
    destruct ch; intros [= <- <-]; (split; [done|]).
    + eexists [_]. split; [done|]. split.
      * intros c ->%list_elem_of_singleton. split; [done|]. exists raw.
        split; [done|]. by rewrite He.
      * right. exists raw, t, true. rewrite He. repeat split; [done|]. intros _.
        eexists. by left.
    + exists []. rewrite app_nil_r. split; [done|]. split.
      * intros c Hc. by apply elem_of_nil in Hc.
      * right. exists raw, t, false. rewrite He. by repeat split.
  - intros [= <- <-]. split; [done|]. exists []. rewrite app_nil_r.
    split; [done|]. split; [|by left]. intros c Hc. by apply elem_of_nil in Hc.
Qed.

Lemma plan_policy_second changes w :
  truthy policy_section = None
  ∨ settled (files w) (edit_policy option value policy_section) POLICY_FILE →
  plan_policy option value policy_section changes w = (Ok changes, w).
Proof.
  unfold plan_policy, edit_policy, settled, read_text, bind, ret.
  intros [->|(raw & t & Hraw & He)]; [done|].
  destruct (truthy policy_section) as [section|]; [|done].
  rewrite Hraw. by injection He as ->.
Qed.

Lemma plan_readme_first changes w changes' w' :
  plan_readme option doc_heading doc_type doc_desc changes w = (Ok changes', w') →
  files w' = files w
  ∧ ∃ extra, changes' = changes ++ extra
      ∧ (∀ c, c ∈ extra →
           change_path c = README_FILE
           ∧ from_edit (files w) (edit_readme option doc_heading doc_type doc_desc) c)
      ∧ ((truthy doc_heading = None ∨ truthy doc_type = None ∨ truthy doc_desc = None)
         ∨ edited (files w) (edit_readme option doc_heading doc_type doc_desc) extra
             README_FILE).
Proof.
  assert (∀ w0 : world, (Ok changes, w0) = (Ok changes', w') →
    truthy doc_heading = None ∨ truthy doc_type = None ∨ truthy doc_desc = None →
    files w' = files w0
    ∧ ∃ extra, changes' = changes ++ extra
      ∧ (∀ c, c ∈ extra →
           change_path c = README_FILE
           ∧ from_edit (files w0) (edit_readme option doc_heading doc_type doc_desc) c)
      ∧ ((truthy doc_heading = None ∨ truthy doc_type = None ∨ truthy doc_desc = None)
         ∨ edited (files w0) (edit_readme option doc_heading doc_type doc_desc) extra
             README_FILE)) as Hskip.
  { intros w0 [= <- <-] Hnone. split; [done|]. exists []. rewrite app_nil_r.
    split; [done|]. split; [|by left]. intros c Hc. by apply elem_of_nil in Hc. }
  unfold plan_readme, edit_readme, read_text, bind, ret in *.
  destruct (truthy doc_heading) as [heading|] eqn:Hh; [|intros; apply Hskip; auto].
  destruct (truthy doc_type) as [type|] eqn:Ht; [|intros; apply Hskip; auto].
  destruct (truthy doc_desc) as [desc|] eqn:Hd; [|intros; apply Hskip; auto].
  clear Hskip.
  destruct (files w !! README_FILE) as [raw|] eqn:Hraw; [|done].
  destruct (add_readme_entry _ option heading type desc) as [t ch] eqn:He.
  destruct ch; intros [= <- <-]; (split; [done|]).
  - eexists [_]. split; [done|]. split.
    + intros c ->%list_elem_of_singleton. split; [done|]. exists raw.
      split; [done|]. by rewrite He.
    + right. exists raw, t, true. rewrite He. repeat split; [done|]. intros _.
      eexists. by left.
  - exists []. rewrite app_nil_r. split; [done|]. split.
    + intros c Hc. by apply elem_of_nil in Hc.
    + right. exists raw, t, false. rewrite He. by repeat split.
Qed.

Lemma plan_readme_second changes w :
  (truthy doc_heading = None ∨ truthy doc_type = None ∨ truthy doc_desc = None)
  ∨ settled (files w) (edit_readme option doc_heading doc_type doc_desc) README_FILE →
  plan_readme option doc_heading doc_type doc_desc changes w = (Ok changes, w).
Proof.
  unfold plan_readme, edit_readme, settled, read_text, bind, ret.
  intros [Hnone|(raw & t & Hraw & He)].
  - destruct Hnone as [-> | [-> | ->]]; [done| |].
    + by destruct (truthy doc_heading).
    + by destruct (truthy doc_heading), (truthy doc_type).
  - destruct (truthy doc_heading) as [heading|]; [|done].
    destruct (truthy doc_type) as [type|]; [|done].
    destruct (truthy doc_desc) as [desc|]; [|done].
    rewrite Hraw. by injection He as ->.
Qed.

End Plan.

(** *** The edits settle *)

Section Settle.
Import manage_config.
Variables (option value : string).
Hypothesis Hname : plain_name option = true.
Hypothesis Hvalue : plain_value value = true.

Local Lemma plain_facts :
  has_char "\"%char option = false ∧ single_line option = true
  ∧ has_char "\"%char value = false ∧ single_line value = true.
Proof.
  unfold plain_name in Hname. unfold plain_value in Hvalue.
  repeat (apply andb_true_iff in Hname as [Hname ?]).
  repeat (apply andb_true_iff in Hvalue as [Hvalue ?]).
  repeat split; try done; by apply negb_true_iff.
Qed.

Lemma set_config_line_no_cr text t ch :
  has_char CR text = false →
  set_config_line text option value = Ok (t, ch) →
  has_char CR t = false.
Proof.
  destruct plain_facts as (Ho & Ho' & Hv & Hv').
  intros Htext. rewrite set_config_line_run by done. cbv zeta.
  set (key := "CONFIG_" +:+ option).
  set (new_line := if String.eqb value "n" then disabled_line key else key +:+ "=" +:+ value).
  assert (Hn : has_char CR new_line = false).
  { subst new_line key. unfold disabled_line.
    destruct (String.eqb value "n");
      rewrite !has_char_app, ?(single_line_no_cr option), ?(single_line_no_cr value) by done;
      reflexivity. }
  assert (∀ P, has_char CR (join nl (map (put P new_line) (split_nl text))) = false) as Hj.
  { intros P. apply has_char_join; [done|]. apply List.Forall_map.
    eapply Forall_impl; [by apply split_nl_no_char|].
    intros l Hl. unfold put. by destruct (P l). }
  destruct (re.search _ text); [intros [= <- _]; apply Hj|].
  destruct (re.search _ text); [intros [= <- _]; apply Hj|].
  by intros [= <- _].
Qed.

Lemma settles_config : settles (edit_config option value).
Proof.
  destruct plain_facts as (Ho & Ho' & Hv & Hv').
  intros raw t He. unfold edit_config in *.
  rewrite (universal_newlines_id t).
  - eapply set_config_line_idempotent; eauto using single_line_no_lf.
  - eapply set_config_line_no_cr; [|done]. apply universal_newlines_no_cr.
Qed.

Local Lemma lines_no_cr text :
  Forall (λ l, has_char CR l = false) (splitlines text).
Proof.
  eapply Forall_impl; [apply splitlines_single_line|].
  intros l. apply single_line_no_cr.
Qed.

Section Policy.
Variable policy_section : Datatypes.option string.
Hypothesis Hsection : one_line policy_section = true.

Lemma set_policy_entry_no_cr text section t :
  single_line section = true →
  set_policy_entry text option value section = (t, true) →
  has_char CR t = false.
Proof.
  destruct plain_facts as (Ho & Ho' & Hv & Hv').
  intros Hs. unfold set_policy_entry.
  set (new_entry := upper option +:+ "=" +:+ value).
  assert (Hn : has_char CR new_entry = false).
  { apply single_line_no_cr. subst new_entry.
    by rewrite !single_line_app, single_line_upper, Ho', Hv'. }
  pose proof (lines_no_cr text) as Hl.
  destruct (find_entry _ _) as [i|].
  - destruct (String.eqb _ _); [done|]. intros [= <-].
    apply has_char_unlines; [done|]. by apply Forall_insert.
  - destruct (find_insert _ _ _ _ _) as [k|]; intros [= <-];
      (apply has_char_unlines; [done|]).
    + unfold list_insert_at. apply Forall_app. split; [by apply Forall_take|].
      constructor; [done|by apply Forall_drop].
    + apply Forall_app. split; [done|]. repeat constructor; [|done].
      apply single_line_no_cr in Hs. by rewrite !has_char_app, Hs.
Qed.

Lemma settles_policy : settles (edit_policy option value policy_section).
Proof.
  intros raw t. unfold edit_policy.
  destruct policy_section as [section|]; simpl in *; [|done].
  destruct (is_empty section); [done|].
  intros [= He]. f_equal.
  rewrite (universal_newlines_id t)
    by exact (set_policy_entry_no_cr _ section t Hsection He).
  pose proof (set_policy_entry_idempotent option value section Hname Hvalue Hsection
                (universal_newlines false raw)) as Hi.
  by rewrite He in Hi.
Qed.
End Policy.

Section Readme.
Variables doc_heading doc_type doc_desc : Datatypes.option string.
Hypothesis Htype : one_line doc_type = true.
Hypothesis Hdesc : one_line doc_desc = true.

Lemma add_readme_entry_no_cr text heading type desc t :
  single_line type = true → single_line desc = true →
  add_readme_entry text option heading type desc = (t, true) →
  has_char CR t = false.
Proof.
  destruct plain_facts as (Ho & Ho' & Hv & Hv').
  intros Ht Hd. unfold add_readme_entry.
  set (new_row := "| `" +:+ option +:+ "` | " +:+ type +:+ " | " +:+ desc +:+ " |").
  assert (Hn : has_char CR new_row = false).
  { apply single_line_no_cr. subst new_row.
    by rewrite !single_line_app, Ho', Ht, Hd. }
  pose proof (lines_no_cr text) as Hl.
  assert (insert_row text heading new_row = (t, true) → has_char CR t = false) as Hins.
  { unfold insert_row. destruct (find_row_slot _ _ _ _ _ _) as [k|]; [|done].
    intros [= <-]. apply has_char_unlines; [done|].
    unfold list_insert_at. apply Forall_app. split; [by apply Forall_take|].
    constructor; [done|by apply Forall_drop]. }
  destruct (contains _ text); [|done].
  destruct (find_row _ _) as [i|]; [|done].
  destruct (String.eqb _ _); [done|]. intros [= <-].
  apply has_char_unlines; [done|]. by apply Forall_insert.
Qed.

Lemma settles_readme : settles (edit_readme option doc_heading doc_type doc_desc).
Proof.
  destruct plain_facts as (Ho & Ho' & Hv & Hv').
  intros raw t. unfold edit_readme.
  destruct (truthy doc_heading) as [heading|]; [|done].
  destruct doc_type as [type|]; simpl in *; [|done].
  destruct (is_empty type); [done|].
  destruct doc_desc as [desc|]; simpl in *; [|done].
  destruct (is_empty desc); [done|].
  intros [= He]. f_equal.
  rewrite (universal_newlines_id t)
    by exact (add_readme_entry_no_cr _ heading type desc t Htype Hdesc He).
  pose proof (add_readme_entry_idempotent option heading type desc Ho' Htype Hdesc
                (universal_newlines false raw)) as Hi.
  by rewrite He in Hi.
Qed.
End Readme.

End Settle.

(** *** The command *)

Lemma elem_of_find_dev_configs w :
  ∃ devs, manage_config.find_dev_configs w = (Ok devs, w)
          ∧ ∀ p, p ∈ devs ↔ is_Some (files w !! p) ∧ is_dev_config p = true.
Proof.
  eexists. split; [reflexivity|]. intros p.
  rewrite elem_of_sorted, list_elem_of_filter. unfold is_dev_config.
  rewrite list_elem_of_fmap. split.
  - intros [Ht ([q t] & -> & Hq%elem_of_map_to_list)]. split; [by eexists|done].
  - intros [[t Hq] Ht]. split; [done|]. exists (p, t). split; [done|].
    by apply elem_of_map_to_list.
Qed.

Lemma print_loop {A} (f : A → string) (l : list A) (body : unit → A → M unit) :
  (∀ s x, body s x = print (f x)) →
  ∀ w, for_each l body () w = (Ok (), World (files w) (stdout w ++ map f l)).
Proof.
  intros Hbody. induction l as [|x l IH]; intros w; simpl.
  - rewrite app_nil_r. by destruct w.
  - rewrite Hbody. erewrite (bind_ok (print _)) by reflexivity.
    rewrite IH. simpl. by rewrite <- app_assoc.
Qed.

Lemma write_loop changes w :
  for_each changes (λ (_ : ()) '(path, _, new_text),
      let* _ := write_text path new_text in print ("  wrote " +:+ name path)) () w
  = (Ok (), World (apply_changes changes (files w))
              (stdout w ++ map (λ c, "  wrote " +:+ name (change_path c)) changes)).
Proof.
  revert w. induction changes as [|[[path desc] new_text] changes IH]; intros w; simpl.
  - rewrite app_nil_r. by destruct w.
  - unfold bind at 1. unfold bind at 1. simpl. rewrite IH. simpl.
    by rewrite <- app_assoc.
Qed.

Lemma report_and_apply_writes changes w :
  ∃ out, manage_config.report_and_apply changes true w
         = (Ok 0, World (apply_changes changes (files w)) (stdout w ++ out)).
Proof.
  eexists. unfold manage_config.report_and_apply.
  erewrite (bind_ok (print _)) by reflexivity. cbv beta.
  erewrite (bind_ok (for_each _ _ _)); cycle 1.
  { apply (print_loop (λ c, "  ~/" +:+ relative_to_home (change_path c) +:+ ": " +:+ c.1.2)).
    by intros _ [[path desc] ?]. }
  erewrite (bind_ok (bind _ _)); [reflexivity|].
  erewrite (bind_ok (print _)) by reflexivity.
  erewrite (bind_ok (for_each _ _ _)) by apply write_loop.
  unfold print. simpl. rewrite <- !app_assoc. reflexivity.
Qed.

Section SetTwice.
Import manage_config.
Variables (opt value : string).
Variables (policy_section doc_heading doc_type doc_desc : Datatypes.option string).

Let option := normalize_option opt.
Let Ecfg := edit_config option value.
Let Epol := edit_policy option value policy_section.
Let Edoc := edit_readme option doc_heading doc_type doc_desc.
Let nodoc := truthy doc_heading = None ∨ truthy doc_type = None ∨ truthy doc_desc = None.

Lemma cmd_set_first apply w n w1 :
  cmd_set opt value policy_section doc_heading doc_type doc_desc apply w = (Ok n, w1) →
  ∃ changes,
    (apply = true → files w1 = apply_changes changes (files w))
    ∧ (∀ c, c ∈ changes →
         ((change_path c ∈ TRACK_CONFIGS ∨ is_dev_config (change_path c) = true)
          ∧ from_edit (files w) Ecfg c)
         ∨ (change_path c = POLICY_FILE ∧ from_edit (files w) Epol c)
         ∨ (change_path c = README_FILE ∧ from_edit (files w) Edoc c))
    ∧ (∀ p, p ∈ TRACK_CONFIGS → files w !! p = None ∨ edited (files w) Ecfg changes p)
    ∧ (∀ p, is_Some (files w !! p) → is_dev_config p = true →
            edited (files w) Ecfg changes p)
    ∧ (truthy policy_section = None ∨ edited (files w) Epol changes POLICY_FILE)
    ∧ (nodoc ∨ edited (files w) Edoc changes README_FILE).
Proof.
  unfold cmd_set. fold option.
  intros (c1 & w2 & H1 & H)%bind_Ok_inv.
  apply (plan_loop_first Ecfg true) in H1 as (Hf1 & e1 & -> & Hfrom1 & Hed1);
    [|apply plan_track_first].
  apply bind_Ok_inv in H as (devs & w3 & Hdevs & H).
  destruct (elem_of_find_dev_configs w2) as (devs' & Hdevs' & Hin).
  rewrite Hdevs' in Hdevs. injection Hdevs as -> ->.
  apply bind_Ok_inv in H as (c2 & w4 & H2 & H).
  apply (plan_loop_first Ecfg false) in H2 as (Hf2 & e2 & -> & Hfrom2 & Hed2);
    [|apply plan_dev_first].
  apply bind_Ok_inv in H as (c3 & w5 & H3 & H).
  apply plan_policy_first in H3 as (Hf3 & e3 & -> & Hfrom3 & Hed3).
  apply bind_Ok_inv in H as (c4 & w6 & H4 & H).
  apply plan_readme_first in H4 as (Hf4 & e4 & -> & Hfrom4 & Hed4).
  assert (files w6 = files w) as Hf6 by congruence.
  rewrite Hf2, Hf1 in Hfrom3, Hed3. rewrite Hf3, Hf2, Hf1 in Hfrom4, Hed4.
  rewrite Hf1 in Hfrom2, Hed2, Hin. clear Hf1 Hf2 Hf3 Hf4.
  simpl in H. exists (((e1 ++ e2) ++ e3) ++ e4).
  split; [|split; [|split; [|split; [|split]]]].
  - intros ->. destruct (((e1 ++ e2) ++ e3) ++ e4) as [|c cs] eqn:E.
    + unfold print, bind, ret in H. by injection H as _ <-.
    + destruct (report_and_apply_writes (c :: cs) w6) as (out & Hr).
      rewrite Hr in H. injection H as _ <-. simpl files. by rewrite Hf6.
  - intros c [[[Hc|Hc]%elem_of_app|Hc]%elem_of_app|Hc]%elem_of_app.
    + left. destruct (Hfrom1 c Hc) as [? ?]. split; [by left|done].
    + left. destruct (Hfrom2 c Hc) as [Hp ?]. split; [|done].
      right. by apply Hin in Hp as [_ ?].
    + right. left. by apply Hfrom3.
    + right. right. by apply Hfrom4.
  - intros p Hp. destruct (Hed1 p Hp) as [[_ ?]|Hed]; [by left|right].
    eapply edited_mono; [done|]. intros c Hc. rewrite !elem_of_app. auto.
  - intros p Hp Hdev. destruct (Hed2 p) as [[? _]|Hed]; [by apply Hin|done|].
    eapply edited_mono; [done|]. intros c Hc. rewrite !elem_of_app. auto.
  - destruct Hed3 as [?|Hed]; [by left|right].
    eapply edited_mono; [done|]. intros c Hc. rewrite !elem_of_app. auto.
  - destruct Hed4 as [?|Hed]; [by left|right].
    eapply edited_mono; [done|]. intros c Hc. rewrite !elem_of_app. auto.
Qed.

Lemma cmd_set_second apply w :
  (∀ p, p ∈ TRACK_CONFIGS → files w !! p = None ∨ settled (files w) Ecfg p) →
  (∀ p, is_Some (files w !! p) → is_dev_config p = true → settled (files w) Ecfg p) →
  (truthy policy_section = None ∨ settled (files w) Epol POLICY_FILE) →
  (nodoc ∨ settled (files w) Edoc README_FILE) →
  ∃ warnings,
    cmd_set opt value policy_section doc_heading doc_type doc_desc apply w
    = (Ok 0, World (files w)
               (stdout w ++ warnings
                ++ ["No changes needed — " +:+ ("CONFIG_" +:+ option) +:+ "=" +:+ value
                    +:+ " already set everywhere."])).
Proof.
  intros Htrack Hdev Hpol Hdoc. unfold cmd_set. fold option.
  destruct (plan_loop_second Ecfg true (plan_track option value) TRACK_CONFIGS
              (plan_track_second option value) [] w) as (out1 & H1).
  { intros p Hp. destruct (Htrack p Hp); auto. }
  rewrite (bind_ok _ _ _ _ _ H1). set (w2 := World _ _).
  destruct (elem_of_find_dev_configs w2) as (devs & Hdevs & Hin).
  rewrite (bind_ok _ _ _ _ _ Hdevs).
  destruct (plan_loop_second Ecfg false (plan_dev option value) devs
              (plan_dev_second option value) [] w2) as (out2 & H2).
  { intros p [Hp Hd]%Hin. right. by apply Hdev. }
  rewrite (bind_ok _ _ _ _ _ H2). set (w3 := World _ _).
  rewrite (bind_ok _ _ _ _ _ (plan_policy_second option value policy_section [] w3 Hpol)).
  rewrite (bind_ok _ _ _ _ _
             (plan_readme_second option doc_heading doc_type doc_desc [] w3 Hdoc)).
  exists (out1 ++ out2). unfold print, bind, ret. subst w3 w2. simpl.
  by rewrite <- !app_assoc.
Qed.

Hypothesis Hname : plain_name option = true.
Hypothesis Hvalue : plain_value value = true.
Hypothesis Hsection : one_line policy_section = true.
Hypothesis Htype : one_line doc_type = true.
Hypothesis Hdesc : one_line doc_desc = true.

Lemma cmd_set_twice w n w1 :
  cmd_set opt value policy_section doc_heading doc_type doc_desc true w = (Ok n, w1) →
  ∃ warnings,
    cmd_set opt value policy_section doc_heading doc_type doc_desc true w1
    = (Ok 0, World (files w1)
               (stdout w1 ++ warnings
                ++ ["No changes needed — " +:+ ("CONFIG_" +:+ option) +:+ "=" +:+ value
                    +:+ " already set everywhere."])).
Proof.
  intros (changes & Hfiles & Hfrom & Htrack & Hdev & Hpol & Hdoc)%cmd_set_first.
  specialize (Hfiles eq_refl).
  assert (∀ c, c ∈ changes → is_Some (files w !! change_path c)) as Hdom.
  { intros c Hc.
    destruct (Hfrom c Hc) as [[_ (raw & -> & _)]|[[_ (raw & -> & _)]|[_ (raw & -> & _)]]];
      by eexists. }
  assert (∀ p, is_dev_config p = true →
               (p ∉ TRACK_CONFIGS) ∧ (p ≠ POLICY_FILE) ∧ (p ≠ README_FILE)) as Hdevp.
  { intros p Hp. split; [|split].
    - intros Hin. unfold TRACK_CONFIGS in Hin.
      repeat (apply elem_of_cons in Hin as [-> | Hin]; [by vm_compute in Hp|]).
      by apply elem_of_nil in Hin.
    - intros ->. by vm_compute in Hp.
    - intros ->. by vm_compute in Hp. }
  assert ((POLICY_FILE ∉ TRACK_CONFIGS) ∧ (README_FILE ∉ TRACK_CONFIGS)
          ∧ (POLICY_FILE ≠ README_FILE)) as (Hp1 & Hp2 & Hp3).
  { split; [|split]; [| |by vm_compute];
      (intros Hin; unfold TRACK_CONFIGS in Hin;
       repeat (apply elem_of_cons in Hin as [Heq | Hin]; [by vm_compute in Heq|]);
       by apply elem_of_nil in Hin). }
  assert (∀ p, p ∈ TRACK_CONFIGS ∨ is_dev_config p = true →
               ∀ c, c ∈ changes → change_path c = p → from_edit (files w) Ecfg c) as Hcfg.
  { intros p Hp c Hc Hcp.
    destruct (Hfrom c Hc) as [[_ ?]|[[Hq _]|[Hq _]]]; [done|exfalso..];
      rewrite Hq in Hcp; subst p; destruct Hp as [Hp|Hp]; try done;
      by apply Hdevp in Hp as (_ & ? & ?). }
  apply cmd_set_second; rewrite Hfiles.
  - intros p Hp. destruct (Htrack p Hp) as [Hnone|Hed].
    + left. apply eq_None_not_Some. rewrite apply_changes_dom by done.
      by rewrite Hnone; intros [? ?].
    + right. apply settled_after; [by apply settles_config|by apply Hcfg; left|done].
  - intros p Hp%apply_changes_dom Hd; [|done].
    apply settled_after; [by apply settles_config|by apply Hcfg; right|by apply Hdev].
  - destruct Hpol as [?|Hed]; [by left|right].
    apply settled_after; [by apply settles_policy| |done].
    intros c Hc Hcp. destruct (Hfrom c Hc) as [[[Hq|Hq] _]|[[_ ?]|[Hq _]]]; [exfalso..|done|exfalso].
    + by rewrite Hcp in Hq.
    + apply Hdevp in Hq as (_ & ? & _). done.
    + by rewrite Hq in Hcp.
  - destruct Hdoc as [?|Hed]; [by left|right].
    apply settled_after; [by apply (settles_readme option value)| |done].
    intros c Hc Hcp. destruct (Hfrom c Hc) as [[[Hq|Hq] _]|[[Hq _]|[_ ?]]]; [exfalso..|done].
    + by rewrite Hcp in Hq.
    + apply Hdevp in Hq as (_ & _ & ?). done.
    + by rewrite Hq in Hcp.
Qed.

End SetTwice.

(** C5, as amended.  For an option name and a value that are plain (one
    line, no backslash, no white space at the ends of the name or at the
    end of the value, a name without equals sign that does not start as a
    comment or a section header), and a section, a type and a description
    of one line: when [set OPTION=VALUE] with [--apply] has run, a second
    run with the same arguments leaves every file as the first run left it
    and computes no change, it ends on the message that no change is
    needed; and each of [set_config_line], [set_policy_entry] and
    [add_readme_entry], applied to its own output with the same arguments,
    returns that text unchanged and reports no change. *)
Theorem set_again_changes_nothing opt value policy_section doc_heading doc_type doc_desc :
  plain_name (manage_config.normalize_option opt) = true →
  plain_value value = true →
  one_line policy_section = true →
  one_line doc_type = true →
  one_line doc_desc = true →
  let option := manage_config.normalize_option opt in
  (∀ w n w1,
     manage_config.cmd_set opt value policy_section doc_heading doc_type doc_desc true w
     = (Ok n, w1) →
     ∃ warnings,
       manage_config.cmd_set opt value policy_section doc_heading doc_type doc_desc true w1
       = (Ok 0, World (files w1)
                  (stdout w1 ++ warnings
                   ++ ["No changes needed — " +:+ ("CONFIG_" +:+ option) +:+ "=" +:+ value
                       +:+ " already set everywhere."])))
  ∧ (∀ text text' changed,
       manage_config.set_config_line text option value = Ok (text', changed) →
       manage_config.set_config_line text' option value = Ok (text', false))
  ∧ (∀ text section,
       policy_section = Some section →
       manage_config.set_policy_entry
         (manage_config.set_policy_entry text option value section).1 option value section
       = ((manage_config.set_policy_entry text option value section).1, false))
  ∧ (∀ text heading opt_type desc,
       doc_type = Some opt_type → doc_desc = Some desc →
       manage_config.add_readme_entry
         (manage_config.add_readme_entry text option heading opt_type desc).1
         option heading opt_type desc
       = ((manage_config.add_readme_entry text option heading opt_type desc).1, false)).
Proof.
  intros Hname Hvalue Hsection Htype Hdesc option.
  split; [|split; [|split]].
  - intros w n w1. by apply cmd_set_twice.
  - pose proof (plain_facts option value Hname Hvalue) as (Ho & Ho' & Hv & Hv').
    intros text text' changed.
    apply set_config_line_idempotent; auto using single_line_no_lf.
  - intros text section ->. by apply set_policy_entry_idempotent.
  - pose proof (plain_facts option value Hname Hvalue) as (_ & Ho' & _).
    intros text heading opt_type desc -> ->. by apply add_readme_entry_idempotent.
Qed.

Lemma set_again_changes_nothing_witness :
  ∃ w1,
    manage_config.cmd_set "CONFIG_USB_UAS" "m" (Some "usb") (Some "USB Support")
      (Some "module") (Some "USB Attached SCSI") true w_set = (Ok 0, w1)
    ∧ files w1 !! track "config.sky1" = Some (text ["CONFIG_USB=y"; "CONFIG_USB_UAS=m"])
    ∧ files w1 !! manage_config.POLICY_FILE
      = Some (text ["[usb]"; "USB_STORAGE=y"; "USB_UAS=m"])
    ∧ ∃ warnings,
        manage_config.cmd_set "CONFIG_USB_UAS" "m" (Some "usb") (Some "USB Support")
          (Some "module") (Some "USB Attached SCSI") true w1
        = (Ok 0, World (files w1)
                   (stdout w1 ++ warnings
                    ++ ["No changes needed — CONFIG_USB_UAS=m already set everywhere."])).
Proof.
  eexists. split; [vm_compute; reflexivity|].
  split; [vm_compute; reflexivity|]. split; [vm_compute; reflexivity|].
  destruct (set_again_changes_nothing "CONFIG_USB_UAS" "m" (Some "usb") (Some "USB Support")
              (Some "module") (Some "USB Attached SCSI")) as (H & _); [reflexivity..|].
  apply (H w_set 0). vm_compute. reflexivity.
Defined.

(** C5, the claim as stated fails.  With a value that ends in a blank,
    [set_policy_entry] compares the stripped line of the file with the
    entry that is not stripped: applied to its own output it returns the
    same text and reports a change again; the second run of the command
    plans the policy file once more and writes it. *)
Lemma set_policy_entry_again_reports_change :
  manage_config.set_policy_entry (text ["[usb]"; "USB_STORAGE=y"]) "USB_UAS" "m " "usb"
    = (text ["[usb]"; "USB_STORAGE=y"; "USB_UAS=m "], true)
  ∧ manage_config.set_policy_entry (text ["[usb]"; "USB_STORAGE=y"; "USB_UAS=m "])
      "USB_UAS" "m " "usb"
    = (text ["[usb]"; "USB_STORAGE=y"; "USB_UAS=m "], true)
  ∧ ∃ w1 w2,
      manage_config.cmd_set "USB_UAS" "m " (Some "usb") None None None true w_set = (Ok 0, w1)
      ∧ manage_config.cmd_set "USB_UAS" "m " (Some "usb") None None None true w1 = (Ok 0, w2)
      ∧ last (stdout w2) = Some (nl +:+ "Done. 1 file(s) updated.").
Proof.
  split; [vm_compute; reflexivity|]. split; [vm_compute; reflexivity|].
  eexists. eexists. split; [vm_compute; reflexivity|].
  split; [vm_compute; reflexivity|]. vm_compute. reflexivity.
Qed.

(** ** Replacing and the number of lines *)

Lemma count_char_app c (s t : string) :
  count_char c (s +:+ t) = count_char c s + count_char c t.
Proof.
  induction s as [|a s IH]; [done|]. rewrite app_cons_s. simpl. rewrite IH. lia.
Qed.

Lemma count_char_0 c s : has_char c s = false → count_char c s = 0.
Proof.
  induction s as [|a s IH]; [done|]. simpl. intros [-> Hs]%orb_false_iff. by rewrite IH.
Qed.

Lemma startswith_split (s p : string) :
  startswith s p = true → s = p +:+ drop (String.length p) s.
Proof.
  revert s. induction p as [|a p IH]; intros s; [by destruct s|].
  destruct s as [|b s]; [done|]. cbn [startswith].
  intros [->%Ascii.eqb_eq H]%andb_true_iff. rewrite app_cons_s. simpl. f_equal. by apply IH.
Qed.

Lemma length_app_s (s t : string) :
  String.length (s +:+ t) = String.length s + String.length t.
Proof. induction s as [|a s IH]; [done|]. rewrite app_cons_s. simpl. by rewrite IH. Qed.

Lemma drop_app_s (s t : string) : drop (String.length s) (s +:+ t) = t.
Proof. induction s as [|a s IH]; [by destruct t|]. by rewrite app_cons_s. Qed.

Lemma length_drop_s n (s : string) : String.length (drop n s) = String.length s - n.
Proof.
  revert s. induction n as [|n IH]; intros s; [simpl; lia|].
  destruct s as [|a s]; [done|]. simpl. apply IH.
Qed.

Lemma replace_from_skip old new k s :
  replace_from old new k s = replace_from old new 0 (drop k s).
Proof.
  revert s. induction k as [|k IH]; intros s; [done|].
  destruct s as [|a s]; [done|]. simpl. apply IH.
Qed.

Lemma replace_from_unfold old new a s :
  is_empty old = false →
  replace_from old new 0 (String a s)
  = if startswith (String a s) old
    then new +:+ replace_from old new 0 (drop (String.length old) (String a s))
    else String a (replace_from old new 0 s).
Proof.
  intros Hold. cbn [replace_from]. destruct (startswith (String a s) old) eqn:E; [|done].
  rewrite replace_from_skip. destruct old as [|o old]; [done|].
  simpl. by rewrite Nat.sub_0_r.
Qed.

Section Replace.
Variables (c : ascii) (old new : string).
Hypothesis Hold : is_empty old = false.

Lemma replace_from_measure (f : string → nat) :
  (∀ s t, f (s +:+ t) = f s + f t) →
  f new = f old →
  ∀ s, f (replace_from old new 0 s) = f s.
Proof.
  intros Happ Hnew s.
  remember (String.length s) as n eqn:Hn. revert s Hn.
  induction n as [n IH] using lt_wf_ind. intros s ->.
  destruct s as [|a s].
  - done.
  - rewrite replace_from_unfold by done.
    destruct (startswith (String a s) old) eqn:E.
    + rewrite Happ, Hnew.
      rewrite (IH (String.length (drop (String.length old) (String a s)))); [| |done].
      * rewrite <- Happ. by rewrite <- (startswith_split _ _ E).
      * rewrite length_drop_s. destruct old; [done|]. simpl. lia.
    + change (String a (replace_from old new 0 s))
        with (String a EmptyString +:+ replace_from old new 0 s).
      rewrite Happ. rewrite (IH (String.length s)); [| simpl; lia | done].
      by rewrite <- Happ.
Qed.

Lemma replace_count :
  count_char c new = count_char c old →
  ∀ s, count_char c (replace old new s) = count_char c s.
Proof.
  intros H s. unfold replace. rewrite Hold.
  apply (replace_from_measure (count_char c)); [apply count_char_app|done].
Qed.
End Replace.

Lemma has_char_count c s : has_char c s = false ↔ count_char c s = 0.
Proof.
  induction s as [|a s IH]; [done|]. simpl. rewrite orb_false_iff, IH.
  destruct (Ascii.eqb a c); [split; [by intros []|lia]|]. simpl. tauto.
Qed.

Section FixLines.
Import reconcile_configs.

Lemma fix_violation_line_feeds opt required_val label cfg fixed p w :
  single_line required_val = true →
  (∀ actual, dict_get cfg opt = Some actual → single_line actual = true) →
  line_feeds <$> files (fix_violation opt required_val label cfg fixed w).2 !! p
  = line_feeds <$> files w !! p.
Proof.
  intros Hreq Hact. unfold fix_violation.
  destruct (dict_get cfg opt) as [actual|] eqn:Hget; [|done].
  destruct (negb _); [|done].
  unfold read_text, bind. fold (track (track_file label)).
  destruct (files w !! track (track_file label)) as [raw|] eqn:Hraw; [|done].
  destruct (contains _ _) eqn:Hin; [|done].
  cbn [write_text print ret snd files].
  destruct (decide (track (track_file label) = p)) as [<-|Hne];
    [|by rewrite lookup_insert_ne].
  rewrite lookup_insert_eq, Hraw. cbn [fmap option_fmap option_map]. f_equal.
  set (text := universal_newlines false raw) in *.
  set (old := opt +:+ "=" +:+ actual) in *.
  set (new := opt +:+ "=" +:+ required_val).
  assert (is_empty old = false) as Hold.
  { subst old. destruct opt; [done|by rewrite app_cons_s]. }
  specialize (Hact actual eq_refl).
  assert (∀ c, has_char c required_val = false → has_char c actual = false →
               count_char c new = count_char c old) as Hsame.
  { intros c H1 H2. subst new old. rewrite !count_char_app.
    by rewrite (count_char_0 _ _ H1), (count_char_0 _ _ H2). }
  unfold line_feeds.
  assert (has_char CR (replace old new text) = false) as Hcr.
  { apply has_char_count. rewrite replace_count; [|done|].
    - apply has_char_count, universal_newlines_no_cr.
    - apply Hsame; by apply single_line_no_cr. }
  rewrite (universal_newlines_id _ Hcr). fold text.
  apply replace_count; [done|]. apply Hsame; by apply single_line_no_lf.
Qed.

Lemma fix_all_line_feeds policy configs p w :
  (∀ opt req, (opt, req) ∈ policy → single_line req = true) →
  (∀ label cfg opt actual,
     (label, cfg) ∈ configs → dict_get cfg opt = Some actual → single_line actual = true) →
  line_feeds <$> files (fix_all policy configs w).2 !! p = line_feeds <$> files w !! p.
Proof.
  intros Hpol Hcfg. unfold fix_all.
  apply (for_each_inv (λ w', line_feeds <$> files w' !! p = line_feeds <$> files w !! p));
    [|done].
  intros s [opt req] w0 Hin%elem_of_sorted Hw0.
  apply (for_each_inv (λ w', line_feeds <$> files w' !! p = line_feeds <$> files w !! p));
    [|done].
  intros s1 [label cfg] w1 Hc Hw1.
  rewrite fix_violation_line_feeds; [done|by eapply Hpol|].
  intros actual Hget. by eapply Hcfg.
Qed.
End FixLines.

(** The values of a parsed config hold no line boundary. *)
Lemma single_line_after c s : single_line s = true → single_line (after c s) = true.
Proof.
  unfold after. induction s as [|a s IH]; [done|]. simpl.
  intros [Ha Hs]%andb_true_iff. destruct (Ascii.eqb a c); [done|].
  specialize (IH Hs). by destruct (partition c s) as [[h t]|].
Qed.

Lemma parse_config_lines_values opts lines :
  Forall (λ l, single_line l = true) lines →
  Forall (λ kv : string * string, single_line kv.2 = true) opts →
  Forall (λ kv : string * string, single_line kv.2 = true)
    (reconcile_configs.parse_config_lines opts lines).
Proof.
  intros Hl. revert opts. induction Hl as [|l ls Hl _ IH]; intros opts Ho; [done|].
  cbn [reconcile_configs.parse_config_lines].
  assert (∀ k v, single_line v = true →
            Forall (λ kv : string * string, single_line kv.2 = true) (dict_set opts k v))
    as Hset.
  { intros k v Hv. apply Forall_forall. intros kv [Hin| ->]%elem_of_dict_set; [|done].
    rewrite Forall_forall in Ho. by apply Ho. }
  destruct (startswith l "CONFIG_"); [by apply IH, Hset, single_line_after|].
  destruct (_ && _); [by apply IH, Hset|by apply IH].
Qed.

Lemma dict_get_In {V} (d : dict V) k v : dict_get d k = Some v → (k, v) ∈ d.
Proof.
  induction d as [|[k0 v0] d IH]; simpl; [done|].
  destruct (String.eqb_spec k0 k) as [->|]; [intros [= ->]; by left|].
  intros H. right. by apply IH.
Qed.

Lemma parse_config_values path w cfg w' opt actual :
  reconcile_configs.parse_config path w = (Ok cfg, w') →
  dict_get cfg opt = Some actual → single_line actual = true.
Proof.
  unfold reconcile_configs.parse_config.
  intros (t & w1 & _ & [= <- _])%bind_Ok_inv Hget%dict_get_In.
  pose proof (parse_config_lines_values [] (splitlines t) (splitlines_single_line t)
                (Forall_nil_2 _)) as H.
  rewrite Forall_forall in H. by apply (H (opt, actual)).
Qed.

(** C2, as amended.  In fix mode a track without a MISMATCH, and so one
    whose violations are all MISSING, keeps its file byte for byte through
    the whole fix pass.  When no required value of the policy and no value
    of a loaded config holds a line boundary, and the values of a parsed
    config never do, the fix pass adds no line to any file and creates no
    file: each file has as many line feeds after the pass as before.  For
    a MISMATCH of an option with the value [actual], the step of the pass
    replaces every occurrence of the text OPTION=actual by OPTION=required
    in the text of the track and writes it back when that text occurs, and
    does nothing when it does not occur.  In the scenario (policy
    NET_FOO=y, LTS without the option, RC with [=n]) the run reports the
    two violations, rewrites the line of RC to [=y] and leaves the LTS file
    alone. *)
Theorem fix_rewrites_matching_mismatches_only :
  (∀ policy configs p w,
     no_mismatch_at p policy configs = true →
     files (reconcile_configs.fix_all policy configs w).2 !! p = files w !! p)
  ∧ (∀ policy configs p w,
       (∀ opt required_val, (opt, required_val) ∈ policy → single_line required_val = true) →
       (∀ label cfg opt actual,
          (label, cfg) ∈ configs → dict_get cfg opt = Some actual →
          single_line actual = true) →
       line_feeds <$> files (reconcile_configs.fix_all policy configs w).2 !! p
       = line_feeds <$> files w !! p)
  ∧ (∀ path w cfg w' opt actual,
       reconcile_configs.parse_config path w = (Ok cfg, w') →
       dict_get cfg opt = Some actual → single_line actual = true)
  ∧ (∀ opt required_val label cfg fixed w actual text,
       dict_get cfg opt = Some actual →
       actual ≠ required_val →
       read_text (track (reconcile_configs.track_file label)) w = (Ok text, w) →
       reconcile_configs.fix_violation opt required_val label cfg fixed w
       = if contains (opt +:+ "=" +:+ actual) text
         then (Ok (S fixed),
               World (<[track (reconcile_configs.track_file label) :=
                          replace (opt +:+ "=" +:+ actual)
                            (opt +:+ "=" +:+ required_val) text]> (files w))
                 (stdout w ++ ["  Fixed: " +:+ reconcile_configs.track_file label +:+ ": "
                               +:+ (opt +:+ "=" +:+ actual) +:+ " -> "
                               +:+ (opt +:+ "=" +:+ required_val)]))
         else (Ok fixed, w))
  ∧ reconcile_configs.cmd_reconcile true false w_scenario
    = (Ok 0,
       World (<[track "config.sky1-rc" := text ["CONFIG_NET=y"; "CONFIG_NET_FOO=y"]]>
                (files w_scenario))
         [ "=== Sky1 Config Reconciliation ===" +:+ nl;
           "  LTS      config.sky1               (1 enabled options)";
           "  Latest   config.sky1-latest        (not found, skipping)";
           "  RC       config.sky1-rc            (1 enabled options)";
           "  Next     config.sky1-next          (not found, skipping)";
           EmptyString;
           "--- Policy Check ---";
           "  config.sky1               CONFIG_NET_FOO  MISSING  (policy: y)";
           "  config.sky1-rc            CONFIG_NET_FOO=n  (policy: y)";
           EmptyString;
           "  Fixed: config.sky1-rc: CONFIG_NET_FOO=n -> CONFIG_NET_FOO=y";
           nl +:+ "  1 violation(s) fixed." +:+ nl;
           "--- Sky1-Specific Divergence ---";
           "  All Sky1-specific options are consistent across tracks.";
           EmptyString;
           "--- Summary ---";
           "  2 policy violation(s)";
           "  0 divergent Sky1-specific option(s)";
           "  0 total Sky1-specific options checked" ]).
Proof.
  split; [exact fix_all_keeps|]. split; [exact fix_all_line_feeds|].
  split; [exact parse_config_values|]. split; [exact fix_violation_mismatch|].
  vm_compute. reflexivity.
Qed.

Lemma fix_rewrites_matching_mismatches_only_witness :
  files (reconcile_configs.fix_all [("CONFIG_NET_FOO", "y")]
           [("LTS", [("CONFIG_NET", "y")]);
            ("RC", [("CONFIG_NET", "y"); ("CONFIG_NET_FOO", "n")])] w_scenario).2
    !! track "config.sky1"
  = files w_scenario !! track "config.sky1"
  ∧ line_feeds <$> files (reconcile_configs.fix_all [("CONFIG_NET_FOO", "y")]
           [("LTS", [("CONFIG_NET", "y")]);
            ("RC", [("CONFIG_NET", "y"); ("CONFIG_NET_FOO", "n")])] w_scenario).2
      !! track "config.sky1-rc"
    = Some 2
  ∧ reconcile_configs.fix_violation "CONFIG_NET_FOO" "y" "RC"
      [("CONFIG_NET", "y"); ("CONFIG_NET_FOO", "n")] 0 w_scenario
    = (Ok 1,
       World (<[track "config.sky1-rc" :=
                  replace "CONFIG_NET_FOO=n" "CONFIG_NET_FOO=y"
                    (text ["CONFIG_NET=y"; "CONFIG_NET_FOO=n"])]> (files w_scenario))
         ["  Fixed: config.sky1-rc: CONFIG_NET_FOO=n -> CONFIG_NET_FOO=y"]).
Proof.
  destruct fix_rewrites_matching_mismatches_only as (Hkeep & Hlines & _ & Hstep & _).
  split; [|split].
  - apply Hkeep. vm_compute. reflexivity.
  - rewrite Hlines; [vm_compute; reflexivity| |].
    + intros opt req [= -> ->]%list_elem_of_singleton. reflexivity.
    + intros label cfg opt actual Hin Hget.
      apply elem_of_cons in Hin as [[= -> ->]|Hin].
      { cbn [dict_get] in Hget. destruct (String.eqb "CONFIG_NET" opt); [by injection Hget as <-|done]. }
      apply list_elem_of_singleton in Hin as [= -> ->]. cbn [dict_get] in Hget.
      destruct (String.eqb "CONFIG_NET" opt); [by injection Hget as <-|].
      destruct (String.eqb "CONFIG_NET_FOO" opt); [by injection Hget as <-|done].
  - apply (Hstep "CONFIG_NET_FOO" "y" "RC" _ 0 w_scenario "n"
             (text ["CONFIG_NET=y"; "CONFIG_NET_FOO=n"])).
    + reflexivity.
    + discriminate.
    + vm_compute. reflexivity.
Defined.

(** C2, the claim as stated fails, in two ways.  A required value that
    goes on in a continuation line of the policy file holds a line feed:
    the repair of the MISMATCH of NET_FOO on the RC track then inserts the
    line CONFIG_NET_BAR=y, and the MISSING violation of NET_BAR on that
    track is gone in the next run.  And a track that has the option in the
    not-set comment form is parsed to the value [n]; against the policy
    value [y] this is a MISMATCH, which the fix run reports and does not
    repair: the text OPTION=n does not occur in the file, and no file
    changes. *)
Lemma fix_inserts_line_and_skips_not_set :
  (∃ w', reconcile_configs.cmd_reconcile true false w_continued = (Ok 0, w')
         ∧ "  config.sky1-rc            CONFIG_NET_BAR  MISSING  (policy: y)" ∈ stdout w'
         ∧ files w' !! track "config.sky1-rc"
           = Some (text ["CONFIG_NET=y"; "CONFIG_NET_FOO=y"; "CONFIG_NET_BAR=y"])
         ∧ "  config.sky1-rc            CONFIG_NET_BAR  MISSING  (policy: y)"
           ∉ stdout (reconcile_configs.cmd_reconcile false false (World (files w') [])).2)
  ∧ (∃ w', reconcile_configs.cmd_reconcile true false w_notset = (Ok 0, w')
           ∧ "  config.sky1-rc            CONFIG_NET_FOO=n  (policy: y)" ∈ stdout w'
           ∧ files w' = files w_notset).
Proof.
  split.
  - eexists. split; [vm_compute; reflexivity|]. split; [repeat constructor|].
    split; [vm_compute; reflexivity|].
    intros H%list_elem_of_In. vm_compute in H. intuition discriminate.
  - eexists. split; [vm_compute; reflexivity|]. split; [repeat constructor|].
    vm_compute. reflexivity.
Qed.
(** * Further properties of the code *)

(** ** Commands that skip missing files *)

Lemma read_text_files path t w w0 :
  files w0 = files w → read_text path w = (Ok t, w) → read_text path w0 = (Ok t, w0).
Proof.
  unfold read_text. intros ->. destruct (files w !! path); [|done]. by intros [= <-].
Qed.

Lemma read_text_exists path t w w' :
  read_text path w = (Ok t, w') → is_Some (files w !! path).
Proof. unfold read_text. destruct (files w !! path); [eauto|done]. Qed.

Lemma get_config_value_read path opt t w :
  read_text path w = (Ok t, w) →
  manage_config.get_config_value path opt w
  = (Ok (manage_config.config_value_in ("CONFIG_" +:+ opt) (splitlines t)), w).
Proof.
  intros H. unfold manage_config.get_config_value. by rewrite (bind_ok _ _ _ _ _ H).
Qed.

Lemma report_and_apply_ok changes apply w :
  ∃ w', manage_config.report_and_apply changes apply w = (Ok 0, w').
Proof.
  destruct apply.
  - destruct (report_and_apply_writes changes w) as (out & ->). by eexists.
  - unfold manage_config.report_and_apply.
    erewrite (bind_ok (print _)) by reflexivity. cbv beta.
    erewrite (bind_ok (for_each _ _ _)); cycle 1.
    { apply (print_loop
               (λ c, "  ~/" +:+ relative_to_home (change_path c) +:+ ": " +:+ c.1.2)).
      by intros _ [[path desc] ?]. }
    by eexists.
Qed.

Section Readable.
Variable w : world.
Hypothesis readable : ∀ p, is_Some (files w !! p) → ∃ t, read_text p w = (Ok t, w).

Lemma readable_at w0 p :
  files w0 = files w → is_Some (files w0 !! p) → ∃ t, read_text p w0 = (Ok t, w0).
Proof.
  intros Hw Hp. rewrite Hw in Hp. destruct (readable p Hp) as (t & Ht).
  exists t. by apply (read_text_files _ _ w).
Qed.

Lemma get_policy_entry_read opt w0 :
  files w0 = files w → ∃ e, manage_config.get_policy_entry opt w0 = (Ok e, w0).
Proof.
  intros Hw. unfold manage_config.get_policy_entry, exists_. unfold bind at 1.
  destruct (bool_decide (is_Some (files w0 !! manage_config.POLICY_FILE))) eqn:Hp;
    cbn [negb]; [|by eexists].
  apply bool_decide_eq_true_1 in Hp. destruct (readable_at w0 _ Hw Hp) as (t & Ht).
  rewrite (bind_ok _ _ _ _ _ Ht). by eexists.
Qed.

Lemma get_readme_entry_read opt w0 :
  files w0 = files w → ∃ e, manage_config.get_readme_entry opt w0 = (Ok e, w0).
Proof.
  intros Hw. unfold manage_config.get_readme_entry, exists_. unfold bind at 1.
  destruct (bool_decide (is_Some (files w0 !! manage_config.README_FILE))) eqn:Hp;
    cbn [negb]; [|by eexists].
  apply bool_decide_eq_true_1 in Hp. destruct (readable_at w0 _ Hw Hp) as (t & Ht).
  rewrite (bind_ok _ _ _ _ _ Ht). by eexists.
Qed.

Lemma cmd_show_run opt :
  ∃ w', manage_config.cmd_show opt w = (Ok 0, w') ∧ files w' = files w.
Proof.
  unfold manage_config.cmd_show.
  set (option := manage_config.normalize_option opt).
  erewrite (bind_ok (print _)) by reflexivity. set (w1 := World _ _).
  destruct (for_each_total (λ w', files w' = files w) manage_config.TRACK_CONFIGS
              (λ (_ : ()) path,
                 let* present := exists_ path in
                 if present
                 then let* val := manage_config.get_config_value path option in
                      print ("  " +:+ ljust 25 (name path) +:+ " "
                             +:+ manage_config.display ("CONFIG_" +:+ option) val)
                 else ret ())) with (s := ()) (w := w1) as (? & w2 & E2 & H2); [|done|].
  { intros [] path w0 _ Hw0. unfold exists_, bind at 1.
    destruct (bool_decide (is_Some (files w0 !! path))) eqn:Hp.
    - apply bool_decide_eq_true_1 in Hp. cbv beta iota.
      destruct (readable_at w0 path Hw0 Hp) as (t & Ht).
      rewrite (bind_ok _ _ _ _ _ (get_config_value_read path option t w0 Ht)).
      by eexists _, _.
    - by eexists _, _. }
  rewrite (bind_ok _ _ _ _ _ E2).
  destruct (elem_of_find_dev_configs w2) as (devs & Hdevs & Hin).
  rewrite (bind_ok _ _ _ _ _ Hdevs).
  destruct (for_each_total (λ w', files w' = files w) devs
              (λ (_ : ()) path,
                 let* val := manage_config.get_config_value path option in
                 print ("  (dev) " +:+ ljust 20 (name path) +:+ " "
                        +:+ manage_config.display ("CONFIG_" +:+ option) val)))
    with (s := ()) (w := w2) as (? & w3 & E3 & H3); [|done|].
  { intros [] path w0 [Hp _]%Hin Hw0. rewrite H2, <- Hw0 in Hp.
    destruct (readable_at w0 path Hw0 Hp) as (t & Ht).
    rewrite (bind_ok _ _ _ _ _ (get_config_value_read path option t w0 Ht)).
    by eexists _, _. }
  rewrite (bind_ok _ _ _ _ _ E3).
  destruct (get_policy_entry_read option w3 H3) as (e & He).
  rewrite (bind_ok _ _ _ _ _ He).
  assert (∃ w4, (match e with
                 | Some (sec, val) =>
                     print ("  " +:+ ljust 25 "policy" +:+ " [" +:+ sec +:+ "] "
                            +:+ option +:+ "=" +:+ val)
                 | None => print ("  " +:+ ljust 25 "policy" +:+ " (not in policy)")
                 end) w3 = (Ok (), w4) ∧ files w4 = files w) as (w4 & E4 & H4).
  { destruct e as [[sec val]|]; by eexists. }
  rewrite (bind_ok _ _ _ _ _ E4).
  destruct (get_readme_entry_read option w4 H4) as (r & Hr).
  rewrite (bind_ok _ _ _ _ _ Hr).
  assert (∃ w5, (match r with
                 | Some r => if is_empty r
                             then print ("  " +:+ ljust 25 "README" +:+ " (not documented)")
                             else print ("  " +:+ ljust 25 "README" +:+ " " +:+ r)
                 | None => print ("  " +:+ ljust 25 "README" +:+ " (not documented)")
                 end) w4 = (Ok (), w5) ∧ files w5 = files w) as (w5 & E5 & H5).
  { destruct r as [r|]; [destruct (is_empty r)|]; by eexists. }
  rewrite (bind_ok _ _ _ _ _ E5).
  eexists. split; [reflexivity|done].
Qed.

Lemma cmd_remove_dry_run opt policy doc :
  ∃ w', manage_config.cmd_remove opt policy doc false w = (Ok 0, w').
Proof.
  unfold manage_config.cmd_remove.
  set (o := manage_config.normalize_option opt).
  unfold exists_ at 1. unfold bind at 1.
  assert (∃ c1, (if policy && bool_decide (is_Some (files w !! manage_config.POLICY_FILE))
                 then
                   let* text := read_text manage_config.POLICY_FILE in
                   let '(new_text, changed) := manage_config.remove_policy_entry text o in
                   if changed
                   then ret ([] ++ [(manage_config.POLICY_FILE,
                                     "remove " +:+ o +:+ " from policy", new_text)])
                   else ret []
                 else ret []) w = (Ok c1, w)) as (c1 & E1).
  { destruct policy; cbn [andb]; [|by eexists].
    destruct (bool_decide (is_Some (files w !! manage_config.POLICY_FILE))) eqn:Hp;
      [|by eexists].
    apply bool_decide_eq_true_1 in Hp. destruct (readable _ Hp) as (t & Ht).
    rewrite (bind_ok _ _ _ _ _ Ht).
    destruct (manage_config.remove_policy_entry t o) as [t' []]; by eexists. }
  rewrite (bind_ok _ _ _ _ _ E1). unfold exists_ at 1. unfold bind at 1.
  assert (∃ c2, (if doc && bool_decide (is_Some (files w !! manage_config.README_FILE))
                 then
                   let* text := read_text manage_config.README_FILE in
                   let '(new_text, changed) := manage_config.remove_readme_entry text o in
                   if changed
                   then ret (c1 ++ [(manage_config.README_FILE,
                                     "remove " +:+ o +:+ " from README", new_text)])
                   else ret c1
                 else ret c1) w = (Ok c2, w)) as (c2 & E2).
  { destruct doc; cbn [andb]; [|by eexists].
    destruct (bool_decide (is_Some (files w !! manage_config.README_FILE))) eqn:Hp;
      [|by eexists].
    apply bool_decide_eq_true_1 in Hp. destruct (readable _ Hp) as (t & Ht).
    rewrite (bind_ok _ _ _ _ _ Ht).
    destruct (manage_config.remove_readme_entry t o) as [t' []]; by eexists. }
  rewrite (bind_ok _ _ _ _ _ E2).
  destruct c2; [by eexists|apply report_and_apply_ok].
Qed.
End Readable.

(** X1.  When every path that exists can be read as text, [cmd_show]
    returns 0 for every option name and writes no file: a track config,
    the policy file or the README that does not exist is skipped. *)
Theorem show_skips_missing_files opt w :
  (∀ p, is_Some (files w !! p) → ∃ t, read_text p w = (Ok t, w)) →
  ∃ w', manage_config.cmd_show opt w = (Ok 0, w') ∧ files w' = files w.
Proof. intros H. by apply cmd_show_run. Qed.

Lemma show_skips_missing_files_witness :
  ∃ w', manage_config.cmd_show "USB_UAS" w_set = (Ok 0, w') ∧ files w' = files w_set.
Proof.
  apply show_skips_missing_files. intros p [t Ht]. unfold read_text. rewrite Ht. eauto.
Defined.

(** X2.  When every path that exists can be read as text, the dry run of
    [cmd_remove] returns 0: the policy file and the README are read only
    when they exist. *)
Theorem remove_skips_missing_files opt policy doc w :
  (∀ p, is_Some (files w !! p) → ∃ t, read_text p w = (Ok t, w)) →
  ∃ w', manage_config.cmd_remove opt policy doc false w = (Ok 0, w').
Proof. intros H. by apply cmd_remove_dry_run. Qed.

Lemma remove_skips_missing_files_witness :
  ∃ w', manage_config.cmd_remove "USB_UAS" true true false w_no_policy = (Ok 0, w').
Proof.
  apply remove_skips_missing_files. intros p [t Ht]. unfold read_text. rewrite Ht. eauto.
Defined.

(** ** Removing entries *)

Section Removal.
Variable test : string → bool.
Hypothesis test_empty : test EmptyString = false.

Let removed (text : string) : string :=
  unlines (filter (λ line, test line = false) (splitlines text)).

Lemma splitlines_removed text :
  Forall (λ l, test l = false) (splitlines (removed text))
  ∧ unlines (splitlines (removed text)) = removed text.
Proof.
  subst removed. cbv beta.
  remember (filter (λ line, test line = false) (splitlines text)) as ls eqn:E.
  assert (Forall (λ l, test l = false) ls) as Hls.
  { subst ls. apply Forall_forall. by intros l [? _]%list_elem_of_filter. }
  assert (Forall (λ l, single_line l = true) ls) as Hsl.
  { subst ls. apply Forall_forall. intros x [_ Hx]%list_elem_of_filter.
    pose proof (splitlines_single_line text) as Hsl.
    rewrite Forall_forall in Hsl. by apply Hsl. }
  clear E. destruct ls as [|l ls].
  - split; [|done]. change (splitlines (unlines [])) with [EmptyString].
    by repeat constructor.
  - by rewrite splitlines_unlines.
Qed.

Lemma removed_again text :
  removed (removed text) = removed text
  ∧ existsb test (splitlines (removed text)) = false.
Proof.
  destruct (splitlines_removed text) as [Hall Hun]. split.
  - unfold removed at 1. cbv beta.
    replace (filter (λ line, test line = false) (splitlines (removed text)))
      with (splitlines (removed text)); [done|].
    clear Hun. induction Hall as [|l ls Hl _ IH]; [done|].
    rewrite filter_cons_True by done. by f_equal.
  - destruct (existsb test _) eqn:E; [|done].
    apply existsb_exists in E as (l & Hl%list_elem_of_In & Ht).
    rewrite Forall_forall in Hall. by rewrite Hall in Ht.
Qed.
End Removal.

Lemma is_entry_of_empty bare : manage_config.is_entry_of bare EmptyString = false.
Proof. reflexivity. Qed.

Lemma is_row_of_empty key : manage_config.is_row_of key EmptyString = false.
Proof. unfold manage_config.is_row_of. simpl. by rewrite andb_false_r. Qed.

(** X3.  Removing is idempotent: [remove_policy_entry] and
    [remove_readme_entry], applied to their own output, return it as it is
    and report that nothing was removed. *)
Theorem remove_again_removes_nothing text option :
  manage_config.remove_policy_entry
    (manage_config.remove_policy_entry text option).1 option
  = ((manage_config.remove_policy_entry text option).1, false)
  ∧ manage_config.remove_readme_entry
      (manage_config.remove_readme_entry text option).1 option
    = ((manage_config.remove_readme_entry text option).1, false).
Proof.
  split.
  - destruct (removed_again (manage_config.is_entry_of (upper option))
                (is_entry_of_empty _) text) as [H1 H2].
    unfold manage_config.remove_policy_entry. cbn [fst]. by f_equal.
  - destruct (removed_again (manage_config.is_row_of (manage_config.backticked option))
                (is_row_of_empty _) text) as [H1 H2].
    unfold manage_config.remove_readme_entry. cbn [fst]. by f_equal.
Qed.

(** *** Looking up after a removal *)

Lemma before_cons c a s :
  Ascii.eqb a c = false → ∃ s', before c (String a s) = String a s'.
Proof.
  intros Hac. unfold before. simpl. rewrite Hac.
  destruct (partition c s) as [[x y]|]; by eexists.
Qed.

Lemma policy_lookup_skip bare section line ls :
  startswith bare "[" = false →
  manage_config.is_entry_of bare line = false →
  ∃ section', manage_config.policy_lookup bare section (line :: ls)
              = manage_config.policy_lookup bare section' ls.
Proof.
  intros Hbare Hline. simpl. unfold manage_config.is_entry_of in Hline.
  destruct (startswith (strip line) "[" && endswith (strip line) "]") eqn:Hsec;
    [by eexists|].
  destruct (has_char "="%char (strip line)) eqn:Heq; [|by eexists].
  destruct (startswith (strip line) "#") eqn:Hc; [by eexists|]. cbn [negb andb] in *.
  destruct (String.eqb _ bare) eqn:Hkey; [|by eexists]. exfalso.
  rewrite andb_true_r in Hline. apply negb_false_iff in Hline.
  destruct (strip line) as [|a st]; [done|]. cbn [startswith] in Hline.
  rewrite startswith_nil, andb_true_r in Hline. apply Ascii.eqb_eq in Hline as <-.
  destruct (before_cons "="%char "["%char st) as (s' & Hs'); [done|].
  rewrite Hs', strip_cons in Hkey by done. apply String.eqb_eq in Hkey.
  rewrite <- Hkey in Hbare.
  change (upper (String "["%char (rstrip s'))) with (String "["%char (upper (rstrip s')))
    in Hbare.
  cbn [startswith] in Hbare. by rewrite startswith_nil in Hbare.
Qed.

Lemma policy_lookup_none bare section lines :
  startswith bare "[" = false →
  Forall (λ l, manage_config.is_entry_of bare l = false) lines →
  manage_config.policy_lookup bare section lines = None.
Proof.
  intros Hbare Hall. revert section. induction Hall as [|l ls Hl _ IH]; intros section.
  - done.
  - destruct (policy_lookup_skip bare section l ls Hbare Hl) as (s' & ->). apply IH.
Qed.

Lemma first_row_none key lines :
  Forall (λ l, manage_config.is_row_of key l = false) lines →
  manage_config.first_row key lines = None.
Proof. induction 1 as [|l ls Hl _ IH]; simpl; [done|]. by rewrite Hl. Qed.

Lemma cmd_remove_run option (policy doc : bool) w :
  let o := manage_config.normalize_option option in
  let c1 : list manage_config.change :=
    if policy then
      match files w !! manage_config.POLICY_FILE with
      | Some raw =>
          let r := manage_config.remove_policy_entry (universal_newlines false raw) o in
          if r.2 then [(manage_config.POLICY_FILE, "remove " +:+ o +:+ " from policy", r.1)]
          else []
      | None => []
      end
    else [] in
  let c2 : list manage_config.change :=
    if doc then
      match files w !! manage_config.README_FILE with
      | Some raw =>
          let r := manage_config.remove_readme_entry (universal_newlines false raw) o in
          if r.2 then [(manage_config.README_FILE, "remove " +:+ o +:+ " from README", r.1)]
          else []
      | None => []
      end
    else [] in
  ∃ w1, manage_config.cmd_remove option policy doc true w = (Ok 0, w1)
        ∧ files w1 = apply_changes (c1 ++ c2) (files w).
Proof.
  intros o c1 c2. unfold manage_config.cmd_remove. fold o.
  unfold exists_ at 1. unfold bind at 1.
  assert ((if policy && bool_decide (is_Some (files w !! manage_config.POLICY_FILE))
           then
             let* text := read_text manage_config.POLICY_FILE in
             let '(new_text, changed) := manage_config.remove_policy_entry text o in
             if changed
             then ret ([] ++ [(manage_config.POLICY_FILE,
                               "remove " +:+ o +:+ " from policy", new_text)])
             else ret []
           else ret []) w = (Ok c1, w)) as E1.
  { subst c1. destruct policy; cbn [andb]; [|done].
    destruct (files w !! manage_config.POLICY_FILE) as [t|] eqn:Ht.
    - rewrite bool_decide_eq_true_2 by eauto. unfold read_text, bind. rewrite Ht.
      cbv zeta.
      destruct (manage_config.remove_policy_entry (universal_newlines false t) o)
        as [t' []]; done.
    - by rewrite bool_decide_eq_false_2 by (by intros [? ?]). }
  rewrite (bind_ok _ _ _ _ _ E1). unfold exists_ at 1. unfold bind at 1.
  assert ((if doc && bool_decide (is_Some (files w !! manage_config.README_FILE))
           then
             let* text := read_text manage_config.README_FILE in
             let '(new_text, changed) := manage_config.remove_readme_entry text o in
             if changed
             then ret (c1 ++ [(manage_config.README_FILE,
                               "remove " +:+ o +:+ " from README", new_text)])
             else ret c1
           else ret c1) w = (Ok (c1 ++ c2), w)) as E2.
  { subst c2. destruct doc; cbn [andb]; [|by rewrite app_nil_r].
    destruct (files w !! manage_config.README_FILE) as [t|] eqn:Ht.
    - rewrite bool_decide_eq_true_2 by eauto. unfold read_text, bind. rewrite Ht.
      cbv zeta.
      destruct (manage_config.remove_readme_entry (universal_newlines false t) o)
        as [t' []]; [done|by rewrite app_nil_r].
    - rewrite bool_decide_eq_false_2 by (by intros [? ?]). by rewrite app_nil_r. }
  rewrite (bind_ok _ _ _ _ _ E2).
  destruct (c1 ++ c2) as [|c cs] eqn:E.
  - by eexists.
  - destruct (report_and_apply_writes (c :: cs) w) as (out & ->). by eexists.
Qed.

Lemma splitlines_no_cr text : Forall (λ l, has_char CR l = false) (splitlines text).
Proof.
  eapply Forall_impl; [apply splitlines_single_line|].
  intros l. apply single_line_no_cr.
Qed.

Lemma removed_text_no_cr test text :
  has_char CR (unlines (filter (λ line, test line = false) (splitlines text))) = false.
Proof.
  apply has_char_unlines; [done|]. apply Forall_forall.
  intros l [_ Hl]%list_elem_of_filter.
  pose proof (splitlines_no_cr text) as H. rewrite Forall_forall in H. by apply H.
Qed.

Lemma apply_changes_other changes fs p :
  (∀ c, c ∈ changes → change_path c ≠ p) →
  apply_changes changes fs !! p = fs !! p.
Proof.
  intros H. rewrite (apply_changes_lookup changes fs p EmptyString).
  - destruct (existsb _ changes) eqn:E; [|done].
    apply existsb_path in E as (c & Hc & Hp). by destruct (H c Hc).
  - intros c Hc Hp. by destruct (H c Hc).
Qed.

Lemma apply_changes_app cs cs' fs :
  apply_changes (cs ++ cs') fs = apply_changes cs' (apply_changes cs fs).
Proof. unfold apply_changes. apply foldl_app. Qed.

(** X4.  After [remove] with [--apply], for an option name that does not
    start with a bracket, [show] finds the option no more: with [--policy]
    the lookup in the policy file returns nothing, with [--doc] the lookup
    in the README returns nothing, whether the file was rewritten, left as
    it was or is not on disk. *)
Theorem removed_entry_is_gone opt policy doc w :
  startswith (manage_config.normalize_option opt) "[" = false →
  ∃ w1, manage_config.cmd_remove opt policy doc true w = (Ok 0, w1)
        ∧ (policy = true →
           manage_config.get_policy_entry (manage_config.normalize_option opt) w1
           = (Ok None, w1))
        ∧ (doc = true →
           manage_config.get_readme_entry (manage_config.normalize_option opt) w1
           = (Ok None, w1)).
Proof.
  intros Hopt. destruct (cmd_remove_run opt policy doc w) as (w1 & Hrun & Hfiles).
  exists w1. split; [done|]. clear Hrun. cbv zeta in Hfiles.
  set (o := manage_config.normalize_option opt) in *.
  assert (startswith (upper o) "[" = false) as Hbare
    by (rewrite startswith_char_upper; auto).
  assert (manage_config.POLICY_FILE ≠ manage_config.README_FILE) as Hne by (by vm_compute).
  remember (if policy then _ else _) as c1 eqn:E1 in Hfiles.
  remember (if doc then _ else _) as c2 eqn:E2 in Hfiles.
  assert (∀ c, c ∈ c1 → change_path c = manage_config.POLICY_FILE) as Hc1.
  { subst c1. destruct policy; [|by intros ? ?%elem_of_nil].
    destruct (files w !! manage_config.POLICY_FILE); [|by intros ? ?%elem_of_nil].
    destruct (manage_config.remove_policy_entry _ _).2; [|by intros ? ?%elem_of_nil].
    by intros c ->%list_elem_of_singleton. }
  assert (∀ c, c ∈ c2 → change_path c = manage_config.README_FILE) as Hc2.
  { subst c2. destruct doc; [|by intros ? ?%elem_of_nil].
    destruct (files w !! manage_config.README_FILE); [|by intros ? ?%elem_of_nil].
    destruct (manage_config.remove_readme_entry _ _).2; [|by intros ? ?%elem_of_nil].
    by intros c ->%list_elem_of_singleton. }
  assert (files w1 !! manage_config.POLICY_FILE
          = apply_changes c1 (files w) !! manage_config.POLICY_FILE) as HP.
  { rewrite Hfiles, apply_changes_app. apply apply_changes_other.
    intros c Hc. rewrite (Hc2 c Hc). done. }
  assert (files w1 !! manage_config.README_FILE
          = apply_changes c2 (files w) !! manage_config.README_FILE) as HR.
  { rewrite Hfiles, apply_changes_app.
    rewrite (apply_changes_lookup c2 _ _ (default EmptyString (change_text <$> c2 !! 0))).
    - rewrite (apply_changes_lookup c2 (files w) _
                 (default EmptyString (change_text <$> c2 !! 0))).
      + destruct (existsb _ c2); [done|]. apply apply_changes_other.
        intros c Hc. rewrite (Hc1 c Hc). done.
      + subst c2. destruct doc; [|by intros ? ?%elem_of_nil].
        destruct (files w !! manage_config.README_FILE); [|by intros ? ?%elem_of_nil].
        destruct (manage_config.remove_readme_entry _ _).2; [|by intros ? ?%elem_of_nil].
        by intros c ->%list_elem_of_singleton.
    - subst c2. destruct doc; [|by intros ? ?%elem_of_nil].
      destruct (files w !! manage_config.README_FILE); [|by intros ? ?%elem_of_nil].
      destruct (manage_config.remove_readme_entry _ _).2; [|by intros ? ?%elem_of_nil].
      by intros c ->%list_elem_of_singleton. }
  clear Hfiles Hc1 Hc2.
  assert (∀ t, files w1 !! manage_config.POLICY_FILE = Some t →
               manage_config.policy_lookup (upper o) None
                 (splitlines (universal_newlines false t)) = None →
               manage_config.get_policy_entry o w1 = (Ok None, w1)) as Hget.
  { intros t Ht Hl. unfold manage_config.get_policy_entry, exists_, read_text, bind, ret.
    rewrite Ht, bool_decide_eq_true_2 by eauto. cbn [negb]. rewrite Ht. by rewrite Hl. }
  assert (∀ t, files w1 !! manage_config.README_FILE = Some t →
               manage_config.first_row (manage_config.backticked o)
                 (splitlines (universal_newlines false t)) = None →
               manage_config.get_readme_entry o w1 = (Ok None, w1)) as Hrow.
  { intros t Ht Hl. unfold manage_config.get_readme_entry, exists_, read_text, bind, ret.
    rewrite Ht, bool_decide_eq_true_2 by eauto. cbn [negb]. rewrite Ht. by rewrite Hl. }
  split.
  - intros ->. clear HR E2 Hrow.
    destruct (files w !! manage_config.POLICY_FILE) as [raw|] eqn:Hraw.
    + unfold manage_config.remove_policy_entry in E1. cbn [fst snd] in E1.
      destruct (existsb _ _) eqn:Hex in E1; subst c1.
      * cbn [apply_changes foldl change_path change_text fst snd] in HP.
        rewrite lookup_insert_eq in HP. apply (Hget _ HP).
        rewrite universal_newlines_id by apply removed_text_no_cr.
        apply policy_lookup_none; [done|].
        apply (splitlines_removed _ (is_entry_of_empty (upper o))).
      * cbn [apply_changes foldl] in HP. rewrite Hraw in HP. apply (Hget _ HP).
        apply policy_lookup_none; [done|]. apply Forall_forall.
        intros l Hl. by eapply existsb_false_Forall.
    + subst c1. cbn [apply_changes foldl] in HP. rewrite Hraw in HP.
      unfold manage_config.get_policy_entry, exists_, bind, ret.
      by rewrite HP, bool_decide_eq_false_2 by (by intros [? ?]).
  - intros ->. clear HP E1 Hget.
    destruct (files w !! manage_config.README_FILE) as [raw|] eqn:Hraw.
    + unfold manage_config.remove_readme_entry in E2. cbn [fst snd] in E2.
      destruct (existsb _ _) eqn:Hex in E2; subst c2.
      * cbn [apply_changes foldl change_path change_text fst snd] in HR.
        rewrite lookup_insert_eq in HR. apply (Hrow _ HR).
        rewrite universal_newlines_id by apply removed_text_no_cr.
        apply first_row_none.
        apply (splitlines_removed _ (is_row_of_empty (manage_config.backticked o))).
      * cbn [apply_changes foldl] in HR. rewrite Hraw in HR. apply (Hrow _ HR).
        apply first_row_none. apply Forall_forall.
        intros l Hl. by eapply existsb_false_Forall.
    + subst c2. cbn [apply_changes foldl] in HR. rewrite Hraw in HR.
      unfold manage_config.get_readme_entry, exists_, bind, ret.
      by rewrite HR, bool_decide_eq_false_2 by (by intros [? ?]).
Qed.

Lemma removed_entry_is_gone_witness :
  ∃ w1, manage_config.cmd_remove "CONFIG_USB_STORAGE" true true true w_set = (Ok 0, w1)
        ∧ manage_config.get_policy_entry "USB_STORAGE" w1 = (Ok None, w1)
        ∧ manage_config.get_readme_entry "USB_STORAGE" w1 = (Ok None, w1).
Proof.
  destruct (removed_entry_is_gone "CONFIG_USB_STORAGE" true true w_set)
    as (w1 & H1 & H2 & H3); [reflexivity|].
  exists w1. split; [exact H1|]. split; [by apply H2|by apply H3].
Defined.

(** ** Looking up what was set *)

Lemma partition_no_char c s : has_char c s = false → partition c s = None.
Proof.
  induction s as [|a s IH]; [done|]. simpl. intros [Ha Hs]%orb_false_iff.
  by rewrite Ha, IH.
Qed.

Lemma after_app c a b :
  has_char c a = false → after c (a +:+ String c b) = b.
Proof.
  intros Ha. unfold after. by rewrite partition_app.
Qed.

Section LookupPolicy.
Import manage_config.
Variables (option value section : string).
Hypothesis Hname : plain_name option = true.
Hypothesis Hvalue : plain_value value = true.

Let bare := upper option.
Let new_entry := bare +:+ "=" +:+ value.

Lemma set_policy_entry_unchanged text t :
  set_policy_entry text option value section = (t, false) →
  ∃ i l, find_entry bare (splitlines text) = Some i
         ∧ splitlines text !! i = Some l ∧ strip l = new_entry.
Proof.
  unfold set_policy_entry. fold bare. fold new_entry.
  destruct (find_entry bare (splitlines text)) as [i|] eqn:Hi.
  - destruct (String.eqb _ new_entry) eqn:Heq; [|done]. intros _.
    apply String.eqb_eq in Heq.
    pose proof Hi as (j & l & -> & Hl & _)%first_index_Some.
    exists j, l. cbn [Nat.add] in Heq. rewrite Hl in Heq. by repeat split.
  - by destruct (find_insert _ _ _ _ _).
Qed.

Lemma policy_lookup_entry sec l ls :
  strip l = new_entry →
  ∃ s, policy_lookup bare sec (l :: ls) = Some (s, strip value).
Proof.
  destruct (name_facts option Hname) as (_ & Hs & He & Hc & Hb).
  fold bare in Hs, He, Hc, Hb.
  intros Hl. simpl. rewrite Hl. subst new_entry.
  change (bare +:+ "=" +:+ value) with (bare +:+ String "="%char value).
  assert (∀ c, startswith bare (String c EmptyString) = false →
               Ascii.eqb c "="%char = false →
               startswith (bare +:+ String "="%char value) (String c EmptyString) = false)
    as Hst.
  { intros c Hc' Hne. destruct (decide (bare = EmptyString)) as [E|Hn].
    - rewrite E, app_nil_l_s. simpl. by rewrite Hne.
    - by rewrite startswith_nonempty_app. }
  rewrite !Hst by done. cbn [andb negb].
  rewrite has_char_app. cbn [has_char]. rewrite Ascii.eqb_refl, orb_true_r.
  unfold before. rewrite partition_app by done. rewrite Hs.
  subst bare. rewrite upper_idem, String.eqb_refl.
  rewrite after_app by done. by eexists.
Qed.

Lemma policy_lookup_first sec lines i l :
  find_entry bare lines = Some i → lines !! i = Some l → strip l = new_entry →
  ∃ s, policy_lookup bare sec lines = Some (s, strip value).
Proof.
  destruct (name_facts option Hname) as (_ & _ & _ & _ & Hb).
  fold bare in Hb.
  intros (j & l' & -> & Hl' & _ & Hpre)%first_index_Some Hl Hstrip.
  simpl in Hl. rewrite <- (take_drop_middle lines j l) by done.
  clear Hl' Hl. revert sec. induction Hpre as [|x pre Hx _ IH]; intros sec.
  - by apply policy_lookup_entry.
  - destruct (policy_lookup_skip bare sec x (pre ++ l :: list.drop (S j) lines) Hb Hx)
      as (s' & Hskip).
    rewrite <- app_comm_cons, Hskip. apply IH.
Qed.
End LookupPolicy.

Section SetThenShow.
Import manage_config.
Variables (opt value : string).
Variables (policy_section doc_heading doc_type doc_desc : Datatypes.option string).

Let option := normalize_option opt.
Let Ecfg := edit_config option value.
Let Epol := edit_policy option value policy_section.
Let Edoc := edit_readme option doc_heading doc_type doc_desc.

Hypothesis Hname : plain_name option = true.
Hypothesis Hvalue : plain_value value = true.
Hypothesis Hsection : one_line policy_section = true.
Hypothesis Htype : one_line doc_type = true.
Hypothesis Hdesc : one_line doc_desc = true.

(** What [cmd_set] with [--apply] leaves on disk: every file that it
    reads is one on which its edit changes nothing. *)
Lemma cmd_set_settles w n w1 :
  cmd_set opt value policy_section doc_heading doc_type doc_desc true w = (Ok n, w1) →
  (∀ p, p ∈ TRACK_CONFIGS → files w1 !! p = None ∨ settled (files w1) Ecfg p)
  ∧ (∀ p, is_Some (files w1 !! p) → is_dev_config p = true → settled (files w1) Ecfg p)
  ∧ (truthy policy_section = None ∨ settled (files w1) Epol POLICY_FILE)
  ∧ ((truthy doc_heading = None ∨ truthy doc_type = None ∨ truthy doc_desc = None)
     ∨ settled (files w1) Edoc README_FILE).
Proof.
  intros (changes & Hfiles & Hfrom & Htrack & Hdev & Hpol & Hdoc)%cmd_set_first.
  specialize (Hfiles eq_refl).
  assert (∀ c, c ∈ changes → is_Some (files w !! change_path c)) as Hdom.
  { intros c Hc.
    destruct (Hfrom c Hc) as [[_ (raw & -> & _)]|[[_ (raw & -> & _)]|[_ (raw & -> & _)]]];
      by eexists. }
  assert (∀ p, is_dev_config p = true →
               (p ∉ TRACK_CONFIGS) ∧ (p ≠ POLICY_FILE) ∧ (p ≠ README_FILE)) as Hdevp.
  { intros p Hp. split; [|split].
    - intros Hin. unfold TRACK_CONFIGS in Hin.
      repeat (apply elem_of_cons in Hin as [-> | Hin]; [by vm_compute in Hp|]).
      by apply elem_of_nil in Hin.
    - intros ->. by vm_compute in Hp.
    - intros ->. by vm_compute in Hp. }
  assert ((POLICY_FILE ∉ TRACK_CONFIGS) ∧ (README_FILE ∉ TRACK_CONFIGS)
          ∧ (POLICY_FILE ≠ README_FILE)) as (Hp1 & Hp2 & Hp3).
  { split; [|split]; [| |by vm_compute];
      (intros Hin; unfold TRACK_CONFIGS in Hin;
       repeat (apply elem_of_cons in Hin as [Heq | Hin]; [by vm_compute in Heq|]);
       by apply elem_of_nil in Hin). }
  assert (∀ p, p ∈ TRACK_CONFIGS ∨ is_dev_config p = true →
               ∀ c, c ∈ changes → change_path c = p → from_edit (files w) Ecfg c) as Hcfg.
  { intros p Hp c Hc Hcp.
    destruct (Hfrom c Hc) as [[_ ?]|[[Hq _]|[Hq _]]]; [done|exfalso..];
      rewrite Hq in Hcp; subst p; destruct Hp as [Hp|Hp]; try done;
      by apply Hdevp in Hp as (_ & ? & ?). }
  rewrite Hfiles. split; [|split; [|split]].
  - intros p Hp. destruct (Htrack p Hp) as [Hnone|Hed].
    + left. apply eq_None_not_Some. rewrite apply_changes_dom by done.
      by rewrite Hnone; intros [? ?].
    + right. apply settled_after; [by apply settles_config|by apply Hcfg; left|done].
  - intros p Hp%apply_changes_dom Hd; [|done].
    apply settled_after; [by apply settles_config|by apply Hcfg; right|by apply Hdev].
  - destruct Hpol as [?|Hed]; [by left|right].
    apply settled_after; [by apply settles_policy| |done].
    intros c Hc Hcp.
    destruct (Hfrom c Hc) as [[[Hq|Hq] _]|[[_ ?]|[Hq _]]]; [exfalso..|done|exfalso].
    + by rewrite Hcp in Hq.
    + apply Hdevp in Hq as (_ & ? & _). done.
    + by rewrite Hq in Hcp.
  - destruct Hdoc as [?|Hed]; [by left|right].
    apply settled_after; [by apply (settles_readme option value)| |done].
    intros c Hc Hcp. destruct (Hfrom c Hc) as [[[Hq|Hq] _]|[[Hq _]|[_ ?]]]; [exfalso..|done].
    + by rewrite Hcp in Hq.
    + apply Hdevp in Hq as (_ & _ & ?). done.
    + by rewrite Hq in Hcp.
Qed.

Lemma cmd_set_then_policy w n w1 section :
  cmd_set opt value policy_section doc_heading doc_type doc_desc true w = (Ok n, w1) →
  truthy policy_section = Some section →
  ∃ s, get_policy_entry option w1 = (Ok (Some (s, strip value)), w1).
Proof.
  intros (_ & _ & Hpol & _)%cmd_set_settles Hsec.
  destruct Hpol as [Hnone|(raw & t & Hraw & He)]; [congruence|].
  unfold Epol, edit_policy in He. rewrite Hsec in He. injection He as He.
  apply (set_policy_entry_unchanged option value section) in He as (i & l & Hi & Hl & Hs).
  destruct (policy_lookup_first option value Hname None _ i l Hi Hl Hs) as (s & Hlook).
  exists s. unfold get_policy_entry, exists_, read_text, bind, ret.
  rewrite Hraw, bool_decide_eq_true_2 by eauto. cbn [negb]. rewrite Hraw.
  by rewrite Hlook.
Qed.
End SetThenShow.

(** X5.  After [set OPTION=VALUE --policy SECTION --apply], for a plain
    name and value, [show] finds the option in the policy file with the
    value given, stripped of leading white space. *)
Theorem set_then_show_policy opt value policy_section doc_heading doc_type doc_desc
    section w n w1 :
  plain_name (manage_config.normalize_option opt) = true →
  plain_value value = true →
  one_line policy_section = true →
  one_line doc_type = true →
  one_line doc_desc = true →
  manage_config.truthy policy_section = Some section →
  manage_config.cmd_set opt value policy_section doc_heading doc_type doc_desc true w
  = (Ok n, w1) →
  ∃ s, manage_config.get_policy_entry (manage_config.normalize_option opt) w1
       = (Ok (Some (s, strip value)), w1).
Proof.
  intros Hname Hvalue Hsection Htype Hdesc Hsec Hrun.
  exact (cmd_set_then_policy opt value policy_section doc_heading doc_type doc_desc
           Hname Hvalue Hsection Htype Hdesc w n w1 section Hrun Hsec).
Qed.

Lemma set_then_show_policy_witness :
  ∃ w1,
    manage_config.cmd_set "CONFIG_USB_UAS" "m" (Some "usb") (Some "USB Support")
      (Some "module") (Some "USB Attached SCSI") true w_set = (Ok 0, w1)
    ∧ ∃ s, manage_config.get_policy_entry "USB_UAS" w1 = (Ok (Some (s, "m")), w1).
Proof.
  eexists. split; [vm_compute; reflexivity|].
  apply (set_then_show_policy "CONFIG_USB_UAS" "m" (Some "usb") (Some "USB Support")
           (Some "module") (Some "USB Attached SCSI") "usb" w_set 0);
    [reflexivity..|vm_compute; reflexivity].
Defined.

(** *** The README row *)

Lemma find_row_slot_no_heading pattern in_table insert_at i lines :
  Forall (λ l, String.eqb (strip l) pattern = false) lines →
  manage_config.find_row_slot pattern false in_table insert_at i lines = insert_at.
Proof.
  intros H. revert i. induction H as [|l ls Hl _ IH]; intros i; simpl; [done|].
  by rewrite Hl, IH.
Qed.

Lemma first_row_first_index key lines :
  manage_config.first_row key lines
  = match manage_config.first_index (manage_config.is_row_of key) 0 lines with
    | Some i => Some (strip (default EmptyString (lines !! i)))
    | None => None
    end.
Proof.
  assert (∀ i0, match manage_config.first_index (manage_config.is_row_of key) i0 lines with
                | Some i => Some (strip (default EmptyString (lines !! (i - i0))))
                | None => None
                end = manage_config.first_row key lines) as H.
  { induction lines as [|l ls IH]; intros i0; simpl; [done|].
    destruct (manage_config.is_row_of key l).
    - by rewrite Nat.sub_diag.
    - rewrite <- (IH (S i0)).
      destruct (manage_config.first_index _ (S i0) ls) as [i|] eqn:E; [|done].
      apply first_index_Some in E as (j & ? & -> & _).
      replace (S i0 + j - i0) with (S j) by lia.
      replace (S i0 + j - S i0) with j by lia. done. }
  rewrite <- (H 0). destruct (manage_config.first_index _ 0 lines); [|done]. by rewrite Nat.sub_0_r.
Qed.

Section LookupReadme.
Import manage_config.
Variables (option heading opt_type desc : string).

Let key := backticked option.
Let new_row := "| `" +:+ option +:+ "` | " +:+ opt_type +:+ " | " +:+ desc +:+ " |".

Lemma add_readme_entry_unchanged text t :
  add_readme_entry text option heading opt_type desc = (t, false) →
  first_row key (splitlines text) = Some new_row
  ∨ first_row key (splitlines text) = None.
Proof.
  unfold add_readme_entry. fold key. fold new_row. rewrite first_row_first_index.
  unfold find_row.
  destruct (contains key text) eqn:Hc.
  - destruct (first_index _ 0 _) as [i|]; [|by right].
    destruct (String.eqb _ new_row) eqn:Heq; [|done]. intros _. left.
    by apply String.eqb_eq in Heq as ->.
  - intros _. right.
    destruct (first_index _ 0 _) as [i|] eqn:Hi; [|done].
    apply first_index_Some in Hi as (j & l & _ & Hl & Hrow & _).
    unfold is_row_of in Hrow. apply andb_true_iff in Hrow as [Hk _].
    apply list_elem_of_lookup_2 in Hl.
    by rewrite (contains_splitlines key text l Hl Hk) in Hc.
Qed.
End LookupReadme.

(** X6.  A heading that the README does not have, for an option without
    a row: [add_readme_entry] adds nothing and reports no change; [set]
    then leaves the README as it is, with no error. *)
Theorem add_readme_entry_without_heading text option heading opt_type desc :
  forallb (λ l, negb (String.eqb (strip l) ("## " +:+ heading))) (splitlines text) = true →
  manage_config.first_row (manage_config.backticked option) (splitlines text) = None →
  manage_config.add_readme_entry text option heading opt_type desc = (text, false).
Proof.
  intros Hhead Hrow. unfold manage_config.add_readme_entry.
  assert (manage_config.insert_row text heading
            ("| `" +:+ option +:+ "` | " +:+ opt_type +:+ " | " +:+ desc +:+ " |")
          = (text, false)) as ->.
  { unfold manage_config.insert_row. rewrite find_row_slot_no_heading; [done|].
    apply Forall_forall. intros l Hl%list_elem_of_In.
    rewrite forallb_forall in Hhead. by apply negb_true_iff, Hhead. }
  rewrite first_row_first_index in Hrow. unfold manage_config.find_row.
  destruct (manage_config.first_index _ 0 _); [done|].
  by destruct (contains _ text).
Qed.

Lemma add_readme_entry_without_heading_witness :
  manage_config.add_readme_entry
    (text ["## USB Support"; EmptyString; "| Option | Type | Description |";
           "|---|---|---|"; "| `USB_STORAGE` | builtin | USB mass storage |"])
    "SND_HDA" "Audio" "module" "HD audio"
  = (text ["## USB Support"; EmptyString; "| Option | Type | Description |";
           "|---|---|---|"; "| `USB_STORAGE` | builtin | USB mass storage |"], false).
Proof. apply add_readme_entry_without_heading; reflexivity. Defined.

(** X7.  After [set] with [--doc], [--type], [--desc] and [--apply], for a
    plain name and value, [show] finds in the README either the row as it
    was given or no row of the option, never a row that differs. *)
Theorem set_then_show_readme opt value policy_section doc_heading doc_type doc_desc
    heading opt_type desc w n w1 :
  plain_name (manage_config.normalize_option opt) = true →
  plain_value value = true →
  one_line policy_section = true →
  one_line doc_type = true →
  one_line doc_desc = true →
  manage_config.truthy doc_heading = Some heading →
  manage_config.truthy doc_type = Some opt_type →
  manage_config.truthy doc_desc = Some desc →
  manage_config.cmd_set opt value policy_section doc_heading doc_type doc_desc true w
  = (Ok n, w1) →
  let option := manage_config.normalize_option opt in
  manage_config.get_readme_entry option w1
  = (Ok (Some ("| `" +:+ option +:+ "` | " +:+ opt_type +:+ " | " +:+ desc +:+ " |")), w1)
  ∨ manage_config.get_readme_entry option w1 = (Ok None, w1).
Proof.
  intros Hname Hvalue Hsection Htype Hdesc Hh Ht Hd Hrun option. subst option.
  destruct (cmd_set_settles opt value policy_section doc_heading doc_type doc_desc
              Hname Hvalue Hsection Htype Hdesc w n w1 Hrun) as (_ & _ & _ & Hdoc).
  destruct Hdoc as [[?|[?|?]]|(raw & t & Hraw & He)]; [congruence..|].
  unfold edit_readme in He. rewrite Hh, Ht, Hd in He. injection He as He.
  apply add_readme_entry_unchanged in He.
  unfold manage_config.get_readme_entry, exists_, read_text, bind, ret.
  rewrite Hraw, bool_decide_eq_true_2 by eauto. cbn [negb]. rewrite Hraw.
  destruct He as [-> | ->]; [by left|by right].
Qed.

Lemma set_then_show_readme_witness :
  ∃ w1,
    manage_config.cmd_set "CONFIG_USB_UAS" "m" (Some "usb") (Some "USB Support")
      (Some "module") (Some "USB Attached SCSI") true w_set = (Ok 0, w1)
    ∧ (manage_config.get_readme_entry "USB_UAS" w1
       = (Ok (Some "| `USB_UAS` | module | USB Attached SCSI |"), w1)
       ∨ manage_config.get_readme_entry "USB_UAS" w1 = (Ok None, w1)).
Proof.
  eexists. split; [vm_compute; reflexivity|].
  apply (set_then_show_readme "CONFIG_USB_UAS" "m" (Some "usb") (Some "USB Support")
           (Some "module") (Some "USB Attached SCSI") "USB Support" "module"
           "USB Attached SCSI" w_set 0);
    [reflexivity..|vm_compute; reflexivity].
Defined.

(** *** The config value *)

Lemma single_line_lf_only s : single_line s = true → lf_only s = true.
Proof.
  induction s as [|c s IH]; [done|]. simpl. intros [Hc Hs]%andb_true_iff.
  by rewrite Hc, IH.
Qed.

Lemma lf_only_app s t : lf_only (s +:+ t) = lf_only s && lf_only t.
Proof.
  induction s as [|a s IH]; [done|]. rewrite app_cons_s. simpl. rewrite IH.
  by rewrite andb_assoc.
Qed.

Lemma lf_only_join ls :
  Forall (λ l, single_line l = true) ls → lf_only (join nl ls) = true.
Proof.
  induction 1 as [|l ls Hl Hls IH]; [done|].
  destruct ls as [|l2 ls]; simpl join.
  - by apply single_line_lf_only.
  - rewrite !lf_only_app, single_line_lf_only by done. simpl. exact IH.
Qed.

Lemma split_nl_single_line s :
  lf_only s = true → Forall (λ l, single_line l = true) (split_nl s).
Proof.
  induction s as [|c s IH]; simpl; [by repeat constructor|].
  intros [Hc Hs]%andb_true_iff. specialize (IH Hs).
  destruct (Ascii.eqb c LF) eqn:E.
  - by constructor.
  - rewrite orb_false_r in Hc. destruct IH as [|l ls Hl Hls]; simpl.
    + repeat constructor. simpl. by rewrite Hc.
    + constructor; [|done]. simpl. by rewrite Hc, Hl.
Qed.

Lemma drop_last_empty_app_last ls :
  ∃ tl, ls = drop_last_empty ls ++ tl ∧ (tl = [] ∨ tl = [EmptyString]).
Proof.
  induction ls as [|l ls IH]; [by exists []; auto|].
  destruct ls as [|l2 ls].
  - simpl. destruct l; [exists [EmptyString]|exists []]; auto.
  - destruct IH as (tl & E & Htl). exists tl. split; [|done].
    change (drop_last_empty (l :: l2 :: ls)) with (l :: drop_last_empty (l2 :: ls)).
    simpl app. by f_equal.
Qed.

Section ConfigValue.
Import manage_config.
Variables (option value : string).
Hypothesis Hname : plain_name option = true.
Hypothesis Hvalue : plain_value value = true.

Let key := "CONFIG_" +:+ option.
Let new_line := if String.eqb value "n" then disabled_line key else key +:+ "=" +:+ value.

Lemma disabled_line_not_enabled : pattern_enabled key (disabled_line key) = false.
Proof.
  unfold key, pattern_enabled, enabled_prefix, disabled_line.
  rewrite !app_cons_s. cbn [startswith]. reflexivity.
Qed.

Lemma config_value_in_app key' pre post :
  Forall (λ l, pattern_enabled key' l = false ∧ pattern_disabled key' l = false) pre →
  config_value_in key' (pre ++ post) = config_value_in key' post.
Proof.
  induction 1 as [|l ls [H1 H2] _ IH]; [done|]. simpl.
  unfold pattern_enabled in H1. unfold pattern_disabled in H2. by rewrite H1, H2.
Qed.

Lemma config_value_in_drop_last_empty ls :
  config_value_in key (drop_last_empty ls) = config_value_in key ls.
Proof.
  assert (∀ pre, config_value_in key (pre ++ [EmptyString]) = config_value_in key pre) as H.
  { induction pre as [|l pre IH]; [done|]. cbn [app config_value_in]. by rewrite IH. }
  destruct (drop_last_empty_app_last ls) as (tl & E & [-> | ->]).
  - by rewrite app_nil_r in E; rewrite <- E.
  - rewrite E at 2. by rewrite H.
Qed.

Lemma config_value_in_new_line ls : config_value_in key (new_line :: ls) = Some value.
Proof.
  assert (has_char "="%char key = false) as He.
  { unfold plain_name in Hname. repeat (apply andb_true_iff in Hname as [Hname ?]).
    unfold key. rewrite has_char_app. by apply negb_true_iff. }
  unfold new_line. cbn [config_value_in]. destruct (String.eqb value "n") eqn:E.
  - pose proof disabled_line_not_enabled as H. unfold pattern_enabled in H.
    rewrite H, String.eqb_refl. by apply String.eqb_eq in E as ->.
  - unfold enabled_prefix. rewrite <- app_assoc_s, startswith_app.
    rewrite app_assoc_s.
    change (key +:+ "=" +:+ value) with (key +:+ String "="%char value).
    by rewrite after_app.
Qed.

Lemma config_value_in_put (P : string → bool) ls :
  existsb P ls = true →
  (∀ l, l ∈ ls → P l = false →
        pattern_enabled key l = false
        ∧ (pattern_disabled key l = false ∨ value = "n")) →
  config_value_in key (map (put P new_line) ls) = Some value.
Proof.
  induction ls as [|l ls IH]; [done|]. intros Hex Hother.
  cbn [map]. unfold put at 1.
  destruct (P l) eqn:HP; [apply config_value_in_new_line|].
  destruct (Hother l) as [He Hd]; [by left|done|].
  cbn [config_value_in]. unfold pattern_enabled in He. rewrite He.
  destruct (String.eqb l (disabled_line key)) eqn:Hdl.
  - destruct Hd as [Hd| ->]; [|done]. unfold pattern_disabled in Hd. congruence.
  - apply IH.
    + simpl in Hex. by rewrite HP in Hex.
    + intros l' Hl'. apply Hother. by right.
Qed.

(** The value that [set_config_line] gives to an option of the text is
    the value that [get_config_value] then finds. *)
Lemma set_config_line_then_get text t changed :
  lf_only text = true →
  set_config_line text option value = Ok (t, changed) →
  re.search (pattern_enabled key) text || re.search (pattern_disabled key) text = true →
  (value ≠ "n" → re.search (pattern_enabled key) text
                 && re.search (pattern_disabled key) text = false) →
  config_value_in key (splitlines t) = Some value.
Proof.
  destruct (plain_facts option value Hname Hvalue) as (Ho & Ho' & Hv & Hv').
  intros Hlf. rewrite set_config_line_run by done. cbv zeta. fold key. fold new_line.
  assert (single_line new_line = true) as Hsl.
  { unfold new_line, key, disabled_line.
    destruct (String.eqb value "n"); by rewrite !single_line_app, Ho', ?Hv'. }
  assert (∀ P, config_value_in key
                 (splitlines (join nl (map (put P new_line) (split_nl text))))
               = config_value_in key (map (put P new_line) (split_nl text))) as Hlines.
  { intros P. unfold splitlines. rewrite config_value_in_drop_last_empty.
    rewrite segments_lf_only, split_nl_join_put; [done|by apply single_line_no_lf|].
    apply lf_only_join. apply List.Forall_map.
    eapply Forall_impl; [by apply split_nl_single_line|].
    intros l Hl. unfold put. by destruct (P l). }
  unfold re.search.
  destruct (existsb (pattern_enabled key) (split_nl text)) eqn:E1.
  - intros [= <- _] _ Hmix. rewrite Hlines. apply config_value_in_put; [done|].
    intros l Hl HP. split; [done|].
    destruct (String.eqb_spec value "n") as [->|Hn]; [by right|left].
    specialize (Hmix Hn). cbn [andb] in Hmix. by eapply existsb_false_Forall.
  - destruct (existsb (pattern_disabled key) (split_nl text)) eqn:E2; [|done].
    intros [= <- _] _ _. rewrite Hlines. apply config_value_in_put; [done|].
    intros l Hl HP. split; [by eapply existsb_false_Forall|by left].
Qed.
End ConfigValue.

(** X8.  For a plain name and a plain value, and a text whose only line
    boundary is the line feed: when the option is in the text, as an
    assignment or as a line that it is not set, and not as both unless the
    value is [n], the value that [set_config_line] writes is the one that
    [get_config_value] reads back from the new text.  The number of lines
    of the text is the same after the edit, whether the option is in the
    text or not. *)
Theorem set_config_line_round_trip text option value t changed :
  plain_name option = true →
  plain_value value = true →
  lf_only text = true →
  manage_config.set_config_line text option value = Ok (t, changed) →
  let key := "CONFIG_" +:+ option in
  length (split_nl t) = length (split_nl text)
  ∧ (re.search (manage_config.pattern_enabled key) text
     || re.search (manage_config.pattern_disabled key) text = true →
     (value ≠ "n" → re.search (manage_config.pattern_enabled key) text
                    && re.search (manage_config.pattern_disabled key) text = false) →
     manage_config.config_value_in key (splitlines t) = Some value).
Proof.
  intros Hname Hvalue Hlf Hset key. split.
  - destruct (plain_facts option value Hname Hvalue) as (Ho & Ho' & Hv & Hv').
    rewrite set_config_line_run in Hset by done. cbv zeta in Hset.
    fold key in Hset.
    set (new_line := if String.eqb value "n" then manage_config.disabled_line key
                     else key +:+ "=" +:+ value) in Hset.
    assert (has_char LF new_line = false) as Hn.
    { apply single_line_no_lf. subst new_line key. unfold manage_config.disabled_line.
      destruct (String.eqb value "n"); by rewrite !single_line_app, Ho', ?Hv'. }
    destruct (re.search _ text); [injection Hset as <- _|].
    { by rewrite split_nl_join_put, length_map. }
    destruct (re.search _ text); injection Hset as <- _; [|done].
    by rewrite split_nl_join_put, length_map.
  - by apply (set_config_line_then_get option value Hname Hvalue text t changed).
Qed.

Lemma set_config_line_round_trip_witness :
  length (split_nl (text ["CONFIG_USB=y"; "CONFIG_USB_UAS=m"])) = 3
  ∧ manage_config.config_value_in "CONFIG_USB_UAS"
      (splitlines (text ["CONFIG_USB=y"; "CONFIG_USB_UAS=m"])) = Some "m".
Proof.
  destruct (set_config_line_round_trip
              (text ["CONFIG_USB=y"; "# CONFIG_USB_UAS is not set"]) "USB_UAS" "m"
              (text ["CONFIG_USB=y"; "CONFIG_USB_UAS=m"]) true) as [H1 H2];
    [reflexivity..|].
  split; [exact H1|]. apply H2; [reflexivity|]. intros _. reflexivity.
Defined.

(** ** Categories and markers *)

Lemma startswith_app_inv s p q : startswith s (p +:+ q) = true → startswith s p = true.
Proof.
  revert s. induction p as [|a p IH]; intros s; [by rewrite startswith_nil|].
  rewrite app_cons_s. destruct s as [|b s]; [done|]. cbn [startswith].
  intros [-> H]%andb_true_iff. by rewrite (IH s H).
Qed.
(** X9.  Every option that the review puts under the category [Sky1] is
    one that [is_sky1_option] accepts, so that [reconcile] compares it
    across the tracks. *)
Theorem sky1_category_is_sky1_option opt :
  reconcile_configs.categorize_option opt = "Sky1" →
  reconcile_configs.is_sky1_option opt = true.
Proof.
  unfold reconcile_configs.categorize_option, reconcile_configs.is_sky1_option,
    reconcile_configs.SUBSYSTEM_PREFIXES, reconcile_configs.sky1_markers.
  generalize (removeprefix opt "CONFIG_"). intros nm.
  cbn [reconcile_configs.first_category existsb].
  repeat lazymatch goal with
         | |- (if startswith ?s ?p then _ else _) = _ → _ =>
             destruct (startswith s p) eqn:?; [first [discriminate | intros _] |]
         end.
  all: try discriminate.
  all: lazymatch goal with
       | H : startswith ?s ?p = true |- _ =>
           first
             [ rewrite (contains_startswith _ _ H)
             | apply (startswith_app_inv s "CIX" "_") in H;
               rewrite (contains_startswith _ _ H)
             | apply (startswith_app_inv s "SKY1" "_") in H;
               rewrite (contains_startswith _ _ H) ]
       end; by rewrite ?orb_true_r.
Qed.

Lemma sky1_category_is_sky1_option_witness :
  reconcile_configs.is_sky1_option "CONFIG_CIX_MBOX" = true.
Proof. apply sky1_category_is_sky1_option. reflexivity. Defined.

(** ** The policy check *)

Lemma flat_map_nil {A B} (f : A → list B) l :
  flat_map f l = [] ↔ ∀ x, x ∈ l → f x = [].
Proof.
  induction l as [|a l IH]; simpl.
  - split; [by intros _ ? ?%elem_of_nil|done].
  - split.
    + intros [Ha Hl]%app_eq_nil x [->|Hx]%elem_of_cons; [done|]. by apply IH.
    + intros H. rewrite (H a) by (by left). apply IH. intros x Hx. apply H. by right.
Qed.

Lemma violations_of_nil configs opt required_val :
  reconcile_configs.violations_of configs (opt, required_val) = []
  ↔ ∀ label cfg, (label, cfg) ∈ configs → dict_get cfg opt = Some required_val.
Proof.
  unfold reconcile_configs.violations_of. rewrite flat_map_nil. split.
  - intros H label cfg Hin. specialize (H (label, cfg) Hin). cbv beta iota in H.
    destruct (dict_get cfg opt) as [actual|]; [|done].
    destruct (String.eqb_spec actual required_val) as [E|E]; [by rewrite E|done].
  - intros H [label cfg] Hin. rewrite (H label cfg Hin). by rewrite String.eqb_refl.
Qed.

Lemma violations_nil policy configs :
  flat_map (reconcile_configs.violations_of configs) (sorted fst policy) = []
  ↔ ∀ opt required_val label cfg,
      (opt, required_val) ∈ policy → (label, cfg) ∈ configs →
      dict_get cfg opt = Some required_val.
Proof.
  rewrite flat_map_nil. split.
  - intros H opt req label cfg Hp. apply violations_of_nil. apply H.
    by apply elem_of_sorted.
  - intros H [opt req] Hp%elem_of_sorted. apply violations_of_nil.
    intros label cfg. by apply H.
Qed.

(** X10.  Once at least two tracks are loaded and the policy is parsed,
    the plain run of [cmd_reconcile] returns 0 exactly when every loaded track
    has every option of the policy with the value that the policy requires,
    and 1 otherwise; it writes no file. *)
Theorem reconcile_passes_iff_conforming verbose w configs w1 policy w2 :
  reconcile_configs.load_configs
    (World (files w) (stdout w ++ ["=== Sky1 Config Reconciliation ===" +:+ nl]))
    = (Ok configs, w1) →
  (2 <= length configs)%nat →
  reconcile_configs.parse_policy (World (files w1) (stdout w1 ++ [EmptyString]))
    = (Ok policy, w2) →
  ∃ status w',
    reconcile_configs.cmd_reconcile false verbose w = (Ok status, w')
    ∧ files w' = files w
    ∧ (status = 0 ∨ status = 1)
    ∧ (status = 0 ↔ ∀ opt required_val label cfg,
                      (opt, required_val) ∈ policy → (label, cfg) ∈ configs →
                      dict_get cfg opt = Some required_val).
Proof.
  intros Hload Hlen Hpol.
  set (violations := flat_map (reconcile_configs.violations_of configs) (sorted fst policy)).
  destruct (total_check_policy policy configs violations w2) as ([] & w3 & E3).
  destruct (total_compare_tracks verbose configs violations w3) as ([] & w4 & E4).
  exists (match violations with [] => 0 | _ => 1 end), w4.
  assert (reconcile_configs.cmd_reconcile false verbose w
          = (Ok (match violations with [] => 0 | _ => 1 end), w4)) as Hrun.
  { unfold reconcile_configs.cmd_reconcile.
    erewrite (bind_ok (print _)) by reflexivity.
    rewrite (bind_ok _ _ _ _ _ Hload).
    assert ((length configs <? 2)%nat = false) as -> by (apply Nat.ltb_ge; lia).
    erewrite (bind_ok (print _)) by reflexivity.
    rewrite (bind_ok _ _ _ _ _ Hpol). cbv zeta. fold violations.
    rewrite (bind_ok _ _ _ _ _ E3). rewrite (bind_ok _ _ _ _ _ E4). done. }
  split; [done|]. split; [|split].
  - assert (read_only (reconcile_configs.cmd_reconcile false verbose)) as Hro.
    { unfold reconcile_configs.cmd_reconcile, reconcile_configs.load_configs,
        reconcile_configs.load_config, reconcile_configs.parse_config,
        reconcile_configs.parse_policy, reconcile_configs.check_policy,
        reconcile_configs.compare_tracks.
      read_only. }
    specialize (Hro w). by rewrite Hrun in Hro.
  - destruct violations; auto.
  - rewrite <- violations_nil. fold violations. by destruct violations.
Qed.

Lemma reconcile_passes_iff_conforming_witness :
  ∃ status w',
    reconcile_configs.cmd_reconcile false false w_scenario = (Ok status, w')
    ∧ files w' = files w_scenario
    ∧ (status = 0 ∨ status = 1).
Proof.
  destruct (reconcile_configs.load_configs
              (World (files w_scenario)
                 (stdout w_scenario ++ ["=== Sky1 Config Reconciliation ===" +:+ nl])))
    as [[configs|e] w1] eqn:H1; [|by vm_compute in H1].
  pose proof H1 as H1'. vm_compute in H1'. injection H1' as <- <-.
  match type of H1 with
  | _ = (_, ?w1) =>
      destruct (reconcile_configs.parse_policy
                  (World (files w1) (stdout w1 ++ [EmptyString])))
        as [[policy|e] w2] eqn:H2; [|by vm_compute in H2]
  end.
  pose proof H2 as H2'. vm_compute in H2'. injection H2' as <- <-.
  destruct (reconcile_passes_iff_conforming false w_scenario _ _ _ _ H1
              ltac:(vm_compute; lia) H2) as (status & w' & Hrun & Hfiles & Hst & _).
  exists status, w'. split; [exact Hrun|]. split; [exact Hfiles|exact Hst].
Defined.

(** ** Commands that write no file *)

(** ** The run of the review *)

Lemma step_run (m : M unit) w0 :
  total m → read_only m → ∃ w0', m w0 = (Ok (), w0') ∧ files w0' = files w0.
Proof.
  intros Ht Hr. destruct (Ht w0) as ([] & w0' & E). exists w0'. split; [done|].
  specialize (Hr w0). by rewrite E in Hr.
Qed.

Lemma cmd_review_after_reads old_path new_path timestamp old new w :
  reconcile_configs.parse_config old_path w = (Ok old, w) →
  reconcile_configs.parse_config new_path w = (Ok new, w) →
  ∃ w', reconcile_configs.cmd_review old_path new_path timestamp w = (Ok 0, w')
        ∧ files w' = files w
        ∧ (reconcile_configs.added_options old new ≠ []
           ∨ reconcile_configs.removed_options old new ≠ []
           ∨ reconcile_configs.changed_options old new ≠ [] →
           last (stdout w')
           = Some (nl +:+ "  Review saved to: " +:+ HOME +:+ "/docs/config-review-"
                   +:+ timestamp +:+ ".txt")).
Proof.
  intros E1 E2.
  assert (is_Some (files w !! old_path)) as Hold.
  { unfold reconcile_configs.parse_config in E1.
    apply bind_Ok_inv in E1 as (t & w1 & Ht & _). by apply read_text_exists in Ht. }
  assert (is_Some (files w !! new_path)) as Hnew.
  { unfold reconcile_configs.parse_config in E2.
    apply bind_Ok_inv in E2 as (t & w1 & Ht & _). by apply read_text_exists in Ht. }
  unfold reconcile_configs.cmd_review. unfold exists_ at 1. unfold bind at 1.
  rewrite (bool_decide_eq_true_2 _ Hold). cbn [negb].
  unfold exists_ at 1. unfold bind at 1.
  rewrite (bool_decide_eq_true_2 _ Hnew). cbn [negb].
  rewrite (bind_ok _ _ _ _ _ E1), (bind_ok _ _ _ _ _ E2). cbv zeta.
  set (added := reconcile_configs.added_options old new).
  set (removed := reconcile_configs.removed_options old new).
  set (changed := reconcile_configs.changed_options old new).
  set (msg := nl +:+ "  Review saved to: " +:+ _).
  erewrite (bind_ok (print _)) by reflexivity.
  erewrite (bind_ok (print _)) by reflexivity.
  erewrite (bind_ok (print _)) by reflexivity.
  erewrite (bind_ok (print _)) by reflexivity.
  cbn [files stdout]. set (w1 := World _ _).
  destruct (step_run (match added with
                      | [] => ret ()
                      | _ :: _ => reconcile_configs.print_new_options added
                      end) w1) as (w2 & E3 & H2).
  { unfold reconcile_configs.print_new_options, reconcile_configs.print_option. total. }
  { unfold reconcile_configs.print_new_options, reconcile_configs.print_option.
    read_only. }
  rewrite (bind_ok _ _ _ _ _ E3).
  destruct (step_run (match removed with
                      | [] => ret ()
                      | _ :: _ => reconcile_configs.print_removed_options removed
                      end) w2) as (w3 & E4 & H3).
  { unfold reconcile_configs.print_removed_options. total. }
  { unfold reconcile_configs.print_removed_options. read_only. }
  rewrite (bind_ok _ _ _ _ _ E4).
  destruct (step_run (match changed with
                      | [] => ret ()
                      | _ :: _ => reconcile_configs.print_changed_options changed
                      end) w3) as (w4 & E5 & H4).
  { unfold reconcile_configs.print_changed_options. total. }
  { unfold reconcile_configs.print_changed_options. read_only. }
  rewrite (bind_ok _ _ _ _ _ E5).
  erewrite (bind_ok (print _)) by reflexivity.
  erewrite (bind_ok (print _)) by reflexivity.
  erewrite (bind_ok (print _)) by reflexivity.
  erewrite (bind_ok (print _)) by reflexivity.
  cbn [files stdout]. set (w5 := World _ _).
  assert (files w5 = files w) as H5.
  { subst w5. cbn [files]. rewrite H4, H3, H2. reflexivity. }
  assert (∀ w6, (ret 0 : M nat) w6 = (Ok 0, w6)) as Hret by done.
  destruct added as [|a added'] eqn:Ea, removed as [|r removed'] eqn:Er,
    changed as [|c changed'] eqn:Ec.
  1: { eexists. split; [reflexivity|]. split; [exact H5|].
       intros [?|[?|?]]; done. }
  all: erewrite (bind_ok (print _)) by reflexivity;
    eexists; (split; [reflexivity|]); (split; [exact H5|]);
    intros _; cbn [stdout]; apply last_snoc.
Qed.

(** X11.  The plain run of [cmd_reconcile] and [cmd_review] write no file,
    whatever is on disk and also when the policy parser raises.  When the
    two configs differ on an option that is not ignored, the last line
    that the review prints announces a saved review file, and no file has
    been written. *)
Theorem reconcile_and_review_write_no_file :
  (∀ verbose w, files (reconcile_configs.cmd_reconcile false verbose w).2 = files w)
  ∧ (∀ old_path new_path timestamp w,
       files (reconcile_configs.cmd_review old_path new_path timestamp w).2 = files w)
  ∧ (∀ old_path new_path timestamp w old new,
       reconcile_configs.parse_config old_path w = (Ok old, w) →
       reconcile_configs.parse_config new_path w = (Ok new, w) →
       reconcile_configs.added_options old new ≠ []
       ∨ reconcile_configs.removed_options old new ≠ []
       ∨ reconcile_configs.changed_options old new ≠ [] →
       ∃ w', reconcile_configs.cmd_review old_path new_path timestamp w = (Ok 0, w')
             ∧ last (stdout w')
               = Some (nl +:+ "  Review saved to: " +:+ HOME +:+ "/docs/config-review-"
                       +:+ timestamp +:+ ".txt")
             ∧ files w' = files w).
Proof.
  split; [|split].
  - intros verbose. change (read_only (reconcile_configs.cmd_reconcile false verbose)).
    unfold reconcile_configs.cmd_reconcile, reconcile_configs.load_configs,
      reconcile_configs.load_config, reconcile_configs.parse_config,
      reconcile_configs.parse_policy, reconcile_configs.check_policy,
      reconcile_configs.compare_tracks.
    read_only.
  - intros old_path new_path timestamp.
    change (read_only (reconcile_configs.cmd_review old_path new_path timestamp)).
    unfold reconcile_configs.cmd_review, reconcile_configs.parse_config,
      reconcile_configs.print_new_options, reconcile_configs.print_removed_options,
      reconcile_configs.print_changed_options, reconcile_configs.print_option.
    read_only.
  - intros old_path new_path timestamp w old new E1 E2 Hdiff.
    destruct (cmd_review_after_reads old_path new_path timestamp old new w E1 E2)
      as (w' & E & Hf & Hlast).
    exists w'. split; [exact E|]. split; [by apply Hlast|exact Hf].
Qed.

Lemma reconcile_and_review_write_no_file_witness :
  ∃ w', reconcile_configs.cmd_review "/tmp/config.old" "/tmp/config.new" "20260101-120000"
          w_review = (Ok 0, w')
        ∧ last (stdout w')
          = Some (nl +:+ "  Review saved to: " +:+ HOME
                  +:+ "/docs/config-review-20260101-120000.txt")
        ∧ files w' = files w_review.
Proof.
  destruct reconcile_and_review_write_no_file as (_ & _ & H).
  eapply (H "/tmp/config.old" "/tmp/config.new" "20260101-120000" w_review).
  - vm_compute. reflexivity.
  - vm_compute. reflexivity.
  - left. vm_compute. discriminate.
Defined.

(** ** A missing policy file *)

Lemma parse_policy_missing w :
  files w !! reconcile_configs.POLICY_FILE = None →
  reconcile_configs.parse_policy w
  = (Ok [], World (files w)
              (stdout w ++ ["Warning: policy file not found: "
                            +:+ reconcile_configs.POLICY_FILE])).
Proof.
  intros H. unfold reconcile_configs.parse_policy, exists_, bind, print, ret.
  by rewrite H, bool_decide_eq_false_2 by (by intros [? ?]).
Qed.

Lemma compare_tracks_run verbose configs violations w :
  ∃ out, reconcile_configs.compare_tracks verbose configs violations w
         = (Ok (), World (files w) (stdout w ++ out))
         ∧ ("  " +:+ str_nat (length violations) +:+ " policy violation(s)") ∈ out.
Proof.
  unfold reconcile_configs.compare_tracks. cbv zeta.
  set (divergent := flat_map _ _).
  erewrite (bind_ok (print _)) by reflexivity.
  assert (∃ out1, ∀ w0,
            (match divergent with
             | [] => print "  All Sky1-specific options are consistent across tracks."
             | _ => for_each divergent (λ (_ : ()) d, print d) ()
             end) w0 = (Ok (), World (files w0) (stdout w0 ++ out1))) as (out1 & H1).
  { destruct divergent as [|d ds] eqn:E.
    - by eexists [_].
    - exists (map id (d :: ds)). intros w0. by apply print_loop. }
  rewrite (bind_ok _ _ _ _ _ (H1 _)).
  eexists. split.
  - unfold print, bind, ret. cbn [files stdout]. rewrite <- !app_assoc. reflexivity.
  - rewrite !elem_of_app, !elem_of_cons. auto 10.
Qed.

(** X12.  Without a policy file, and with at least two tracks loaded,
    [cmd_reconcile] prints a warning, finds no violation, writes no file
    and returns 0, with or without the fix flag. *)
Theorem reconcile_without_policy_file fix_mode verbose w configs w1 :
  files w !! reconcile_configs.POLICY_FILE = None →
  reconcile_configs.load_configs
    (World (files w) (stdout w ++ ["=== Sky1 Config Reconciliation ===" +:+ nl]))
    = (Ok configs, w1) →
  (2 <= length configs)%nat →
  ∃ w', reconcile_configs.cmd_reconcile fix_mode verbose w = (Ok 0, w')
        ∧ files w' = files w
        ∧ ("Warning: policy file not found: " +:+ reconcile_configs.POLICY_FILE)
          ∈ stdout w'
        ∧ "  0 policy violation(s)" ∈ stdout w'.
Proof.
  intros Hnone Hload Hlen.
  pose proof Hload as [Hfiles _]%load_configs_labels. cbn [files] in Hfiles.
  unfold reconcile_configs.cmd_reconcile.
  erewrite (bind_ok (print _)) by reflexivity.
  rewrite (bind_ok _ _ _ _ _ Hload).
  assert ((length configs <? 2)%nat = false) as -> by (apply Nat.ltb_ge; lia).
  erewrite (bind_ok (print _)) by reflexivity.
  erewrite (bind_ok reconcile_configs.parse_policy)
    by (apply parse_policy_missing; cbn [files]; by rewrite Hfiles).
  cbv zeta. cbn [sorted foldr rev flat_map reconcile_configs.check_policy].
  erewrite (bind_ok (ret _)) by reflexivity.
  match goal with
  | |- ∃ w', bind (reconcile_configs.compare_tracks _ _ _) _ ?w0 = _ ∧ _ =>
      destruct (compare_tracks_run verbose configs [] w0) as (out & Hrun & Hin)
  end.
  rewrite (bind_ok _ _ _ _ _ Hrun). eexists. split; [reflexivity|].
  cbn [files stdout]. split; [done|]. split.
  - rewrite !elem_of_app, !elem_of_cons. auto 10.
  - apply elem_of_app. by right.
Qed.

Lemma reconcile_without_policy_file_witness :
  ∃ w', reconcile_configs.cmd_reconcile true false w_no_policy = (Ok 0, w')
        ∧ files w' = files w_no_policy
        ∧ ("Warning: policy file not found: " +:+ reconcile_configs.POLICY_FILE)
          ∈ stdout w'
        ∧ "  0 policy violation(s)" ∈ stdout w'.
Proof.
  destruct (reconcile_configs.load_configs
              (World (files w_no_policy)
                 (stdout w_no_policy ++ ["=== Sky1 Config Reconciliation ===" +:+ nl])))
    as [[configs|e] w1] eqn:H1; [|by vm_compute in H1].
  pose proof H1 as H1'. vm_compute in H1'. injection H1' as <- <-.
  apply (reconcile_without_policy_file true false w_no_policy _ _ ltac:(reflexivity) H1).
  vm_compute. lia.
Defined.

(** ** The review *)

Lemma total_returns {A} (m : M A) a0 :
  total m → returns_in (λ a, a = a0) m → ∀ w, ∃ w', m w = (Ok a0, w').
Proof.
  intros Ht Hr w. destruct (Ht w) as (a & w' & E). exists w'.
  by rewrite (Hr w a w' E) in E.
Qed.

Lemma parse_config_ok path w :
  is_Some (files w !! path) →
  ∃ cfg, reconcile_configs.parse_config path w = (Ok cfg, w)
         ∧ ∃ text, cfg = reconcile_configs.parse_config_lines [] (splitlines text).
Proof.
  intros [t Ht]. unfold reconcile_configs.parse_config, read_text, bind, ret.
  rewrite Ht. eexists. split; [done|]. by eexists.
Qed.

(** X13.  [cmd_review] returns 1 when one of the two paths does not exist,
    and 0 when both configs are read without error: nothing after the two
    reads can raise. *)
Theorem review_exit_status old_path new_path timestamp w :
  (files w !! old_path = None ∨ files w !! new_path = None →
   ∃ w', reconcile_configs.cmd_review old_path new_path timestamp w = (Ok 1, w'))
  ∧ (∀ old new,
       reconcile_configs.parse_config old_path w = (Ok old, w) →
       reconcile_configs.parse_config new_path w = (Ok new, w) →
       ∃ w', reconcile_configs.cmd_review old_path new_path timestamp w = (Ok 0, w')).
Proof.
  split.
  - intros Hnone. unfold reconcile_configs.cmd_review. unfold exists_ at 1. unfold bind at 1.
    destruct (bool_decide (is_Some (files w !! old_path))) eqn:Hold; cbn [negb];
      [|by eexists].
    unfold exists_ at 1. unfold bind at 1.
    destruct (bool_decide (is_Some (files w !! new_path))) eqn:Hnew; cbn [negb];
      [|by eexists].
    apply bool_decide_eq_true_1 in Hold as [? Hold], Hnew as [? Hnew].
    destruct Hnone; congruence.
  - intros old new E1 E2.
    destruct (cmd_review_after_reads old_path new_path timestamp old new w E1 E2)
      as (w' & E & _).
    by exists w'.
Qed.

Lemma review_exit_status_witness :
  (∃ w', reconcile_configs.cmd_review "/tmp/config.old" "/tmp/config.missing"
           "20260101-120000" w_review = (Ok 1, w'))
  ∧ ∃ w', reconcile_configs.cmd_review "/tmp/config.old" "/tmp/config.new"
            "20260101-120000" w_review = (Ok 0, w').
Proof.
  split.
  - apply (review_exit_status "/tmp/config.old" "/tmp/config.missing" "20260101-120000"
             w_review).
    right. vm_compute. reflexivity.
  - eapply (review_exit_status "/tmp/config.old" "/tmp/config.new" "20260101-120000"
              w_review); vm_compute; reflexivity.
Defined.


(** *** Keys of a parsed config *)

Lemma dict_set_keys {V} (d : dict V) k v :
  map fst (dict_set d k v) = if dict_has d k then map fst d else map fst d ++ [k].
Proof.
  unfold dict_has. induction d as [|[k0 v0] d IH]; simpl; [done|].
  destruct (String.eqb_spec k0 k) as [->|Hne]; simpl; [done|].
  rewrite IH. by destruct (dict_get d k).
Qed.

Lemma dict_has_elem {V} (d : dict V) k : dict_has d k = true ↔ k ∈ map fst d.
Proof.
  unfold dict_has. induction d as [|[k0 v0] d IH]; simpl.
  - split; [done|by intros ?%elem_of_nil].
  - destruct (String.eqb_spec k0 k) as [->|Hne].
    + split; [intros _; by left|done].
    + rewrite IH. split; [intros ?; by right|].
      by intros [?|?]%elem_of_cons.
Qed.

Lemma dict_set_NoDup {V} (d : dict V) k v :
  NoDup (map fst d) → NoDup (map fst (dict_set d k v)).
Proof.
  intros Hd. rewrite dict_set_keys. destruct (dict_has d k) eqn:E; [done|].
  apply NoDup_app. split; [done|]. split; [|apply NoDup_singleton].
  intros x Hx ->%list_elem_of_singleton.
  apply dict_has_elem in Hx. congruence.
Qed.

Lemma dict_get_elem {V} (d : dict V) k v :
  NoDup (map fst d) → (k, v) ∈ d → dict_get d k = Some v.
Proof.
  induction d as [|[k0 v0] d IH]; simpl; [by intros _ ?%elem_of_nil|].
  intros [Hk Hd]%NoDup_cons [[= -> ->]|Hin]%elem_of_cons.
  - by rewrite String.eqb_refl.
  - destruct (String.eqb_spec k0 k) as [->|Hne]; [|by apply IH].
    destruct Hk. change k with (fst (k, v)). apply list_elem_of_fmap. by exists (k, v).
Qed.

Lemma parse_config_lines_NoDup opts lines :
  NoDup (map fst opts) →
  NoDup (map fst (reconcile_configs.parse_config_lines opts lines)).
Proof.
  revert opts. induction lines as [|l ls IH]; intros opts Ho; simpl; [done|].
  destruct (startswith l "CONFIG_"); [by apply IH, dict_set_NoDup|].
  destruct (_ && _); [by apply IH, dict_set_NoDup|by apply IH].
Qed.

Lemma review_same (d : dict string) :
  NoDup (map fst d) →
  reconcile_configs.added_options d d = []
  ∧ reconcile_configs.removed_options d d = []
  ∧ reconcile_configs.changed_options d d = [].
Proof.
  intros Hd.
  assert (filter (λ '(k, v), negb (dict_has d k)
                             && negb (reconcile_configs.is_ignored (k +:+ "=" +:+ v)) = true)
            d = []) as Hfilter.
  { assert (∀ l : list (string * string), (∀ kv, kv ∈ l → dict_has d kv.1 = true) →
              filter (λ '(k, v), negb (dict_has d k)
                                 && negb (reconcile_configs.is_ignored (k +:+ "=" +:+ v))
                                 = true) l = []) as H.
    { induction l as [|[k v] l IH]; intros Hl; [done|].
      rewrite filter_cons. destruct (decide _) as [Hk|_].
      - pose proof (Hl (k, v)) as Hkv. cbn [fst] in Hkv. cbv beta iota in Hk.
        by rewrite Hkv in Hk by (by left).
      - apply IH. intros kv Hkv. apply Hl. by right. }
    apply H. intros [k v] Hin. apply dict_has_elem. apply list_elem_of_fmap.
    by exists (k, v). }
  split; [exact Hfilter|]. split; [exact Hfilter|].
  unfold reconcile_configs.changed_options. apply flat_map_nil. intros [k v] Hin.
  by rewrite (dict_get_elem d k v Hd Hin), String.eqb_refl.
Qed.

(** X14.  Reviewing a config against itself reports nothing: for every config
    that is on disk, [cmd_review] prints the header, the two counts of
    enabled options and a summary of 0 new, 0 removed and 0 changed
    options, announces no saved review, and returns 0. *)
Theorem review_of_a_config_against_itself path timestamp w :
  is_Some (files w !! path) →
  ∃ count,
    reconcile_configs.cmd_review path path timestamp w
    = (Ok 0,
       World (files w)
         (stdout w
          ++ [ "=== Config Review: " +:+ name path +:+ " -> " +:+ name path +:+ " ==="
               +:+ nl;
               "  Old: " +:+ str_nat count +:+ " enabled options";
               "  New: " +:+ str_nat count +:+ " enabled options";
               EmptyString;
               "--- Summary ---";
               "  0 new options";
               "  0 removed options";
               "  0 changed values" ])).
Proof.
  intros Hp. unfold reconcile_configs.cmd_review. unfold exists_, bind at 1.
  rewrite bool_decide_eq_true_2 by done. cbn [negb]. unfold bind at 1.
  rewrite bool_decide_eq_true_2 by done. cbn [negb].
  destruct (parse_config_ok path w Hp) as (cfg & E & text & Hcfg).
  rewrite !(bind_ok _ _ _ _ _ E). cbv zeta.
  destruct (review_same cfg) as (-> & -> & ->).
  { subst cfg. apply parse_config_lines_NoDup. constructor. }
  exists (reconcile_configs.enabled_count cfg).
  unfold print, bind, ret. cbn [files stdout length]. rewrite <- !app_assoc. reflexivity.
Qed.

Lemma review_of_a_config_against_itself_witness :
  ∃ count,
    reconcile_configs.cmd_review (track "config.sky1-rc") (track "config.sky1-rc")
      "20260101-000000" w_scenario
    = (Ok 0,
       World (files w_scenario)
         (stdout w_scenario
          ++ [ "=== Config Review: config.sky1-rc -> config.sky1-rc ===" +:+ nl;
               "  Old: " +:+ str_nat count +:+ " enabled options";
               "  New: " +:+ str_nat count +:+ " enabled options";
               EmptyString;
               "--- Summary ---";
               "  0 new options";
               "  0 removed options";
               "  0 changed values" ])).
Proof.
  apply (review_of_a_config_against_itself (track "config.sky1-rc") "20260101-000000"
           w_scenario).
  eexists. vm_compute. reflexivity.
Defined.

(** *** The first and the last assignment *)

Lemma parse_config_lines_app opts ls ms :
  reconcile_configs.parse_config_lines opts (ls ++ ms)
  = reconcile_configs.parse_config_lines (reconcile_configs.parse_config_lines opts ls) ms.
Proof.
  revert opts. induction ls as [|l ls IH]; intros opts; simpl; [done|].
  destruct (startswith l "CONFIG_"); [apply IH|]. destruct (_ && _); apply IH.
Qed.

(** X15.  A config that assigns an option twice: [get_config_value], with which
    [show] and [set] read a config, returns the value of the first
    assignment; [parse_config], with which [reconcile] and [review] read
    it, keeps the value of the last one. *)
Theorem config_assigned_twice option v1 v2 middle :
  has_char "="%char option = false →
  let key := "CONFIG_" +:+ option in
  let lines := (key +:+ "=" +:+ v1) :: middle ++ [key +:+ "=" +:+ v2] in
  manage_config.config_value_in key lines = Some v1
  ∧ dict_get (reconcile_configs.parse_config_lines [] lines) key = Some v2.
Proof.
  intros Ho key lines.
  assert (has_char "="%char key = false) as Hk by (subst key; by rewrite has_char_app).
  assert (∀ v, before "="%char (key +:+ "=" +:+ v) = key
               ∧ after "="%char (key +:+ "=" +:+ v) = v
               ∧ startswith (key +:+ "=" +:+ v) "CONFIG_" = true) as Hline.
  { intros v. change (key +:+ "=" +:+ v) with (key +:+ String "="%char v).
    unfold before, after. rewrite partition_app by done. split; [done|]. split; [done|].
    subst key. rewrite app_assoc_s. apply startswith_app. }
  split.
  - subst lines. cbn [manage_config.config_value_in]. unfold manage_config.enabled_prefix.
    rewrite <- app_assoc_s, startswith_app, app_assoc_s.
    by destruct (Hline v1) as (_ & -> & _).
  - subst lines. rewrite app_comm_cons, parse_config_lines_app.
    cbn [reconcile_configs.parse_config_lines].
    destruct (Hline v2) as (-> & -> & ->). apply dict_get_set_eq.
Qed.

Lemma config_assigned_twice_witness :
  manage_config.config_value_in "CONFIG_USB"
    ["CONFIG_USB=y"; "CONFIG_NET=y"; "CONFIG_USB=m"] = Some "y"
  ∧ dict_get (reconcile_configs.parse_config_lines []
                ["CONFIG_USB=y"; "CONFIG_NET=y"; "CONFIG_USB=m"]) "CONFIG_USB" = Some "m".
Proof. apply (config_assigned_twice "USB" "y" "m" ["CONFIG_NET=y"]). reflexivity. Defined.

(** ** A set that fails while it plans *)

Lemma bind_Raise_inv {A B} (m : M A) (k : A → M B) w e w' :
  bind m k w = (Raise e, w') →
  m w = (Raise e, w') ∨ ∃ a w0, m w = (Ok a, w0) ∧ k a w0 = (Raise e, w').
Proof.
  unfold bind. destruct (m w) as [[a|e0] w0]; [|intros [= -> ->]; by left].
  intros H. right. by exists a, w0.
Qed.

Lemma read_only_run {A} (m : M A) w r w' : read_only m → m w = (r, w') → files w' = files w.
Proof. intros H E. specialize (H w). by rewrite E in H. Qed.

Lemma read_only_plan_and_report opt value policy_section doc_heading doc_type doc_desc :
  read_only (manage_config.cmd_set opt value policy_section doc_heading doc_type doc_desc
               false).
Proof.
  unfold manage_config.cmd_set, manage_config.find_dev_configs,
    manage_config.plan_track, manage_config.plan_dev, manage_config.plan_policy,
    manage_config.plan_readme.
  read_only; try apply read_only_get_config_value; try apply read_only_report.
Qed.

(** X16.  A failure of the plan comes before every write: when the dry run
    of [cmd_set] raises, be it for a missing policy file or README or for
    an error of [re] on the value, the run with [--apply] raises the same
    exception and has written no file. *)
Theorem failed_plan_writes_no_file opt value policy_section doc_heading doc_type doc_desc
    w e w' :
  manage_config.cmd_set opt value policy_section doc_heading doc_type doc_desc false w
  = (Raise e, w') →
  manage_config.cmd_set opt value policy_section doc_heading doc_type doc_desc true w
  = (Raise e, w')
  ∧ files w' = files w.
Proof.
  intros Hdry. split.
  - revert Hdry. unfold manage_config.cmd_set.
    set (option := manage_config.normalize_option opt).
    intros [H|(c1 & w1 & H1 & H)]%bind_Raise_inv; [by rewrite (bind_raise _ _ _ _ _ H)|].
    rewrite (bind_ok _ _ _ _ _ H1).
    apply bind_Raise_inv in H as [H|(devs & w2 & H2 & H)];
      [by rewrite (bind_raise _ _ _ _ _ H)|].
    rewrite (bind_ok _ _ _ _ _ H2).
    apply bind_Raise_inv in H as [H|(c2 & w3 & H3 & H)];
      [by rewrite (bind_raise _ _ _ _ _ H)|].
    rewrite (bind_ok _ _ _ _ _ H3).
    apply bind_Raise_inv in H as [H|(c3 & w4 & H4 & H)];
      [by rewrite (bind_raise _ _ _ _ _ H)|].
    rewrite (bind_ok _ _ _ _ _ H4).
    apply bind_Raise_inv in H as [H|(c4 & w5 & H5 & H)];
      [by rewrite (bind_raise _ _ _ _ _ H)|].
    rewrite (bind_ok _ _ _ _ _ H5).
    destruct c4 as [|c cs]; [done|].
    destruct (report_and_apply_ok (c :: cs) false w5) as (w6 & E). by rewrite E in H.
  - apply (read_only_run _ _ _ _ (read_only_plan_and_report _ _ _ _ _ _) Hdry).
Qed.

Lemma failed_plan_writes_no_file_witness :
  ∃ w',
    manage_config.cmd_set "NET_FOO" "y" (Some "net") None None None true w_no_policy
    = (Raise (FileNotFoundError manage_config.POLICY_FILE), w')
    ∧ files w' = files w_no_policy.
Proof.
  eexists.
  eapply (failed_plan_writes_no_file "NET_FOO" "y" (Some "net") None None None
            w_no_policy).
  vm_compute. reflexivity.
Defined.

(** ** What [set] writes *)

Lemma apply_changes_changed changes fs p :
  apply_changes changes fs !! p ≠ fs !! p → ∃ c, c ∈ changes ∧ change_path c = p.
Proof.
  intros Hne. destruct (existsb (λ c, String.eqb (change_path c) p) changes) eqn:E.
  - by apply existsb_path in E.
  - destruct Hne. apply apply_changes_other. intros c Hc Hp.
    assert (existsb (λ c, String.eqb (change_path c) p) changes = true); [|congruence].
    apply existsb_path. by exists c.
Qed.

(** X17.  [set] with [--apply] creates no file and deletes none, and the files
    that it changes are track configs and dev copies that were on disk,
    the policy file when a section is given, and the README when heading,
    type and description are given. *)
Theorem set_writes_only_managed_files opt value policy_section doc_heading doc_type
    doc_desc w n w1 :
  manage_config.cmd_set opt value policy_section doc_heading doc_type doc_desc true w
  = (Ok n, w1) →
  (∀ p, is_Some (files w1 !! p) ↔ is_Some (files w !! p))
  ∧ ∀ p, files w1 !! p ≠ files w !! p →
         p ∈ manage_config.TRACK_CONFIGS
         ∨ is_dev_config p = true
         ∨ (p = manage_config.POLICY_FILE ∧ manage_config.truthy policy_section ≠ None)
         ∨ (p = manage_config.README_FILE
            ∧ manage_config.truthy doc_heading ≠ None
            ∧ manage_config.truthy doc_type ≠ None
            ∧ manage_config.truthy doc_desc ≠ None).
Proof.
  intros (changes & Hfiles & Hfrom & _)%cmd_set_first. specialize (Hfiles eq_refl).
  assert (∀ c, c ∈ changes → is_Some (files w !! change_path c)) as Hdom.
  { intros c Hc.
    destruct (Hfrom c Hc) as [[_ (raw & -> & _)]|[[_ (raw & -> & _)]|[_ (raw & -> & _)]]];
      by eexists. }
  rewrite Hfiles. split; [intros p; by apply apply_changes_dom|].
  intros p (c & Hc & <-)%apply_changes_changed.
  destruct (Hfrom c Hc) as [[Hp _]|[[Hp (raw & _ & He)]|[Hp (raw & _ & He)]]].
  - destruct Hp; auto.
  - right. right. left. split; [done|]. unfold edit_policy in He.
    by destruct (manage_config.truthy policy_section).
  - right. right. right. split; [done|]. unfold edit_readme in He.
    destruct (manage_config.truthy doc_heading); [|done].
    destruct (manage_config.truthy doc_type); [|done].
    by destruct (manage_config.truthy doc_desc).
Qed.

Lemma set_writes_only_managed_files_witness :
  ∃ w1,
    manage_config.cmd_set "CONFIG_USB_UAS" "m" (Some "usb") None None None true w_set
    = (Ok 0, w1)
    ∧ (is_Some (files w1 !! "/etc/passwd") ↔ is_Some (files w_set !! "/etc/passwd"))
    ∧ files w1 !! manage_config.README_FILE = files w_set !! manage_config.README_FILE.
Proof.
  eexists. split; [vm_compute; reflexivity|].
  destruct (set_writes_only_managed_files "CONFIG_USB_UAS" "m" (Some "usb") None None
              None w_set 0 _ ltac:(vm_compute; reflexivity)) as [H1 H2].
  split; [exact (H1 "/etc/passwd")|]. vm_compute; reflexivity.
Defined.

(** X18.  The dry run is faithful: when [set] with [--apply] returns, the same
    call without [--apply] returns the same status, and it has announced,
    by a line with the path and the description of the change, every file
    that the run with [--apply] changes. *)
Theorem dry_run_announces_every_write opt value policy_section doc_heading doc_type
    doc_desc w n w1 :
  manage_config.cmd_set opt value policy_section doc_heading doc_type doc_desc true w
  = (Ok n, w1) →
  ∃ w0,
    manage_config.cmd_set opt value policy_section doc_heading doc_type doc_desc false w
    = (Ok n, w0)
    ∧ ∀ p, files w1 !! p ≠ files w !! p →
           ∃ desc, ("  ~/" +:+ relative_to_home p +:+ ": " +:+ desc) ∈ stdout w0.
Proof.
  unfold manage_config.cmd_set.
  set (option := manage_config.normalize_option opt).
  intros (c1 & w2 & H1 & H)%bind_Ok_inv. rewrite (bind_ok _ _ _ _ _ H1).
  apply bind_Ok_inv in H as (devs & w3 & H2 & H). rewrite (bind_ok _ _ _ _ _ H2).
  apply bind_Ok_inv in H as (c2 & w4 & H3 & H). rewrite (bind_ok _ _ _ _ _ H3).
  apply bind_Ok_inv in H as (c3 & w5 & H4 & H). rewrite (bind_ok _ _ _ _ _ H4).
  apply bind_Ok_inv in H as (c4 & w6 & H5 & H). rewrite (bind_ok _ _ _ _ _ H5).
  assert (files w6 = files w) as Hfiles.
  { assert (read_only (for_each manage_config.TRACK_CONFIGS
                         (manage_config.plan_track option value) [])) as R1.
    { unfold manage_config.plan_track. read_only; apply read_only_get_config_value. }
    assert (read_only (for_each devs (manage_config.plan_dev option value) c1)) as R2.
    { unfold manage_config.plan_dev. read_only. }
    assert (read_only (manage_config.plan_policy option value policy_section c2)) as R3.
    { unfold manage_config.plan_policy. read_only. }
    assert (read_only (manage_config.plan_readme option doc_heading doc_type doc_desc c3))
      as R4.
    { unfold manage_config.plan_readme. read_only. }
    specialize (R1 w). rewrite H1 in R1.
    pose proof (read_only_glob manage_config.MAINLINE "config.sky1" w2) as Rg.
    unfold manage_config.find_dev_configs in H2. rewrite H2 in Rg.
    specialize (R2 w3). rewrite H3 in R2. specialize (R3 w4). rewrite H4 in R3.
    specialize (R4 w5). rewrite H5 in R4. cbn [snd] in *. congruence. }
  destruct c4 as [|c cs].
  - unfold print, bind, ret in *. injection H as <- <-. eexists. split; [done|].
    cbn [files]. intros p Hp. by rewrite Hfiles in Hp.
  - cbv beta iota in H. cbv beta iota. remember (c :: cs) as l eqn:El. clear El.
    destruct (report_and_apply_writes l w6) as (out & Hrun).
    rewrite Hrun in H. injection H as <- <-. cbn [files].
    unfold manage_config.report_and_apply.
    erewrite (bind_ok (print _)) by reflexivity. cbv beta.
    erewrite (bind_ok (for_each _ _ _)); cycle 1.
    { apply (print_loop
               (λ c, "  ~/" +:+ relative_to_home (change_path c) +:+ ": " +:+ c.1.2)).
      by intros _ [[path desc] ?]. }
    eexists. split; [reflexivity|]. rewrite Hfiles.
    intros p (c' & Hc' & <-)%apply_changes_changed. exists c'.1.2.
    cbn [stdout files]. rewrite !elem_of_app. left. right.
    apply list_elem_of_In, in_map_iff. exists c'. split; [done|].
    by apply list_elem_of_In.
Qed.

Lemma dry_run_announces_every_write_witness :
  ∃ w0,
    manage_config.cmd_set "CONFIG_USB_UAS" "m" (Some "usb") None None None false w_set
    = (Ok 0, w0)
    ∧ ∃ desc, ("  ~/" +:+ relative_to_home manage_config.POLICY_FILE +:+ ": " +:+ desc)
              ∈ stdout w0.
Proof.
  destruct (dry_run_announces_every_write "CONFIG_USB_UAS" "m" (Some "usb") None None
              None w_set 0 _ ltac:(vm_compute; reflexivity)) as (w0 & H0 & Hall).
  exists w0. split; [exact H0|]. apply Hall. vm_compute. discriminate.
Defined.

(** ** A value that [re] rejects *)

Lemma parse_template_from_trailing_backslash fuel s :
  has_char "\"%char s = false →
  re.parse_template_from fuel (s +:+ "\") = None.
Proof.
  revert s. induction fuel as [|fuel IH]; intros s Hs; [done|].
  destruct s as [|c s]; [done|]. rewrite app_cons_s. cbn [re.parse_template_from].
  simpl in Hs. apply orb_false_iff in Hs as [Hc Hs]. rewrite Hc. cbn [negb].
  by rewrite IH.
Qed.

(** X19.  For an option name without line feed and backslash, and a value
    that ends in a backslash, after characters that are none:
    [set_config_line] raises [re.error] when the option is in the text,
    as an assignment or as a line that it is not set, and returns the text
    unchanged when it is not. *)
Theorem set_config_line_trailing_backslash text option v :
  has_char LF option = false →
  has_char "\"%char option = false →
  has_char "\"%char v = false →
  let key := "CONFIG_" +:+ option in
  manage_config.set_config_line text option (v +:+ "\")
  = if re.search (manage_config.pattern_enabled key) text
       || re.search (manage_config.pattern_disabled key) text
    then Raise re_error else Ok (text, false).
Proof.
  intros _ Ho Hv key. unfold manage_config.set_config_line. fold key.
  assert (String.eqb (v +:+ "\") "n" = false) as ->.
  { apply String.eqb_neq. intros H.
    assert (has_char "\"%char (v +:+ "\") = true) as Hb
      by (rewrite has_char_app; apply orb_true_r).
    by rewrite H in Hb. }
  assert (∀ is_match, re.sub is_match (key +:+ "=" +:+ v +:+ "\") text = Raise re_error)
    as Hsub.
  { intros is_match. unfold re.sub, re.parse_template.
    rewrite <- !app_assoc_s.
    rewrite parse_template_from_trailing_backslash; [done|].
    subst key. by rewrite !has_char_app, Ho, Hv. }
  rewrite !Hsub. by destruct (re.search _ text), (re.search _ text).
Qed.

Lemma set_config_line_trailing_backslash_witness :
  manage_config.set_config_line (text ["CONFIG_USB=y"]) "USB" ("m" +:+ "\")
  = Raise re_error
  ∧ manage_config.set_config_line (text ["CONFIG_NET=y"]) "USB" ("m" +:+ "\")
    = Ok (text ["CONFIG_NET=y"], false).
Proof.
  split.
  - etrans; [apply set_config_line_trailing_backslash; reflexivity|].
    vm_compute; reflexivity.
  - etrans; [apply set_config_line_trailing_backslash; reflexivity|].
    vm_compute; reflexivity.
Defined.

(** ** Rows that mention the option *)

(** X20.  The README functions take every table row that holds the name of
    the option in backticks for a row of the option, also a row that
    documents another option and mentions the name in its description:
    [get_readme_entry] returns the first such row, [add_readme_entry]
    overwrites it with the new row, and [remove_readme_entry] deletes
    every such row. *)
Theorem readme_row_matched_by_substring option heading opt_type desc pre row post :
  let key := manage_config.backticked option in
  let new_row := "| `" +:+ option +:+ "` | " +:+ opt_type +:+ " | " +:+ desc +:+ " |" in
  forallb single_line (pre ++ row :: post) = true →
  forallb (λ l, negb (manage_config.is_row_of key l)) pre = true →
  manage_config.is_row_of key row = true →
  String.eqb (strip row) new_row = false →
  manage_config.first_row key (splitlines (unlines (pre ++ row :: post))) = Some (strip row)
  ∧ manage_config.add_readme_entry (unlines (pre ++ row :: post)) option heading
      opt_type desc
    = (unlines (pre ++ new_row :: post), true)
  ∧ (row ∉ splitlines (manage_config.remove_readme_entry
                         (unlines (pre ++ row :: post)) option).1).
Proof.
  intros key new_row Hsl Hpre Hrow Hne.
  assert (Forall (λ l, single_line l = true) (pre ++ row :: post)) as Hall.
  { apply Forall_forall. intros l Hl%list_elem_of_In.
    rewrite forallb_forall in Hsl. by apply Hsl. }
  assert (Forall (λ l, manage_config.is_row_of key l = false) pre) as Hnone.
  { apply Forall_forall. intros l Hl%list_elem_of_In.
    rewrite forallb_forall in Hpre. by apply negb_true_iff, Hpre. }
  assert (splitlines (unlines (pre ++ row :: post)) = pre ++ row :: post) as Hlines.
  { apply splitlines_unlines; [done|]. by destruct pre. }
  assert (manage_config.first_index (manage_config.is_row_of key) 0 (pre ++ row :: post)
          = Some (length pre)) as Hidx.
  { by rewrite (first_index_app _ 0 pre row post Hnone Hrow). }
  assert ((pre ++ row :: post) !! length pre = Some row) as Hat.
  { by rewrite list_lookup_middle. }
  split; [|split].
  - rewrite Hlines, first_row_first_index, Hidx, Hat. done.
  - unfold manage_config.add_readme_entry, manage_config.find_row. cbv zeta.
    fold key. fold new_row.
    rewrite Hlines, Hidx, Hat. cbn [default id]. rewrite Hne.
    assert (contains key (unlines (pre ++ row :: post)) = true) as ->.
    { apply (contains_unlines key row).
      - rewrite elem_of_app, elem_of_cons. auto.
      - unfold manage_config.is_row_of in Hrow. by apply andb_true_iff in Hrow as [? _]. }
    f_equal. f_equal. by rewrite insert_app_r_alt, Nat.sub_diag by lia.
  - unfold manage_config.remove_readme_entry. cbv zeta. fold key. cbn [fst].
    destruct (splitlines_removed (manage_config.is_row_of key) (is_row_of_empty key)
                (unlines (pre ++ row :: post))) as [Hno _].
    intros Hin. rewrite Forall_forall in Hno. specialize (Hno row Hin). congruence.
Qed.

Lemma readme_row_matched_by_substring_witness :
  manage_config.add_readme_entry
    (text ["## USB Support"; EmptyString; "| Option | Type | Description |"; "|---|---|---|";
           "| `USB_STORAGE` | builtin | needs `USB` |"; "| `USB` | builtin | USB core |"])
    "USB" "USB Support" "module" "USB core"
  = (text ["## USB Support"; EmptyString; "| Option | Type | Description |"; "|---|---|---|";
           "| `USB` | module | USB core |"; "| `USB` | builtin | USB core |"], true).
Proof.
  destruct (readme_row_matched_by_substring "USB" "USB Support" "module" "USB core"
              ["## USB Support"; EmptyString; "| Option | Type | Description |";
               "|---|---|---|"]
              "| `USB_STORAGE` | builtin | needs `USB` |"
              ["| `USB` | builtin | USB core |"]) as (_ & H & _); [reflexivity..|].
  exact H.
Defined.

(** ** An entry before the first section *)

Section NoHeader.
Variables (opt value line rest : string).
Hypothesis Hname : plain_name opt = true.
Hypothesis Hvalue : plain_value value = true.
Hypothesis Hsemi : startswith opt ";" = false.
Hypothesis Hline : single_line line = true.
Hypothesis Hstrip : strip line = upper opt +:+ "=" +:+ value.

Let bare := upper opt.

Lemma read_line_no_header : configparser.read_line configparser.start line
                            = Raise MissingSectionHeaderError.
Proof.
  destruct (name_facts opt Hname) as (_ & Hs & He & Hc & Hb).
  fold bare in Hs, He, Hc, Hb, Hstrip.
  assert (startswith bare ";" = false) as Hsc.
  { subst bare. destruct opt as [|c o]; [done|]. cbn [upper map_chars startswith] in *.
    rewrite startswith_nil, andb_true_r in *. rewrite Ascii.eqb_sym in Hsemi.
    rewrite Ascii.eqb_sym, <- Hsemi. by destruct c as [[] [] [] [] [] [] [] []]. }
  unfold configparser.read_line. rewrite Hstrip.
  change (bare +:+ "=" +:+ value) with (bare +:+ String "="%char value).
  assert (∀ c, startswith bare (String c EmptyString) = false →
               Ascii.eqb c "="%char = false →
               startswith (bare +:+ String "="%char value) (String c EmptyString) = false)
    as Hst.
  { intros c Hc' Hne. destruct (decide (bare = EmptyString)) as [E|Hn].
    - rewrite E, app_nil_l_s. simpl. by rewrite Hne.
    - by rewrite startswith_nonempty_app. }
  rewrite !Hst by done. cbn [orb].
  assert (is_empty (bare +:+ String "="%char value) = false) as ->.
  { destruct bare; [done|]. by rewrite app_cons_s. }
  cbn [configparser.continues configparser.start configparser.cursect].
  unfold configparser.section_header. by rewrite Hst.
Qed.

Lemma read_no_header : configparser.read (line +:+ nl +:+ rest)
                       = Raise MissingSectionHeaderError.
Proof.
  unfold configparser.read.
  rewrite split_nl_app_line by (by apply single_line_no_lf).
  pose proof (split_nl_nonempty rest) as Hne.
  destruct (split_nl rest) as [|l2 ls]; [done|].
  change (drop_last_empty (line :: l2 :: ls)) with (line :: drop_last_empty (l2 :: ls)).
  cbn [configparser.read_lines]. by rewrite read_line_no_header.
Qed.

Lemma policy_lookup_no_header :
  manage_config.policy_lookup bare None (splitlines (line +:+ nl +:+ rest))
  = Some ("unknown", strip value).
Proof.
  destruct (name_facts opt Hname) as (_ & Hs & He & Hc & Hb).
  fold bare in Hs, He, Hc, Hb, Hstrip.
  unfold splitlines. rewrite segments_app_line by done.
  pose proof (segments_nonempty false rest) as Hne.
  destruct (segments false rest) as [|l2 ls]; [done|].
  change (drop_last_empty (line :: l2 :: ls)) with (line :: drop_last_empty (l2 :: ls)).
  cbn [manage_config.policy_lookup]. rewrite Hstrip.
  change (bare +:+ "=" +:+ value) with (bare +:+ String "="%char value).
  assert (∀ c, startswith bare (String c EmptyString) = false →
               Ascii.eqb c "="%char = false →
               startswith (bare +:+ String "="%char value) (String c EmptyString) = false)
    as Hst.
  { intros c Hc' Hne'. destruct (decide (bare = EmptyString)) as [E|Hn].
    - rewrite E, app_nil_l_s. simpl. by rewrite Hne'.
    - by rewrite startswith_nonempty_app. }
  rewrite !Hst by done. cbn [andb negb].
  rewrite has_char_app. cbn [has_char]. rewrite Ascii.eqb_refl, orb_true_r.
  unfold before. rewrite partition_app by done. rewrite Hs.
  subst bare. rewrite upper_idem, String.eqb_refl.
  by rewrite after_app.
Qed.
End NoHeader.

(** X21.  A policy file whose first line is an entry, before any section
    header: [show] reports the entry under the section [unknown]; the
    parser of [reconcile] rejects the file, and [cmd_reconcile], once two
    tracks are loaded, stops on [MissingSectionHeaderError]. *)
Theorem policy_entry_before_first_section opt value line rest raw w :
  plain_name opt = true →
  plain_value value = true →
  startswith opt ";" = false →
  single_line line = true →
  strip line = upper opt +:+ "=" +:+ value →
  files w !! manage_config.POLICY_FILE = Some raw →
  universal_newlines false raw = line +:+ nl +:+ rest →
  manage_config.get_policy_entry opt w = (Ok (Some ("unknown", strip value)), w)
  ∧ (reconcile_configs.parse_policy w).1 = Raise MissingSectionHeaderError
  ∧ ∀ fix_mode verbose configs w1,
      reconcile_configs.load_configs
        (World (files w) (stdout w ++ ["=== Sky1 Config Reconciliation ===" +:+ nl]))
        = (Ok configs, w1) →
      (2 <= length configs)%nat →
      (reconcile_configs.cmd_reconcile fix_mode verbose w).1
      = Raise MissingSectionHeaderError.
Proof.
  intros Hname Hvalue Hsemi Hline Hstrip Hraw Htext.
  assert (∀ w0, files w0 = files w →
                (reconcile_configs.parse_policy w0).1 = Raise MissingSectionHeaderError)
    as Hparse.
  { intros w0 Hw0. unfold reconcile_configs.parse_policy, exists_, read_text, lift, bind.
    change reconcile_configs.POLICY_FILE with manage_config.POLICY_FILE.
    rewrite Hw0, Hraw, bool_decide_eq_true_2 by eauto. cbn [negb].
    rewrite Hw0, Hraw, Htext.
    by rewrite (read_no_header opt value line rest Hname Hsemi Hline Hstrip). }
  split; [|split].
  - unfold manage_config.get_policy_entry, exists_, read_text, bind, ret.
    rewrite Hraw, bool_decide_eq_true_2 by eauto. cbn [negb]. rewrite Hraw, Htext.
    by rewrite (policy_lookup_no_header opt value line rest Hname Hline Hstrip).
  - by apply Hparse.
  - intros fix_mode verbose configs w1 Hload Hlen.
    pose proof Hload as [Hfiles _]%load_configs_labels. cbn [files] in Hfiles.
    unfold reconcile_configs.cmd_reconcile.
    erewrite (bind_ok (print _)) by reflexivity.
    rewrite (bind_ok _ _ _ _ _ Hload).
    assert ((length configs <? 2)%nat = false) as -> by (apply Nat.ltb_ge; lia).
    erewrite (bind_ok (print _)) by reflexivity.
    specialize (Hparse (World (files w1) (stdout w1 ++ [EmptyString])) Hfiles).
    unfold bind at 1.
    destruct (reconcile_configs.parse_policy _) as [[p|e] w2]; [done|].
    cbn [fst] in *. by injection Hparse as ->.
Qed.

Lemma policy_entry_before_first_section_witness :
  manage_config.get_policy_entry "NET_FOO" w_no_header
  = (Ok (Some ("unknown", "y")), w_no_header)
  ∧ (reconcile_configs.parse_policy w_no_header).1 = Raise MissingSectionHeaderError
  ∧ (reconcile_configs.cmd_reconcile false false w_no_header).1
    = Raise MissingSectionHeaderError.
Proof.
  destruct (policy_entry_before_first_section "NET_FOO" "y" "NET_FOO=y"
              (text ["[net]"; "NET_BAR=m"]) (text ["NET_FOO=y"; "[net]"; "NET_BAR=m"])
              w_no_header)
    as (H1 & H2 & H3); [reflexivity..|].
  split; [exact H1|]. split; [exact H2|].
  eapply (H3 false false); [vm_compute; reflexivity|vm_compute; lia].
Defined.

(** ** Divergence between the tracks *)

Lemma remove_dups_short {A} `{EqDecision A} (l : list A) :
  (length (remove_dups l) <= 1)%nat ↔ ∀ x y, x ∈ l → y ∈ l → x = y.
Proof.
  split.
  - intros Hlen x y Hx%elem_of_remove_dups Hy%elem_of_remove_dups.
    destruct (remove_dups l) as [|a [|b r]]; simpl in Hlen; [|..|lia].
    + by apply elem_of_nil in Hx.
    + apply list_elem_of_singleton in Hx, Hy. congruence.
  - intros Hall. pose proof (NoDup_remove_dups l) as Hnd.
    destruct (remove_dups l) as [|a [|b r]] eqn:E; simpl; [lia..|].
    exfalso. apply NoDup_cons in Hnd as [Hnot _]. apply Hnot.
    assert (a = b) as ->; [|by left].
    apply Hall; apply elem_of_remove_dups; rewrite E; [by left|right; by left].
Qed.

(** X22.  Without [--verbose], the comparison of [cmd_reconcile] lists an option
    exactly when two loaded tracks differ on it, a track that lacks the
    option standing for the value [-]. *)
Theorem divergent_iff_tracks_differ configs opt :
  reconcile_configs.divergence_line configs false opt = []
  ↔ ∀ label1 cfg1 label2 cfg2,
      (label1, cfg1) ∈ configs → (label2, cfg2) ∈ configs →
      default "-" (dict_get cfg1 opt) = default "-" (dict_get cfg2 opt).
Proof.
  unfold reconcile_configs.divergence_line. cbv zeta. rewrite orb_false_r.
  set (vals := map (λ '(label, cfg), (label, default "-" (dict_get cfg opt))) configs).
  assert (∀ v, v ∈ map snd vals
               ↔ ∃ label cfg, (label, cfg) ∈ configs ∧ v = default "-" (dict_get cfg opt))
    as Hvals.
  { intros v. subst vals. rewrite list_elem_of_In, in_map_iff. split.
    - intros ([l v'] & <- & ([label cfg] & [= <- <-] & Hin%list_elem_of_In)%in_map_iff).
      by exists label, cfg.
    - intros (label & cfg & Hin & ->). exists (label, default "-" (dict_get cfg opt)).
      split; [done|]. apply in_map_iff. exists (label, cfg). split; [done|].
      by apply list_elem_of_In. }
  destruct (1 <? length (remove_dups (map snd vals)))%nat eqn:Hlen.
  - split; [done|]. intros Hall. exfalso.
    apply Nat.ltb_lt in Hlen.
    assert (length (remove_dups (map snd vals)) <= 1)%nat; [|lia].
    apply remove_dups_short. intros x y (l1 & c1 & H1 & ->)%Hvals (l2 & c2 & H2 & ->)%Hvals.
    by eapply Hall.
  - split; [|done]. intros _ label1 cfg1 label2 cfg2 H1 H2.
    apply Nat.ltb_ge in Hlen. rewrite remove_dups_short in Hlen.
    apply Hlen; apply Hvals; eauto.
Qed.

(** ** Removed options that are neither enabled nor disabled *)

(** X23.  The review of removed options lists those that were [y] or [m] and
    counts those that were [n]: when options were removed and each of them
    had another value, a number or a string, it prints their count in the
    header and nothing about them. *)
Theorem removed_values_not_listed (removed : list (string * string)) w :
  (0 < length removed)%nat →
  forallb (λ kv : string * string,
             negb (String.eqb kv.2 "y" || String.eqb kv.2 "m" || String.eqb kv.2 "n"))
    removed = true →
  reconcile_configs.print_removed_options removed w
  = (Ok (), World (files w)
              (stdout w ++ ["--- REMOVED options (" +:+ str_nat (length removed)
                            +:+ ") ---"; EmptyString])).
Proof.
  intros _ Hb.
  assert (Forall (λ kv : string * string, kv.2 ≠ "y" ∧ kv.2 ≠ "m" ∧ kv.2 ≠ "n") removed)
    as Hall.
  { apply Forall_forall. intros kv Hkv%list_elem_of_In.
    rewrite forallb_forall in Hb. specialize (Hb kv Hkv).
    apply negb_true_iff, orb_false_iff in Hb as [[Hy Hm]%orb_false_iff Hn].
    by rewrite !String.eqb_neq in *. }
  clear Hb. unfold reconcile_configs.print_removed_options. cbv zeta.
  assert (∀ P : string * string → Prop, ∀ H : ∀ x, Decision (P x),
            (∀ kv, P kv → kv.2 = "y" ∨ kv.2 = "m" ∨ kv.2 = "n") →
            filter P removed = []) as Hnone.
  { intros P H HP. induction Hall as [|kv l (Hy & Hm & Hn) _ IH]; [done|].
    rewrite filter_cons, IH. destruct (decide _) as [Hkv|]; [|done].
    by destruct (HP kv Hkv) as [?|[?|?]]. }
  rewrite !Hnone.
  - unfold print, bind, ret. cbn [files stdout length]. by rewrite <- !app_assoc.
  - intros kv H%String.eqb_eq. auto.
  - intros kv [H%String.eqb_eq|H%String.eqb_eq]%orb_true_iff; auto.
Qed.

Lemma removed_values_not_listed_witness :
  reconcile_configs.print_removed_options
    [("CONFIG_HZ", "250"); ("CONFIG_LOCALVERSION", "-sky1")] w_empty
  = (Ok (), World ∅ ["--- REMOVED options (2) ---"; EmptyString]).
Proof.
  etrans; [apply (removed_values_not_listed _ w_empty); [simpl; lia|reflexivity]|].
  vm_compute; reflexivity.
Defined.

(** ** The prefix of an option name *)

Lemma normalize_option_prefix name :
  manage_config.normalize_option ("CONFIG_" +:+ name) = name.
Proof.
  unfold manage_config.normalize_option, removeprefix.
  rewrite startswith_app. reflexivity.
Qed.

(** X24.  The prefix [CONFIG_] of an option name is optional: for a name that
    does not itself start with it, [show], [set] and [remove] do the same
    with and without the prefix. *)
Theorem config_prefix_is_optional name :
  startswith name "CONFIG_" = false →
  manage_config.cmd_show ("CONFIG_" +:+ name) = manage_config.cmd_show name
  ∧ (∀ value policy_section doc_heading doc_type doc_desc apply,
       manage_config.cmd_set ("CONFIG_" +:+ name) value policy_section doc_heading
         doc_type doc_desc apply
       = manage_config.cmd_set name value policy_section doc_heading doc_type doc_desc
           apply)
  ∧ (∀ policy doc apply,
       manage_config.cmd_remove ("CONFIG_" +:+ name) policy doc apply
       = manage_config.cmd_remove name policy doc apply).
Proof.
  intros Hname.
  assert (manage_config.normalize_option name = name) as Hn.
  { unfold manage_config.normalize_option, removeprefix. by rewrite Hname. }
  unfold manage_config.cmd_show, manage_config.cmd_set, manage_config.cmd_remove.
  by rewrite normalize_option_prefix, Hn.
Qed.

Lemma config_prefix_is_optional_witness :
  manage_config.cmd_show "CONFIG_USB_UAS" = manage_config.cmd_show "USB_UAS".
Proof. apply (config_prefix_is_optional "USB_UAS"). reflexivity. Defined.

(** ** The two readers of a config *)

Lemma rev_app_rev_app w acc t :
  String.rev_app (String.rev_app w acc) t = String.rev_app acc (w +:+ t).
Proof.
  revert acc. induction w as [|c w IH]; intros acc; [done|].
  cbn [String.rev_app]. rewrite IH. by rewrite app_cons_s.
Qed.

Lemma words_from_word cur w s :
  has_space w = false →
  w ≠ EmptyString →
  words_from cur (w +:+ s)
  = words_from (Some (String.rev_app w (default EmptyString cur))) s.
Proof.
  revert cur. induction w as [|c w IH]; intros cur Hw Hne; [done|].
  rewrite app_cons_s. cbn [has_space] in Hw.
  apply orb_false_iff in Hw as [Hc Hw].
  cbn [words_from]. rewrite Hc. destruct w as [|c2 w]; [done|].
  by rewrite IH.
Qed.

Lemma split_ws_disabled_line key :
  has_space key = false →
  key ≠ EmptyString →
  split_ws (manage_config.disabled_line key) !! 1 = Some key.
Proof.
  intros Hk Hne. unfold split_ws, manage_config.disabled_line.
  change ("# " +:+ key +:+ " is not set")
    with (String "#"%char (String " "%char (key +:+ " is not set"))).
  cbn [words_from is_space]. 
  change (is_space "#"%char) with false. change (is_space " "%char) with true.
  cbv beta iota. rewrite words_from_word by done.
  change (" is not set") with (String " "%char "is not set").
  cbn [words_from]. change (is_space " "%char) with true. cbv beta iota.
  cbn [fmap option_fmap option_map option_list app default lookup list_lookup].
  unfold String.rev. rewrite rev_app_rev_app. cbn [String.rev_app].
  by rewrite app_nil_r_s.
Qed.

Section Readers.
Variable option : string.
Hypothesis Heq : has_char "="%char option = false.
Hypothesis Hws : has_space option = false.

Let key := "CONFIG_" +:+ option.

Lemma key_facts :
  has_char "="%char key = false
  ∧ has_space key = false
  ∧ key ≠ EmptyString.
Proof.
  unfold key. split; [by rewrite has_char_app|]. split; [|done].
  rewrite !app_cons_s. cbn [has_space]. by rewrite app_nil_l_s.
Qed.

Lemma parsed_key_enabled v : parsed_key (key +:+ "=" +:+ v) = Some key.
Proof.
  destruct key_facts as (He & _). unfold parsed_key.
  assert (startswith (key +:+ "=" +:+ v) "CONFIG_" = true) as ->.
  { unfold key. rewrite app_assoc_s. apply startswith_app. }
  change (key +:+ "=" +:+ v) with (key +:+ String "="%char v).
  unfold before. by rewrite partition_app.
Qed.

Lemma parsed_key_disabled : parsed_key (manage_config.disabled_line key) = Some key.
Proof.
  destruct key_facts as (_ & Hw & Hne). unfold parsed_key.
  assert (startswith (manage_config.disabled_line key) "CONFIG_" = false) as ->.
  { unfold manage_config.disabled_line. by rewrite !app_cons_s. }
  assert (startswith (manage_config.disabled_line key) "# CONFIG_" = true) as ->.
  { unfold manage_config.disabled_line, key.
    repeat first [rewrite app_cons_s | rewrite app_nil_l_s].
    cbn [startswith]. rewrite !Ascii.eqb_refl. cbn [andb]. apply startswith_nil. }
  assert (endswith (manage_config.disabled_line key) " is not set" = true) as ->.
  { unfold manage_config.disabled_line, endswith.
    rewrite <- app_assoc_s.
    assert (∀ a b : string, String.length (a +:+ b) = String.length a + String.length b)
      as Hlen.
    { intros a b. induction a as [|c a IH]; [done|]. rewrite app_cons_s. simpl.
      by rewrite IH. }
    assert (∀ a b : string, drop (String.length a) (a +:+ b) = b) as Hdrop.
    { intros a b. induction a as [|c a IH]; [by destruct b|]. by rewrite app_cons_s. }
    rewrite Hlen. replace (_ + _ - _) with (String.length ("# " +:+ key))
      by (cbn [String.length]; lia).
    rewrite Hdrop, String.eqb_refl, andb_true_r. apply Nat.leb_le. lia. }
  cbn [andb]. by rewrite split_ws_disabled_line.
Qed.

Lemma config_value_in_other l ls :
  parsed_key l ≠ Some key →
  manage_config.config_value_in key (l :: ls) = manage_config.config_value_in key ls.
Proof.
  destruct key_facts as (He & _). intros Hl. cbn [manage_config.config_value_in].
  destruct (startswith l (manage_config.enabled_prefix key)) eqn:E1.
  - destruct Hl. unfold parsed_key, manage_config.enabled_prefix in *.
    rewrite (startswith_app_inv l "CONFIG_" (option +:+ "=")); cycle 1.
    { unfold key in E1. by rewrite app_assoc_s in E1. }
    f_equal. clear -E1 He. revert l E1. induction key as [|c k IH]; intros l E1.
    + destruct l as [|a l]; [done|]. cbn [startswith] in E1.
      apply andb_true_iff in E1 as [<-%Ascii.eqb_eq _]. done.
    + destruct l as [|a l]; [done|]. rewrite app_cons_s in E1. cbn [startswith] in E1.
      apply andb_true_iff in E1 as [<-%Ascii.eqb_eq E1].
      simpl in He. apply orb_false_iff in He as [Hc He].
      unfold before. cbn [partition]. rewrite Hc.
      specialize (IH He l E1). unfold before in IH.
      destruct (partition "="%char l) as [[h t]|]; by rewrite IH.
  - destruct (String.eqb_spec l (manage_config.disabled_line key)) as [->|]; [|done].
    destruct Hl. apply parsed_key_disabled.
Qed.

Lemma parse_config_lines_cons opts l ls :
  reconcile_configs.parse_config_lines opts (l :: ls)
  = reconcile_configs.parse_config_lines
      (match parsed_key l with
       | Some k => dict_set opts k (if startswith l "CONFIG_" then after "="%char l else "n")
       | None => opts
       end) ls.
Proof.
  cbn [reconcile_configs.parse_config_lines]. unfold parsed_key.
  destruct (startswith l "CONFIG_"); [done|]. by destruct (_ && _).
Qed.

Lemma dict_get_parse_other opts ls :
  Forall (λ l, parsed_key l ≠ Some key) ls →
  dict_get (reconcile_configs.parse_config_lines opts ls) key = dict_get opts key.
Proof.
  intros H. revert opts. induction H as [|l ls Hl _ IH]; intros opts; [done|].
  rewrite parse_config_lines_cons, IH.
  destruct (parsed_key l) as [k|]; [|done]. apply dict_get_set_ne. congruence.
Qed.

Lemma config_value_in_none ls :
  Forall (λ l, parsed_key l ≠ Some key) ls →
  manage_config.config_value_in key ls = None.
Proof.
  induction 1 as [|l ls Hl _ IH]; [done|]. by rewrite config_value_in_other.
Qed.
End Readers.

(** X25.  The two readers of a config agree on an option that at most one
    line gives.  For an option name without equals sign and white space,
    and lines of which [parse_config] reads none as a line of the option:
    [get_config_value], with which [show] and [set] read, and
    [parse_config], with which [reconcile] and [review] read, both find
    nothing in these lines, and with one more line among them, an
    assignment or a line that the option is not set, both find its
    value. *)
Theorem config_readers_agree option v pre post :
  has_char "="%char option = false →
  has_space option = false →
  let key := "CONFIG_" +:+ option in
  forallb (λ l, negb (bool_decide (parsed_key l = Some key))) (pre ++ post) = true →
  (manage_config.config_value_in key (pre ++ post) = None
   ∧ dict_get (reconcile_configs.parse_config_lines [] (pre ++ post)) key = None)
  ∧ (manage_config.config_value_in key (pre ++ (key +:+ "=" +:+ v) :: post) = Some v
     ∧ dict_get (reconcile_configs.parse_config_lines []
                   (pre ++ (key +:+ "=" +:+ v) :: post)) key = Some v)
  ∧ (manage_config.config_value_in key (pre ++ manage_config.disabled_line key :: post)
     = Some "n"
     ∧ dict_get (reconcile_configs.parse_config_lines []
                   (pre ++ manage_config.disabled_line key :: post)) key = Some "n").
Proof.
  intros Heq Hws key Hother.
  assert (Forall (λ l, parsed_key l ≠ Some key) (pre ++ post)) as Hall.
  { apply Forall_forall. intros l Hl%list_elem_of_In.
    rewrite forallb_forall in Hother. specialize (Hother l Hl).
    apply negb_true_iff in Hother. by apply bool_decide_eq_false_1 in Hother. }
  pose proof Hall as [Hpre Hpost]%Forall_app.
  destruct (key_facts option Heq Hws) as (He & _). fold key in He.
  assert (∀ l value,
            parsed_key l = Some key →
            manage_config.config_value_in key (l :: post) = Some value →
            (if startswith l "CONFIG_" then after "="%char l else "n") = value →
            manage_config.config_value_in key (pre ++ l :: post) = Some value
            ∧ dict_get (reconcile_configs.parse_config_lines [] (pre ++ l :: post)) key
              = Some value) as Hone.
  { intros l value Hl Hget Hval. split.
    - clear Hall Hother. induction Hpre as [|x pre Hx _ IH]; [exact Hget|].
      rewrite <- app_comm_cons, (config_value_in_other option) by done. apply IH.
    - rewrite parse_config_lines_app, parse_config_lines_cons, Hl, Hval.
      rewrite (dict_get_parse_other option) by done. apply dict_get_set_eq. }
  split; [|split].
  - split; [by apply (config_value_in_none option)|].
    by rewrite (dict_get_parse_other option).
  - assert (startswith (key +:+ "=" +:+ v) "CONFIG_" = true) as Hstart.
    { unfold key. rewrite app_assoc_s. apply startswith_app. }
    assert (after "="%char (key +:+ "=" +:+ v) = v) as Hafter.
    { change (key +:+ "=" +:+ v) with (key +:+ String "="%char v). by apply after_app. }
    apply Hone; [by apply parsed_key_enabled| |by rewrite Hstart].
    cbn [manage_config.config_value_in]. unfold manage_config.enabled_prefix.
    rewrite <- app_assoc_s, startswith_app. by rewrite app_assoc_s, Hafter.
  - assert (startswith (manage_config.disabled_line key) "CONFIG_" = false) as Hstart.
    { unfold manage_config.disabled_line. by rewrite !app_cons_s. }
    apply Hone; [by apply parsed_key_disabled| |by rewrite Hstart].
    cbn [manage_config.config_value_in].
    assert (startswith (manage_config.disabled_line key) (manage_config.enabled_prefix key)
            = false) as ->.
    { unfold manage_config.disabled_line, manage_config.enabled_prefix, key.
      by rewrite !app_cons_s. }
    by rewrite String.eqb_refl.
Qed.

Lemma config_readers_agree_witness :
  let pre := ["CONFIG_USB=y"; "# CONFIG_USB_UAS is not set"] in
  let post := ["CONFIG_USB_STORAGE_DEBUG=m"] in
  (manage_config.config_value_in "CONFIG_USB_STORAGE"
     (pre ++ "CONFIG_USB_STORAGE=m" :: post) = Some "m"
   ∧ dict_get (reconcile_configs.parse_config_lines []
                 (pre ++ "CONFIG_USB_STORAGE=m" :: post)) "CONFIG_USB_STORAGE" = Some "m").
Proof.
  intros pre post.
  exact (proj1 (proj2 (config_readers_agree "USB_STORAGE" "m" pre post
                         eq_refl eq_refl eq_refl))).
Defined.

(** ** What the review reports *)

Lemma is_ignored_key k v :
  existsb (String.eqb (k +:+ "=")) reconcile_configs.IGNORE_PATTERNS = true →
  reconcile_configs.is_ignored (k +:+ "=" +:+ v) = true.
Proof.
  intros (p & Hin & <-%String.eqb_eq)%existsb_exists.
  unfold reconcile_configs.is_ignored. apply existsb_exists.
  exists (k +:+ "="). split; [done|]. rewrite <- app_assoc_s. apply startswith_app.
Qed.

Lemma elem_of_added old new k v :
  (k, v) ∈ reconcile_configs.added_options old new
  ↔ (k, v) ∈ new ∧ dict_get old k = None
    ∧ reconcile_configs.is_ignored (k +:+ "=" +:+ v) = false.
Proof.
  unfold reconcile_configs.added_options. rewrite list_elem_of_filter.
  unfold dict_has. cbv beta iota.
  rewrite andb_true_iff, !negb_true_iff.
  destruct (dict_get old k); intuition congruence.
Qed.

Lemma elem_of_removed old new k v :
  (k, v) ∈ reconcile_configs.removed_options old new
  ↔ (k, v) ∈ old ∧ dict_get new k = None
    ∧ reconcile_configs.is_ignored (k +:+ "=" +:+ v) = false.
Proof.
  unfold reconcile_configs.removed_options. rewrite list_elem_of_filter.
  unfold dict_has. cbv beta iota.
  rewrite andb_true_iff, !negb_true_iff.
  destruct (dict_get new k); intuition congruence.
Qed.

Lemma elem_of_changed old new k v v' :
  (k, (v, v')) ∈ reconcile_configs.changed_options old new
  ↔ (k, v) ∈ old ∧ dict_get new k = Some v' ∧ v ≠ v'
    ∧ reconcile_configs.is_ignored (k +:+ "=" +:+ v) = false.
Proof.
  unfold reconcile_configs.changed_options.
  rewrite list_elem_of_In, in_flat_map. split.
  - intros ([k0 v0] & Hin%list_elem_of_In & H).
    destruct (dict_get new k0) as [v1|] eqn:E; [|done].
    destruct (String.eqb_spec v0 v1) as [|Hne]; [done|]. cbn [negb andb] in H.
    destruct (reconcile_configs.is_ignored _) eqn:Ei; [done|].
    destruct H as [[= <- <- <-]|[]]. done.
  - intros (Hin & Hget & Hne & Hi). exists (k, v). split; [by apply list_elem_of_In|].
    rewrite Hget, Hi. apply String.eqb_neq in Hne. rewrite Hne. by left.
Qed.

Lemma dict_get_elem_iff {V} (d : dict V) k v :
  NoDup (map fst d) → (k, v) ∈ d ↔ dict_get d k = Some v.
Proof.
  intros Hd. split; [by apply dict_get_elem|]. clear Hd.
  induction d as [|[k0 v0] d IH]; simpl; [done|].
  destruct (String.eqb_spec k0 k) as [->|Hne]; [intros [= ->]; by left|].
  intros H. right. by apply IH.
Qed.

(** X26.  The review never reports an option of [IGNORE_PATTERNS], the
    versions of the tool chain: whatever the two configs hold, such an
    option is not among the new, the removed or the changed options. *)
Theorem review_ignores_toolchain_versions old new k :
  existsb (String.eqb (k +:+ "=")) reconcile_configs.IGNORE_PATTERNS = true →
  (k ∉ map fst (reconcile_configs.added_options old new))
  ∧ (k ∉ map fst (reconcile_configs.removed_options old new))
  ∧ (k ∉ map fst (reconcile_configs.changed_options old new)).
Proof.
  intros Hk. pose proof (is_ignored_key k) as Hi.
  split; [|split]; intros ([k0 v] & -> & Hin)%list_elem_of_fmap; cbn [fst] in *.
  - apply elem_of_added in Hin as (_ & _ & H). by rewrite Hi in H.
  - apply elem_of_removed in Hin as (_ & _ & H). by rewrite Hi in H.
  - destruct v as [v v']. apply elem_of_changed in Hin as (_ & _ & _ & H).
    by rewrite Hi in H.
Qed.

Lemma review_ignores_toolchain_versions_witness :
  "CONFIG_GCC_VERSION"
  ∉ map fst (reconcile_configs.changed_options
               [("CONFIG_GCC_VERSION", "130200"); ("CONFIG_USB", "y")]
               [("CONFIG_GCC_VERSION", "140100"); ("CONFIG_USB", "m")]).
Proof.
  apply (review_ignores_toolchain_versions
           [("CONFIG_GCC_VERSION", "130200"); ("CONFIG_USB", "y")]
           [("CONFIG_GCC_VERSION", "140100"); ("CONFIG_USB", "m")] "CONFIG_GCC_VERSION").
  reflexivity.
Defined.

(** X27.  The three lists of the review are exactly the differences of the
    two parsed configs, the ignored options apart: an option is new when
    only the new config has it, removed when only the old one has it, and
    changed when both have it with different values; no option is in two
    of the lists, and one on which the configs agree is in none. *)
Theorem review_reports_the_differences lines_old lines_new k :
  let old := reconcile_configs.parse_config_lines [] lines_old in
  let new := reconcile_configs.parse_config_lines [] lines_new in
  let shown v := negb (reconcile_configs.is_ignored (k +:+ "=" +:+ v)) in
  (∀ v, (k, v) ∈ reconcile_configs.added_options old new
        ↔ dict_get old k = None ∧ dict_get new k = Some v ∧ shown v = true)
  ∧ (∀ v, (k, v) ∈ reconcile_configs.removed_options old new
          ↔ dict_get old k = Some v ∧ dict_get new k = None ∧ shown v = true)
  ∧ (∀ v v', (k, (v, v')) ∈ reconcile_configs.changed_options old new
             ↔ dict_get old k = Some v ∧ dict_get new k = Some v' ∧ v ≠ v'
               ∧ shown v = true).
Proof.
  intros old new shown.
  assert (NoDup (map fst old)) as Hold by (apply parse_config_lines_NoDup; constructor).
  assert (NoDup (map fst new)) as Hnew by (apply parse_config_lines_NoDup; constructor).
  unfold shown. split; [|split]; intros v.
  - rewrite elem_of_added, (dict_get_elem_iff new) by done.
    rewrite negb_true_iff. intuition congruence.
  - rewrite elem_of_removed, (dict_get_elem_iff old) by done.
    rewrite negb_true_iff. intuition congruence.
  - intros v'. rewrite elem_of_changed, (dict_get_elem_iff old) by done.
    rewrite negb_true_iff. intuition congruence.
Qed.
